(** * medkit core: annotations, documents and document pipelines

    A shallow embedding of [medkit/core/annotation.py],
    [medkit/core/document.py] and [medkit/core/doc_pipeline.py].

    Python objects are mutable and shared by reference: an annotation handed
    to a document is the very object the caller keeps.  Objects therefore live
    in a heap indexed by references, and every method is a computation over
    that heap.  A raised exception keeps the writes made before it, as in
    Python. *)

From stdpp Require Import base option list gmap sets strings pretty.

Local Open Scope string_scope.
Local Open Scope list_scope.
Set Warnings "-register-all,-clear-no-such-hyp".

(** ** Python values *)

(** An object reference (the identity of a Python object). *)
Abbreviation ref := positive.

(** The values of type [Any] held by [value] and [metadata]. *)
Inductive PyValue : Type :=
| PyNone
| PyBool (b : bool)
| PyInt (z : Z)
| PyStr (s : string)
| PyList (l : list PyValue)
| PyDict (d : list (string * PyValue)).

(** A [dict] with [str] keys whose insertion order is observed: an
    association list with at most one entry per key, oldest first. *)
Abbreviation odict V := (list (string * V)).

Section odict.
Context {V : Type}.

(** [d.get(k)] *)
Fixpoint odict_get (k : string) (d : odict V) : option V :=
  match d with
  | [] => None
  | (k', v) :: d' => if decide (k = k') then Some v else odict_get k d'
  end.

(** [k in d] *)
Definition odict_mem (k : string) (d : odict V) : bool :=
  bool_decide (is_Some (odict_get k d)).

(** [d[k] = v]: an existing key keeps its position, a new key goes last. *)
Fixpoint odict_set (k : string) (v : V) (d : odict V) : odict V :=
  match d with
  | [] => [(k, v)]
  | (k', v') :: d' =>
      if decide (k = k') then (k, v) :: d' else (k', v') :: odict_set k v d'
  end.

(** [d.keys()], [d.values()] *)
Definition odict_keys (d : odict V) : list string := d.*1.
Definition odict_values (d : odict V) : list V := d.*2.
End odict.

(** A [Dict[str, List[str]]] used as an index; the order of its keys is never
    observed, so it is a finite map.

    [[
    if key not in d:
        d[key] = []
    d[key].append(x)
    ]]
    After the guard the subscript cannot fail. *)
Definition index_append (key x : string) (d : gmap string (list string))
  : gmap string (list string) :=
  let d' := if decide (key ∈ dom d) then d else <[key := []]> d in
  alter (λ l, l ++ [x]) key d'.

(** A [set] of [str].  Python leaves the iteration order of a set
    unspecified (CPython derives it from the hash values, which change from
    one run to the next for strings, and from how the set was built).  The
    model keeps one order per set of elements; the statements below use only
    that iterating visits every element exactly once, and that iterating
    twice over a set nothing has changed gives the same list. *)
Class SetOrder := {
  set_iter : gset string → list string;
  set_iter_perm : ∀ s, set_iter s ≡ₚ elements s;
}.

(** ** Exceptions and outcomes *)

Inductive Exception : Type :=
| ValueError (msg : string)
| KeyError (key : string)
| TypeError (msg : string)
| AttributeError (msg : string)
| DuplicateKey (uid : string)
| InvalidReference.

Inductive Outcome (A : Type) : Type :=
| Return (a : A)
| Raise (e : Exception).
Global Arguments Return {A} a.
Global Arguments Raise {A} e.

(** ** Object states *)

Module AttributeObj.
Record t : Type := mk {
  uid : string;
  label : string;
  value : PyValue;
  metadata : odict PyValue;
}.
End AttributeObj.

Module AnnotationObj.
Record t : Type := mk {
  uid : string;
  label : string;
  keys : gset string;
  metadata : odict PyValue;
  _attrs_by_id : odict ref;
  _attr_ids_by_label : gmap string (list string);
}.

Definition set_keys (v : gset string) (a : t) : t :=
  mk (uid a) (label a) v (metadata a) (_attrs_by_id a) (_attr_ids_by_label a).
Definition set__attrs_by_id (v : odict ref) (a : t) : t :=
  mk (uid a) (label a) (keys a) (metadata a) v (_attr_ids_by_label a).
Definition set__attr_ids_by_label (v : gmap string (list string)) (a : t) : t :=
  mk (uid a) (label a) (keys a) (metadata a) (_attrs_by_id a) v.
End AnnotationObj.

Module DocumentObj.
Record t : Type := mk {
  id : string;
  store : ref;
  has_shared_store : bool;
  annotation_ids : gset string;
  annotation_ids_by_label : gmap string (list string);
  annotation_ids_by_key : gmap string (list string);
  metadata : odict PyValue;
}.

Definition set_annotation_ids (v : gset string) (d : t) : t :=
  mk (id d) (store d) (has_shared_store d) v
     (annotation_ids_by_label d) (annotation_ids_by_key d) (metadata d).
Definition set_annotation_ids_by_label (v : gmap string (list string)) (d : t) : t :=
  mk (id d) (store d) (has_shared_store d) (annotation_ids d)
     v (annotation_ids_by_key d) (metadata d).
Definition set_annotation_ids_by_key (v : gmap string (list string)) (d : t) : t :=
  mk (id d) (store d) (has_shared_store d) (annotation_ids d)
     (annotation_ids_by_label d) v (metadata d).
End DocumentObj.

Module PipelineStep.
(** Modelled from the spec: [medkit.core.pipeline] is not under src/.  A
    step is an operation (an external collaborator, kept by name) with the
    keys it reads and writes. *)
Record t : Type := mk {
  operation : string;
  input_keys : list string;
  output_keys : list string;
}.
End PipelineStep.

Module PipelineObj.
(** Modelled from the spec: [medkit.core.pipeline] is not under src/.  Only
    what [DocPipeline] relies on is kept: the declared steps and keys, the
    document bound by [set_doc], and a record of every [process]
    invocation (the document bound at that time and the positional
    arguments).  Running the steps' operations is outside the model. *)
Record t : Type := mk {
  steps : list PipelineStep.t;
  input_keys : list string;
  output_keys : list string;
  doc : option ref;
  invocations : list (option ref * list (list (option ref)));
}.
End PipelineObj.

Module DocPipelineObj.
Record t : Type := mk {
  _pipeline : ref;
  labels_by_input_key : odict (list string);
}.
End DocPipelineObj.

Module CollectionObj.
Record t : Type := mk { documents : list ref }.
End CollectionObj.

(** ** The heap *)

Record World : Type := mkWorld {
  attributes : gmap ref AttributeObj.t;
  annotations : gmap ref AnnotationObj.t;
  stores : gmap ref (gmap string ref);
  documents : gmap ref DocumentObj.t;
  pipelines : gmap ref PipelineObj.t;
  doc_pipelines : gmap ref DocPipelineObj.t;
  generated_ids : nat;
}.

Definition empty_world : World := mkWorld ∅ ∅ ∅ ∅ ∅ ∅ 0.

Definition set_attributes (v : gmap ref AttributeObj.t) (w : World) : World :=
  mkWorld v (annotations w) (stores w) (documents w) (pipelines w)
          (doc_pipelines w) (generated_ids w).
Definition set_annotations (v : gmap ref AnnotationObj.t) (w : World) : World :=
  mkWorld (attributes w) v (stores w) (documents w) (pipelines w)
          (doc_pipelines w) (generated_ids w).
Definition set_stores (v : gmap ref (gmap string ref)) (w : World) : World :=
  mkWorld (attributes w) (annotations w) v (documents w) (pipelines w)
          (doc_pipelines w) (generated_ids w).
Definition set_documents (v : gmap ref DocumentObj.t) (w : World) : World :=
  mkWorld (attributes w) (annotations w) (stores w) v (pipelines w)
          (doc_pipelines w) (generated_ids w).
Definition set_pipelines (v : gmap ref PipelineObj.t) (w : World) : World :=
  mkWorld (attributes w) (annotations w) (stores w) (documents w) v
          (doc_pipelines w) (generated_ids w).
Definition set_doc_pipelines (v : gmap ref DocPipelineObj.t) (w : World) : World :=
  mkWorld (attributes w) (annotations w) (stores w) (documents w) (pipelines w)
          v (generated_ids w).
Definition set_generated_ids (v : nat) (w : World) : World :=
  mkWorld (attributes w) (annotations w) (stores w) (documents w) (pipelines w)
          (doc_pipelines w) v.

(** ** Computations *)

(** A method call: from a heap to an outcome and the heap it leaves. *)
Definition M (A : Type) : Type := World → Outcome A * World.

Definition ret {A} (a : A) : M A := λ w, (Return a, w).
Definition raise {A} (e : Exception) : M A := λ w, (Raise e, w).
Definition bind {A B} (m : M A) (k : A → M B) : M B :=
  λ w, match m w with
       | (Return a, w') => k a w'
       | (Raise e, w') => (Raise e, w')
       end.

Declare Scope py_scope.
Delimit Scope py_scope with py.
Notation "'let!' x ':=' m 'in' k" := (bind m (λ x, k))
  (at level 10, x name, m at level 100, k at level 200,
   format "'[v' 'let!'  x  ':='  m  'in' '/' k ']'") : py_scope.
Notation "m >> k" := (bind m (λ _, k))
  (at level 100, k at level 200, right associativity,
   format "'[v' m  >> '/' k ']'") : py_scope.
Local Open Scope py_scope.

(** [for x in l: body(x)] *)
Fixpoint for_each {A} (l : list A) (body : A → M unit) : M unit :=
  match l with
  | [] => ret tt
  | x :: l' => body x >> for_each l' body
  end.

(** [[f(x) for x in l]] *)
Fixpoint list_comp {A B} (l : list A) (f : A → M B) : M (list B) :=
  match l with
  | [] => ret []
  | x :: l' => let! y := f x in let! ys := list_comp l' f in ret (y :: ys)
  end.

(** Reading and writing the state of an object.  A reference outside the
    heap cannot arise in Python; the model answers [InvalidReference]. *)
Definition deref {A} (heap : World → gmap ref A) (r : ref) : M A :=
  λ w, match heap w !! r with
       | Some o => (Return o, w)
       | None => (Raise InvalidReference, w)
       end.

Definition get_attribute : ref → M AttributeObj.t := deref attributes.
Definition get_annotation : ref → M AnnotationObj.t := deref annotations.
Definition get_store : ref → M (gmap string ref) := deref stores.
Definition get_document : ref → M DocumentObj.t := deref documents.
Definition get_pipeline : ref → M PipelineObj.t := deref pipelines.
Definition get_doc_pipeline : ref → M DocPipelineObj.t := deref doc_pipelines.

Definition put_attribute (r : ref) (o : AttributeObj.t) : M unit :=
  λ w, (Return tt, set_attributes (<[r := o]> (attributes w)) w).
Definition put_annotation (r : ref) (o : AnnotationObj.t) : M unit :=
  λ w, (Return tt, set_annotations (<[r := o]> (annotations w)) w).
Definition put_store (r : ref) (o : gmap string ref) : M unit :=
  λ w, (Return tt, set_stores (<[r := o]> (stores w)) w).
Definition put_document (r : ref) (o : DocumentObj.t) : M unit :=
  λ w, (Return tt, set_documents (<[r := o]> (documents w)) w).
Definition put_pipeline (r : ref) (o : PipelineObj.t) : M unit :=
  λ w, (Return tt, set_pipelines (<[r := o]> (pipelines w)) w).
Definition put_doc_pipeline (r : ref) (o : DocPipelineObj.t) : M unit :=
  λ w, (Return tt, set_doc_pipelines (<[r := o]> (doc_pipelines w)) w).

(** [self.field = f(self.field)] on an object of the heap. *)
Definition modify_annotation (r : ref) (f : AnnotationObj.t → AnnotationObj.t) : M unit :=
  let! o := get_annotation r in put_annotation r (f o).
Definition modify_document (r : ref) (f : DocumentObj.t → DocumentObj.t) : M unit :=
  let! o := get_document r in put_document r (f o).
Definition modify_pipeline (r : ref) (f : PipelineObj.t → PipelineObj.t) : M unit :=
  let! o := get_pipeline r in put_pipeline r (f o).

(** A reference no object of the heap has yet. *)
Definition new_ref {A} (heap : gmap ref A) : ref := fresh (dom heap).

Module Id.
(** Modelled from the spec: [medkit.core.id] is not under src/.
    [generate_id()] returns an identifier it has not returned before. *)
Definition generate_id : M string :=
  λ w, (Return ("id-" +:+ pretty (generated_ids w)),
        set_generated_ids (S (generated_ids w)) w).
End Id.

(** ** [medkit/core/annotation.py]: [Attribute] *)

Module Attribute.
Import AttributeObj.

Definition alloc (o : t) : M ref :=
  λ w, let r := new_ref (attributes w) in
       (Return r, set_attributes (<[r := o]> (attributes w)) w).

Definition __init__ (label : string) (value : PyValue) (uid : option string)
    (metadata : option (odict PyValue)) : M ref :=
  let! uid := match uid with
              | None => Id.generate_id
              | Some u => ret u
              end in
  let metadata := default [] metadata in
  alloc (mk uid label value metadata).

Definition to_dict (self : ref) : M (odict PyValue) :=
  let! o := get_attribute self in
  ret [("uid", PyStr (uid o)); ("label", PyStr (label o));
       ("value", value o); ("metadata", PyDict (metadata o))].

(** [attribute_dict[key]] *)
Definition subscript (d : odict PyValue) (key : string) : M PyValue :=
  match odict_get key d with
  | Some v => ret v
  | None => raise (KeyError key)
  end.

(** The constructor is declared with [label: str], [uid: Optional[str]]
    and [metadata: Optional[Dict[str, Any]]]; a dictionary entry of another
    type is outside the model and answered with [TypeError]. *)
Definition as_str (v : PyValue) : M string :=
  match v with
  | PyStr s => ret s
  | _ => raise (TypeError "str expected")
  end.
Definition as_optional_str (v : PyValue) : M (option string) :=
  match v with
  | PyNone => ret None
  | PyStr s => ret (Some s)
  | _ => raise (TypeError "Optional[str] expected")
  end.
Definition as_optional_dict (v : PyValue) : M (option (odict PyValue)) :=
  match v with
  | PyNone => ret None
  | PyDict d => ret (Some d)
  | _ => raise (TypeError "Optional[Dict[str, Any]] expected")
  end.

Definition from_dict (attribute_dict : odict PyValue) : M ref :=
  let! uid := subscript attribute_dict "uid" in
  let! label := subscript attribute_dict "label" in
  let! value := subscript attribute_dict "value" in
  let! metadata := subscript attribute_dict "metadata" in
  let! uid := as_optional_str uid in
  let! label := as_str label in
  let! metadata := as_optional_dict metadata in
  __init__ label value uid metadata.
End Attribute.

(** ** [medkit/core/annotation.py]: [Annotation] *)

(** [Annotation] is abstract: every annotation object is an instance of a
    concrete class, and the concrete classes are not under src/.
    [Annotation.__init__] sets [uid] and no [id], and nothing under src/
    defines [id], so an annotation object answers [.id] only when its
    concrete class defines it.  Which objects are instances of such a class
    is a parameter.  Modelled from the spec: the data model gives an
    annotation one identifier, its uid, and that is what a class that
    defines [id] answers. *)
Class AnnotationClasses := {
  defines_id : ref → bool;
}.

Module Annotation.
Import AnnotationObj.

(** [self.id], as [Document.add_annotation] reads it; the message of the
    error, which starts with the name of the class of the object, is kept
    without it. *)
Definition id `{AnnotationClasses} (self : ref) : M string :=
  let! s := get_annotation self in
  if defines_id self then ret (uid s)
  else raise (AttributeError "object has no attribute 'id'").

Definition alloc (o : t) : M ref :=
  λ w, let r := new_ref (annotations w) in
       (Return r, set_annotations (<[r := o]> (annotations w)) w).

Definition add_attr (self attr : ref) : M unit :=
  let! a := get_attribute attr in
  let uid := AttributeObj.uid a in
  let! s := get_annotation self in
  if odict_mem uid (_attrs_by_id s) then
    raise (ValueError ("Attribute with uid " +:+ uid +:+
                       " already attached to annotation"))
  else
    modify_annotation self
      (λ s, set__attrs_by_id (odict_set uid attr (_attrs_by_id s)) s) >>
    let! a := get_attribute attr in
    let label := AttributeObj.label a in
    modify_annotation self
      (λ s, set__attr_ids_by_label
              (index_append label uid (_attr_ids_by_label s)) s).

(** The annotation keeps the very set and dictionary objects it is given.
    The model holds them by value, which is the same as long as no other
    object holds them: what a statement says of the keys of an annotation is
    said of that annotation only. *)
Definition __init__ (label : string) (keys : option (gset string))
    (attrs : option (list ref)) (uid : option string)
    (metadata : option (odict PyValue)) : M ref :=
  let! uid := match uid with
              | None => Id.generate_id
              | Some u => ret u
              end in
  let attrs := default [] attrs in
  let metadata := default [] metadata in
  let! self := alloc (mk uid label (default ∅ keys) metadata [] ∅) in
  for_each attrs (add_attr self) >>
  ret self.

Definition get_attrs (self : ref) : M (list ref) :=
  let! s := get_annotation self in
  ret (odict_values (_attrs_by_id s)).

Definition get_attrs_by_label (self : ref) (label : string) : M (list ref) :=
  let! s := get_annotation self in
  list_comp (default [] (_attr_ids_by_label s !! label))
    (λ uid, let! s := get_annotation self in
            match odict_get uid (_attrs_by_id s) with
            | Some a => ret a
            | None => raise (KeyError uid)
            end).

Definition add_key (self : ref) (key : string) : M unit :=
  modify_annotation self (λ s, set_keys ({[key]} ∪ keys s) s).

Definition keep_keys (self : ref) (keys : gset string) : M unit :=
  modify_annotation self (λ s, set_keys (AnnotationObj.keys s ∩ keys) s).

(** [self.__class__.__name__] is the name of the concrete class of the
    object; the concrete annotation classes are not under src/, so the name
    of the class of each object is a parameter. *)
Definition to_dict `{SetOrder} (class_name : ref → string) (self : ref)
  : M (odict PyValue) :=
  let! s := get_annotation self in
  let! attrs := list_comp (odict_values (_attrs_by_id s)) Attribute.to_dict in
  let! s := get_annotation self in
  ret [("uid", PyStr (uid s));
       ("keys", PyList (PyStr <$> set_iter (keys s)));
       ("label", PyStr (label s));
       ("attrs", PyList (PyDict <$> attrs));
       ("metadata", PyDict (metadata s));
       ("class_name", PyStr (class_name self))].
End Annotation.

(** ** The store *)

Module Store.
(** Modelled from the spec: [medkit.core.store] ([Store], [DictStore]) is
    not under src/.  A store maps a uid to the item stored under it.
    [store_data_item(item)] inserts the item under its own uid and fails
    when the uid is already bound to a different object; inserting the same
    object again changes nothing.  [get_data_item(uid)] is a lookup whose
    absent answer is [None].  The spec's store holds attributes as well;
    the items kept here are the annotations, which is what the code under
    src/ hands to a store. *)
Definition DictStore : M ref :=
  λ w, let r := new_ref (stores w) in
       (Return r, set_stores (<[r := ∅]> (stores w)) w).

Definition store_data_item (self item : ref) : M unit :=
  let! o := get_annotation item in
  let uid := AnnotationObj.uid o in
  let! s := get_store self in
  match s !! uid with
  | Some r => if decide (r = item) then ret tt else raise (DuplicateKey uid)
  | None => put_store self (<[uid := item]> s)
  end.

Definition get_data_item (self : ref) (uid : string) : M (option ref) :=
  let! s := get_store self in
  ret (s !! uid).
End Store.

(** ** [medkit/core/document.py] *)

Module Document.
Import DocumentObj.

Definition alloc (o : t) : M ref :=
  λ w, let r := new_ref (documents w) in
       (Return r, set_documents (<[r := o]> (documents w)) w).

Definition __init__ (doc_id : option string)
    (metadata : option (odict PyValue)) (store : option ref) : M ref :=
  let! doc_id := match doc_id with
                 | None => Id.generate_id
                 | Some i => ret i
                 end in
  let metadata := default [] metadata in
  let! store_shared := match store with
                       | None => let! s := Store.DictStore in ret (s, false)
                       | Some s => ret (s, true)
                       end in
  alloc (mk doc_id store_shared.1 store_shared.2 ∅ ∅ ∅ metadata).

Definition add_annotation `{SetOrder} `{AnnotationClasses}
    (self annotation : ref) : M unit :=
  let! id := Annotation.id annotation in
  let! d := get_document self in
  if decide (id ∈ annotation_ids d) then
    raise (ValueError ("Impossible to add this annotation.The id " +:+ id +:+
                       " already exists in the document"))
  else
    modify_document self
      (λ d, set_annotation_ids ({[id]} ∪ annotation_ids d) d) >>
    let! d := get_document self in
    Store.store_data_item (store d) annotation >>
    let! a := get_annotation annotation in
    let label := AnnotationObj.label a in
    modify_document self
      (λ d, set_annotation_ids_by_label
              (index_append label id (annotation_ids_by_label d)) d) >>
    let! a := get_annotation annotation in
    for_each (set_iter (AnnotationObj.keys a))
      (λ key, modify_document self
                (λ d, set_annotation_ids_by_key
                        (index_append key id (annotation_ids_by_key d)) d)).

Definition get_annotation_by_id (self : ref) (annotation_id : string)
  : M (option ref) :=
  let! d := get_document self in
  if decide (annotation_id ∉ annotation_ids d) then ret None
  else Store.get_data_item (store d) annotation_id.

(** [[self.store.get_data_item(id) for id in ids]] *)
Definition stored_items (self : ref) (ids : list string) : M (list (option ref)) :=
  list_comp ids
    (λ id, let! d := get_document self in Store.get_data_item (store d) id).

Definition get_annotations `{SetOrder} (self : ref) : M (list (option ref)) :=
  let! d := get_document self in
  stored_items self (set_iter (annotation_ids d)).

Definition get_annotations_by_key (self : ref) (key : string)
  : M (list (option ref)) :=
  let! d := get_document self in
  stored_items self (default [] (annotation_ids_by_key d !! key)).

Definition get_annotations_by_label (self : ref) (label : string)
  : M (list (option ref)) :=
  let! d := get_document self in
  stored_items self (default [] (annotation_ids_by_label d !! label)).

(** [cast(AnnotationType, self.store.get_data_item(id)).to_dict()]: the cast
    does nothing, and [None] has no [to_dict]. *)
Definition item_to_dict `{SetOrder} (class_name : ref → string) (self : ref)
    (id : string) : M (odict PyValue) :=
  let! d := get_document self in
  let! item := Store.get_data_item (store d) id in
  match item with
  | Some annotation => Annotation.to_dict class_name annotation
  | None => raise (AttributeError "'NoneType' object has no attribute 'to_dict'")
  end.

Definition to_dict `{SetOrder} (class_name : ref → string) (self : ref)
  : M (odict PyValue) :=
  let! d := get_document self in
  let! annotations :=
    list_comp (set_iter (annotation_ids d)) (item_to_dict class_name self) in
  let! d := get_document self in
  ret [("id", PyStr (id d));
       ("annotations", PyList (PyDict <$> annotations));
       ("metadata", PyDict (metadata d))].
End Document.

Module Collection.
Import CollectionObj.

Definition __init__ (documents : list ref) : t := mk documents.

Definition to_dict `{SetOrder} (class_name : ref → string) (self : t)
  : M (odict PyValue) :=
  let! documents := list_comp (documents self) (Document.to_dict class_name) in
  ret [("documents", PyList (PyDict <$> documents))].
End Collection.

(** ** The pipeline run by a document pipeline *)

Module Pipeline.
Import PipelineObj.

(** Modelled from the spec: [medkit.core.pipeline] is not under src/.
    A pipeline is constructed from a step list and key declarations,
    [set_doc] binds the active document, and [process] is invoked with one
    positional argument per declared input key. *)
Definition __init__ (steps : list PipelineStep.t)
    (input_keys output_keys : list string) : M ref :=
  λ w, let r := new_ref (pipelines w) in
       (Return r,
        set_pipelines (<[r := mk steps input_keys output_keys None []]> (pipelines w)) w).

Definition set_doc (self doc : ref) : M unit :=
  modify_pipeline self
    (λ p, mk (steps p) (input_keys p) (output_keys p) (Some doc) (invocations p)).

Definition process (self : ref) (args : list (list (option ref))) : M unit :=
  modify_pipeline self
    (λ p, mk (steps p) (input_keys p) (output_keys p) (doc p)
             (invocations p ++ [(doc p, args)])).
End Pipeline.

(** ** [medkit/core/doc_pipeline.py] *)

Module DocPipeline.
Import DocPipelineObj.

Definition alloc (o : t) : M ref :=
  λ w, let r := new_ref (doc_pipelines w) in
       (Return r, set_doc_pipelines (<[r := o]> (doc_pipelines w)) w).

Definition __init__ (steps : list PipelineStep.t)
    (labels_by_input_key : odict (list string)) : M ref :=
  let input_keys := odict_keys labels_by_input_key in
  let pipeline_steps :=
    (λ s, PipelineStep.mk (PipelineStep.operation s) (PipelineStep.input_keys s)
                          (PipelineStep.output_keys s)) <$> steps in
  let! p := Pipeline.__init__ pipeline_steps input_keys [] in
  alloc (mk p labels_by_input_key).

(** A loop that updates a local variable. *)
Fixpoint for_fold {A S} (l : list A) (body : A → S → M S) (s : S) : M S :=
  match l with
  | [] => ret s
  | x :: l' => let! s' := body x s in for_fold l' body s'
  end.

(** The body of the inner loop of [run_on_doc]. *)
Definition collect_label (doc : ref) (input_key label : string)
    (all_input_anns : odict (list (option ref))) : M (odict (list (option ref))) :=
  if negb (odict_mem input_key all_input_anns) then
    let! anns := Document.get_annotations_by_label doc label in
    ret (odict_set input_key anns all_input_anns)
  else
    match odict_get input_key all_input_anns with
    | None => raise (KeyError input_key)
    | Some old =>
        let! anns := Document.get_annotations_by_label doc label in
        ret (odict_set input_key (old ++ anns) all_input_anns)
    end.

Definition run_on_doc (self doc : ref) : M unit :=
  let! s := get_doc_pipeline self in
  let! all_input_anns :=
    for_fold (labels_by_input_key s)
      (λ item acc, for_fold item.2 (collect_label doc item.1) acc) [] in
  let! s := get_doc_pipeline self in
  Pipeline.set_doc (_pipeline s) doc >>
  let! s := get_doc_pipeline self in
  Pipeline.process (_pipeline s) (odict_values all_input_anns).

(** The attributes a [DocPipeline] instance answers to: its two fields
    and the methods of the class. *)
Inductive attr : Type :=
| Field__pipeline
| Field_labels_by_input_key
| Method___init__
| Method_run_on_doc
| Method_run_on_collection.

Definition getattr (name : string) : option attr :=
  if decide (name = "_pipeline") then Some Field__pipeline
  else if decide (name = "labels_by_input_key") then Some Field_labels_by_input_key
  else if decide (name = "__init__") then Some Method___init__
  else if decide (name = "run_on_doc") then Some Method_run_on_doc
  else if decide (name = "run_on_collection") then Some Method_run_on_collection
  else None.

(** [self.<name>(doc)] from inside [run_on_collection]: a name the
    instance does not have raises [AttributeError]; of the names it has,
    only [run_on_doc] takes a document. *)
Definition call_with_doc (name : string) (self doc : ref) : M unit :=
  match getattr name with
  | None =>
      raise (AttributeError ("'DocPipeline' object has no attribute '" +:+
                             name +:+ "'"))
  | Some Method_run_on_doc => run_on_doc self doc
  | Some _ => raise (TypeError ("'" +:+ name +:+ "' cannot be applied to a document"))
  end.

Definition run_on_collection (self : ref) (collection : CollectionObj.t) : M unit :=
  for_each (CollectionObj.documents collection)
    (λ doc, call_with_doc "run_on_document" self doc).
End DocPipeline.

(** A set order to compute with: the order of [elements]. *)
Definition elements_order : SetOrder :=
  {| set_iter := elements; set_iter_perm := λ s, reflexivity (elements s) |}.

(** The classes under src/ alone: no annotation object answers [.id]. *)
Definition src_classes : AnnotationClasses :=
  {| defines_id := λ _, false |}.

(** Annotation objects that are all instances of a class defining [id]. *)
Definition id_classes : AnnotationClasses :=
  {| defines_id := λ _, true |}.

(** ** Vocabulary of the statements *)

(** The error of [add_attr] for an attribute identifier already attached. *)
Definition duplicate_attribute (uid : string) : Exception :=
  ValueError ("Attribute with uid " +:+ uid +:+ " already attached to annotation").

(** The state of an annotation once [add_attr] has attached [attr]. *)
Definition attach (attr : ref) (a : AttributeObj.t) (s : AnnotationObj.t)
  : AnnotationObj.t :=
  AnnotationObj.set__attr_ids_by_label
    (index_append (AttributeObj.label a) (AttributeObj.uid a)
                  (AnnotationObj._attr_ids_by_label s))
    (AnnotationObj.set__attrs_by_id
       (odict_set (AttributeObj.uid a) attr (AnnotationObj._attrs_by_id s)) s).

(** The identifier of the attribute a reference points to. *)
Definition attr_uid (w : World) (attr : ref) : option string :=
  AttributeObj.uid <$> attributes w !! attr.

(** The state of an annotation once [add_attr] has attached the attributes
    of [l], first to last. *)
Definition attach_all (l : list (ref * AttributeObj.t)) (s : AnnotationObj.t)
  : AnnotationObj.t :=
  foldl (λ s xa, attach xa.1 xa.2 s) s l.

(** The error of [annotation.id] for an object whose class defines no
    [id]. *)
Definition missing_id : Exception :=
  AttributeError "object has no attribute 'id'".

(** The error of [add_annotation] for an identifier the document tracks. *)
Definition duplicate_annotation (id : string) : Exception :=
  ValueError ("Impossible to add this annotation.The id " +:+ id +:+
              " already exists in the document").

(** The key index once [id] has been appended to the bucket of every key of
    [keys], in the order the loop visits them. *)
Definition index_append_all (keys : list string) (id : string)
    (m : gmap string (list string)) : gmap string (list string) :=
  foldl (λ m key, index_append key id m) m keys.

(** The state of a document once [add_annotation] has recorded an
    annotation in state [a]. *)
Definition record_annotation `{SetOrder} (a : AnnotationObj.t) (d : DocumentObj.t)
  : DocumentObj.t :=
  let id := AnnotationObj.uid a in
  DocumentObj.set_annotation_ids_by_key
    (index_append_all (set_iter (AnnotationObj.keys a)) id
                      (DocumentObj.annotation_ids_by_key d))
    (DocumentObj.set_annotation_ids_by_label
       (index_append (AnnotationObj.label a) id (DocumentObj.annotation_ids_by_label d))
       (DocumentObj.set_annotation_ids ({[id]} ∪ DocumentObj.annotation_ids d) d)).

(** What the store of document [self] holds under the identifiers [ids];
    an absent item is [None], as [get_data_item] answers. *)
Definition items_of (w : World) (self : ref) (ids : list string) : list (option ref) :=
  match documents w !! self with
  | Some d =>
      match stores w !! DocumentObj.store d with
      | Some st => (λ id, st !! id) <$> ids
      | None => []
      end
  | None => []
  end.

(** The label bucket and the key bucket of a document. *)
Definition label_bucket (w : World) (self : ref) (label : string) : list string :=
  match documents w !! self with
  | Some d => default [] (DocumentObj.annotation_ids_by_label d !! label)
  | None => []
  end.
Definition key_bucket (w : World) (self : ref) (key : string) : list string :=
  match documents w !! self with
  | Some d => default [] (DocumentObj.annotation_ids_by_key d !! key)
  | None => []
  end.

(** ** Histories *)

(** The calls a client can make on the objects of the heap.  A constructor
    returns a reference; the client may use any reference of the heap in a
    later call. *)
Inductive Call : Type :=
| NewAttribute (label : string) (value : PyValue) (uid : option string)
    (metadata : option (odict PyValue))
| NewAnnotation (label : string) (keys : option (gset string))
    (attrs : option (list ref)) (uid : option string)
    (metadata : option (odict PyValue))
| NewDictStore
| NewDocument (doc_id : option string) (metadata : option (odict PyValue))
    (store : option ref)
| AddAttr (self attr : ref)
| AddKey (self : ref) (key : string)
| KeepKeys (self : ref) (keys : gset string)
| StoreDataItem (self item : ref)
| AddAnnotation (self annotation : ref)
| NewDocPipeline (steps : list PipelineStep.t)
    (labels_by_input_key : odict (list string))
| RunOnDoc (self doc : ref)
| RunOnCollection (self : ref) (collection : CollectionObj.t).

(** A store handed to [Document(...)] is an object that exists. *)
Definition existing_store (store : option ref) : M unit :=
  match store with
  | Some s => get_store s >> ret tt
  | None => ret tt
  end.

Definition exec `{SetOrder} `{AnnotationClasses} (c : Call) : M unit :=
  match c with
  | NewAttribute label value uid metadata =>
      Attribute.__init__ label value uid metadata >> ret tt
  | NewAnnotation label keys attrs uid metadata =>
      Annotation.__init__ label keys attrs uid metadata >> ret tt
  | NewDictStore => Store.DictStore >> ret tt
  | NewDocument doc_id metadata store =>
      existing_store store >> Document.__init__ doc_id metadata store >> ret tt
  | AddAttr self attr => Annotation.add_attr self attr
  | AddKey self key => Annotation.add_key self key
  | KeepKeys self keys => Annotation.keep_keys self keys
  | StoreDataItem self item => Store.store_data_item self item
  | AddAnnotation self annotation => Document.add_annotation self annotation
  | NewDocPipeline steps labels_by_input_key =>
      DocPipeline.__init__ steps labels_by_input_key >> ret tt
  | RunOnDoc self doc => DocPipeline.run_on_doc self doc
  | RunOnCollection self collection => DocPipeline.run_on_collection self collection
  end.

(** The heap after a sequence of calls; a call that raises leaves the heap
    it reached, and the client goes on. *)
Fixpoint run `{SetOrder} `{AnnotationClasses} (cs : list Call) (w : World) : World :=
  match cs with
  | [] => w
  | c :: cs' => run cs' (exec c w).2
  end.

Definition reachable `{SetOrder} `{AnnotationClasses} (w : World) : Prop :=
  ∃ cs, w = run cs empty_world.

(** Whether a call is [doc.add_annotation(...)] on document [self] ending
    with the given kind of outcome, and the annotation it was given. *)
Definition added_by `{SetOrder} `{AnnotationClasses} (self : ref) (c : Call) (w : World)
  : list (ref * AnnotationObj.t) :=
  match c with
  | AddAnnotation self' annotation =>
      match (exec c w).1, annotations w !! annotation with
      | Return _, Some a => if decide (self' = self) then [(annotation, a)] else []
      | _, _ => []
      end
  | _ => []
  end.

Definition refused_by `{SetOrder} `{AnnotationClasses} (self : ref) (c : Call)
    (w : World) : list string :=
  match c with
  | AddAnnotation self' annotation =>
      match (exec c w).1 with
      | Raise (DuplicateKey uid) => if decide (self' = self) then [uid] else []
      | _ => []
      end
  | _ => []
  end.

(** The annotations [add_annotation] added to document [self] during the
    calls [cs], oldest first, each with the state it had when added. *)
Fixpoint added `{SetOrder} `{AnnotationClasses} (self : ref) (cs : list Call) (w : World)
  : list (ref * AnnotationObj.t) :=
  match cs with
  | [] => []
  | c :: cs' => added_by self c w ++ added self cs' (exec c w).2
  end.

(** The identifiers of the annotations the store refused when
    [add_annotation] was adding them to document [self] during [cs]. *)
Fixpoint refused `{SetOrder} `{AnnotationClasses} (self : ref) (cs : list Call)
    (w : World) : list string :=
  match cs with
  | [] => []
  | c :: cs' => refused_by self c w ++ refused self cs' (exec c w).2
  end.

(** ** Well-formed heaps *)

(** Every item of a store is an annotation of the heap, stored under its own
    identifier. *)
Definition stores_wf (w : World) : Prop :=
  ∀ s st u r, stores w !! s = Some st → st !! u = Some r →
    ∃ a, annotations w !! r = Some a ∧ AnnotationObj.uid a = u.

(** The buckets of an index hold identifiers the document tracks, each at
    most once. *)
Definition index_wf (ids : gset string) (m : gmap string (list string)) : Prop :=
  ∀ k l, m !! k = Some l → NoDup l ∧ ∀ u, u ∈ l → u ∈ ids.

(** A document has a store, which holds an item under every identifier the
    document tracks. *)
Definition document_wf (w : World) (d : DocumentObj.t) : Prop :=
  ∃ st, stores w !! DocumentObj.store d = Some st ∧
    (∀ u, u ∈ DocumentObj.annotation_ids d → is_Some (st !! u)) ∧
    index_wf (DocumentObj.annotation_ids d) (DocumentObj.annotation_ids_by_label d) ∧
    index_wf (DocumentObj.annotation_ids d) (DocumentObj.annotation_ids_by_key d).

Definition world_wf (w : World) : Prop :=
  stores_wf w ∧ ∀ self d, documents w !! self = Some d → document_wf w d.

(** Calls that leave the documents and the stores alone, and the identity
    and label of every annotation. *)
Definition doc_frame (w w' : World) : Prop :=
  stores w' = stores w ∧ documents w' = documents w ∧
  ∀ r a, annotations w !! r = Some a →
    ∃ a', annotations w' !! r = Some a' ∧
          AnnotationObj.uid a' = AnnotationObj.uid a ∧
          AnnotationObj.label a' = AnnotationObj.label a.

(** A computation all of whose runs relate the heap it starts from to the
    heap it leaves, whichever its outcome. *)
Definition preserves {A} (R : relation World) (m : M A) : Prop :=
  ∀ w, R w (m w).2.

(** Stores only grow: an item stays under its identifier. *)
Definition stores_grow (w w' : World) : Prop :=
  ∀ s st, stores w !! s = Some st →
    ∃ st', stores w' !! s = Some st' ∧ st ⊆ st'.

(** The state of document [self] is left as it is. *)
Definition keeps_document (self : ref) (w w' : World) : Prop :=
  ∀ d, documents w !! self = Some d → documents w' !! self = Some d.

(** Going from [w] to [w'] changes nothing but keys of annotations: the
    documents, stores, attributes and pipelines are as they were, no
    annotation object appears or disappears, and every annotation has its
    uid, label, metadata and attributes as before. *)
Definition only_keys_change (w w' : World) : Prop :=
  documents w' = documents w ∧ stores w' = stores w ∧
  attributes w' = attributes w ∧
  pipelines w' = pipelines w ∧ doc_pipelines w' = doc_pipelines w ∧
  ∀ r, match annotations w !! r, annotations w' !! r with
       | Some b, Some b' =>
           AnnotationObj.uid b' = AnnotationObj.uid b ∧
           AnnotationObj.label b' = AnnotationObj.label b ∧
           AnnotationObj.metadata b' = AnnotationObj.metadata b ∧
           AnnotationObj._attrs_by_id b' = AnnotationObj._attrs_by_id b ∧
           AnnotationObj._attr_ids_by_label b' = AnnotationObj._attr_ids_by_label b
       | None, None => True
       | _, _ => False
       end.

(** How the state [d'] of a document and the content [st'] of its store
    relate to an earlier state [d] and content [st], when [adds] are the
    annotations added in between and [refd] the identifiers of those the
    store refused. *)
Definition extends_by (adds : list (ref * AnnotationObj.t)) (refd : list string)
    (d : DocumentObj.t) (st : gmap string ref)
    (d' : DocumentObj.t) (st' : gmap string ref) : Prop :=
  DocumentObj.store d' = DocumentObj.store d ∧
  st ⊆ st' ∧
  DocumentObj.annotation_ids d'
  = DocumentObj.annotation_ids d
    ∪ list_to_set (AnnotationObj.uid ∘ snd <$> adds) ∪ list_to_set refd ∧
  (∀ label,
     default [] (DocumentObj.annotation_ids_by_label d' !! label)
     = default [] (DocumentObj.annotation_ids_by_label d !! label)
       ++ (AnnotationObj.uid ∘ snd
             <$> filter (λ xa, AnnotationObj.label xa.2 = label) adds)) ∧
  (∀ key,
     default [] (DocumentObj.annotation_ids_by_key d' !! key)
     = default [] (DocumentObj.annotation_ids_by_key d !! key)
       ++ (AnnotationObj.uid ∘ snd
             <$> filter (λ xa, key ∈ AnnotationObj.keys xa.2) adds)) ∧
  (∀ xa, xa ∈ adds → st' !! AnnotationObj.uid xa.2 = Some xa.1) ∧
  NoDup (AnnotationObj.uid ∘ snd <$> adds) ∧
  (∀ xa, xa ∈ adds → AnnotationObj.uid xa.2 ∉ DocumentObj.annotation_ids d).

(** What [doc.get_annotations_by_label(label)] returns. *)
Definition labelled (w : World) (doc : ref) (label : string) : list (option ref) :=
  items_of w doc (label_bucket w doc label).

(** The annotations of a document for the labels of [labels], one label
    after the other. *)
Definition gathered (w : World) (doc : ref) (labels : list string)
  : list (option ref) :=
  concat (labelled w doc <$> labels).

(** One round of the inner loop of [run_on_doc], as a function. *)
Definition collect_step (input_key : string) (acc : odict (list (option ref)))
    (anns : list (option ref)) : odict (list (option ref)) :=
  odict_set input_key
    (match odict_get input_key acc with
     | Some old => old ++ anns
     | None => anns
     end) acc.

(** The positional arguments [run_on_doc] hands to [process]: one list per
    input key whose label list is not empty. *)
Definition process_arguments (w : World) (doc : ref)
    (labels_by_input_key : odict (list string)) : list (list (option ref)) :=
  gathered w doc <$> (filter (λ labels, labels ≠ []) labels_by_input_key.*2).

(** ** Example heaps *)

(** Unless said otherwise, the annotation objects of the examples are
    instances of a class that defines [id], and sets are iterated over in
    the order of [elements_order]. *)

Module Examples.
#[local] Existing Instance elements_order.
#[local] Existing Instance id_classes.

(** An annotation with one attribute, and a second attribute object with
    the same uid as the first. *)
Definition attr_calls : list Call :=
  [NewAttribute "is_negated" (PyBool true) (Some "t1") None;
   NewAttribute "is_negated" (PyBool false) (Some "t1") None;
   NewAttribute "is_family" (PyBool true) (Some "t2") (Some [("source", PyStr "rule")]);
   NewAnnotation "disease" (Some {["entities"]}) None (Some "a1") None].
Definition attr_world : World := run attr_calls empty_world.

(** Two documents on one shared store, and two annotation objects with
    the same uid; the first document has the first annotation. *)
Definition shared_calls : list Call :=
  [NewDictStore;
   NewDocument (Some "doc1") None (Some 1%positive);
   NewDocument (Some "doc2") None (Some 1%positive);
   NewAnnotation "disease" (Some {["entities"]}) None (Some "u") None;
   NewAnnotation "disease" None None (Some "u") None;
   NewAnnotation "sentence" (Some {["sentences"; "entities"]}) None (Some "v") None;
   AddAnnotation 1 1].
Definition shared_world : World := run shared_calls empty_world.

(** Two annotations with uids "a" and "c", then a document with a store of
    its own, to which they are added in that order. *)
Definition order_prefix : list Call :=
  [NewAnnotation "sentence" (Some {["sentences"]}) None (Some "a") None;
   NewAnnotation "sentence" (Some {["sentences"]}) None (Some "c") None].
Definition order_calls : list Call := [AddAnnotation 1 1; AddAnnotation 1 2].
Definition order_start : World :=
  (Document.__init__ (Some "doc") None None (run order_prefix empty_world)).2.

(** A document with one "sentence" annotation and a document pipeline
    whose first input key has no label. *)
Definition pipeline_world : World :=
  (DocPipeline.__init__ [] [("a", []); ("b", ["sentence"])]
     (run [AddAnnotation 1 1] order_start)).2.
End Examples.

(** ** Further vocabulary *)

(** The label of the attribute a reference points to. *)
Definition attr_label (w : World) (attr : ref) : option string :=
  AttributeObj.label <$> attributes w !! attr.

(** The two indices of an annotation agree: every attached reference is an
    attribute of the heap, filed under its own uid, and the bucket of a label
    lists the uids of the attached attributes with that label, oldest
    first. *)
Definition annotation_wf (w : World) (s : AnnotationObj.t) : Prop :=
  NoDup (odict_keys (AnnotationObj._attrs_by_id s)) ∧
  (∀ ur, ur ∈ AnnotationObj._attrs_by_id s → attr_uid w ur.2 = Some ur.1) ∧
  (∀ label,
     default [] (AnnotationObj._attr_ids_by_label s !! label)
     = (filter (λ ur, attr_label w ur.2 = Some label)
          (AnnotationObj._attrs_by_id s)).*1).

Definition annotations_wf (w : World) : Prop :=
  ∀ r s, annotations w !! r = Some s → annotation_wf w s.

(** Calls that leave every annotation and every attribute as it is. *)
Definition entities_same (w w' : World) : Prop :=
  annotations w' = annotations w ∧ attributes w' = attributes w.

(** Attribute objects stay as they are; there may be more of them. *)
Definition attributes_kept (w w' : World) : Prop :=
  ∀ r a, attributes w !! r = Some a → attributes w' !! r = Some a.

(** Annotation objects stay, with their uid and label. *)
Definition annotations_kept (w w' : World) : Prop :=
  ∀ r a, annotations w !! r = Some a →
    ∃ a', annotations w' !! r = Some a' ∧
          AnnotationObj.uid a' = AnnotationObj.uid a ∧
          AnnotationObj.label a' = AnnotationObj.label a.

(** The calls that are not calls on an annotation or an attribute. *)
Definition other_call (c : Call) : Prop :=
  match c with
  | NewAttribute _ _ _ _ | NewAnnotation _ _ _ _ _
  | AddAttr _ _ | AddKey _ _ | KeepKeys _ _ => False
  | _ => True
  end.

(** Going from one heap to the next keeps the agreement of the indices of
    every annotation. *)
Definition keeps_annotations_wf (w w' : World) : Prop :=
  annotations_wf w → annotations_wf w'.


(** Calls that leave the table of documents as it is. *)
Definition documents_same (w w' : World) : Prop :=
  documents w' = documents w.

(** Every uid filed in a label bucket of a document is held by the store of
    the document, and the annotation held under it carries that label. *)
Definition labels_wf (w : World) : Prop :=
  ∀ self d st label u,
    documents w !! self = Some d →
    stores w !! DocumentObj.store d = Some st →
    u ∈ default [] (DocumentObj.annotation_ids_by_label d !! label) →
    ∃ r a, st !! u = Some r ∧ annotations w !! r = Some a ∧
           AnnotationObj.label a = label.

(** A document that tracks no annotation: its membership set and its two
    indices are empty. *)
Definition tracks_nothing (d : DocumentObj.t) : Prop :=
  DocumentObj.annotation_ids d = ∅ ∧
  DocumentObj.annotation_ids_by_label d = ∅ ∧
  DocumentObj.annotation_ids_by_key d = ∅.

(** ** Further example heaps *)

Module MoreExamples.
Import Examples.
#[local] Existing Instance elements_order.
#[local] Existing Instance id_classes.

(** The annotation of [attr_world] once its first and third attribute have
    been attached. *)
Definition attached_calls : list Call :=
  attr_calls ++ [AddAttr 1 1; AddAttr 1 3].
Definition attached_world : World := run attached_calls empty_world.

(** The calls of [shared_calls] when the annotations are instances of a
    class that defines no [id], as with the classes under src/ alone. *)
Definition src_world : World :=
  @run elements_order src_classes shared_calls empty_world.

(** The calls of [order_world], followed by a change of the keys of the
    first annotation. *)
Definition later_calls : list Call :=
  order_calls ++ [KeepKeys 1 ∅; AddKey 2 "entities"].

(** A serialized attribute whose entries are not in the order of
    [to_dict()], with an entry [to_dict()] does not produce. *)
Definition shuffled_dict : odict PyValue :=
  [("metadata", PyDict [("source", PyStr "rule")]);
   ("value", PyBool true);
   ("origin", PyNone);
   ("label", PyStr "is_negated");
   ("uid", PyStr "t1")].
End MoreExamples.
(** * Properties *)

(** ** Ordered dictionaries and indices *)

Section odict_facts.
Context {V : Type}.
Implicit Types (d : odict V) (k : string) (v : V).

Lemma odict_mem_true k d : odict_mem k d = true ↔ k ∈ odict_keys d.
Proof.
  unfold odict_mem, odict_keys. rewrite bool_decide_eq_true.
  induction d as [|[k' v'] d IH]; simpl.
  - split; [by intros [? ?] | by intros ?%elem_of_nil].
  - rewrite elem_of_cons. case_decide; subst.
    + split; [by left | by eauto].
    + rewrite IH. split; [by right|]. by intros [?|?].
Qed.

Lemma odict_mem_false k d : odict_mem k d = false ↔ k ∉ odict_keys d.
Proof. rewrite <-odict_mem_true. by destruct (odict_mem k d). Qed.

Lemma odict_set_new k v d :
  k ∉ odict_keys d → odict_set k v d = d ++ [(k, v)].
Proof.
  unfold odict_keys. induction d as [|[k' v'] d IH]; simpl; [done|].
  rewrite not_elem_of_cons. intros [? ?]. case_decide; [done|].
  by rewrite IH.
Qed.

Lemma odict_get_None k d : k ∉ odict_keys d → odict_get k d = None.
Proof.
  intros Hk%odict_mem_false. unfold odict_mem in Hk.
  apply bool_decide_eq_false in Hk.
  destruct (odict_get k d) eqn:E; [|done]. destruct Hk; eauto.
Qed.

Lemma odict_get_app_r k v d :
  k ∉ odict_keys d → odict_get k (d ++ [(k, v)]) = Some v.
Proof.
  unfold odict_keys. induction d as [|[k' v'] d IH]; simpl.
  - intros _. by rewrite decide_True.
  - rewrite not_elem_of_cons. intros [? ?]. rewrite decide_False; auto.
Qed.

Lemma odict_get_app_l k d d' :
  k ∈ odict_keys d → odict_get k (d ++ d') = odict_get k d.
Proof.
  unfold odict_keys. induction d as [|[k' v'] d IH]; simpl.
  - by intros ?%elem_of_nil.
  - rewrite elem_of_cons. case_decide; [done|].
    intros [?|?]; [done|]. by apply IH.
Qed.

Lemma odict_set_old k v d :
  k ∈ odict_keys d → odict_keys (odict_set k v d) = odict_keys d.
Proof.
  unfold odict_keys. induction d as [|[k' v'] d IH]; simpl.
  - by intros ?%elem_of_nil.
  - rewrite elem_of_cons. case_decide; subst; simpl; [done|].
    intros [?|?]; [done|]. f_equal. by apply IH.
Qed.
End odict_facts.

Lemma index_append_lookup_eq key x (d : gmap string (list string)) :
  index_append key x d !! key = Some (default [] (d !! key) ++ [x]).
Proof.
  unfold index_append. rewrite lookup_alter_eq.
  case_decide as Hk.
  - apply elem_of_dom in Hk as [l Hl]. by rewrite Hl.
  - apply not_elem_of_dom in Hk. by rewrite lookup_insert_eq, Hk.
Qed.

Lemma index_append_lookup_ne key key' x (d : gmap string (list string)) :
  key ≠ key' → index_append key x d !! key' = d !! key'.
Proof.
  intros Hne. unfold index_append. rewrite lookup_alter_ne by done.
  case_decide; [done|]. by rewrite lookup_insert_ne.
Qed.

Lemma index_append_lookup key key' x (d : gmap string (list string)) :
  default [] (index_append key x d !! key') =
  default [] (d !! key') ++ (if decide (key = key') then [x] else []).
Proof.
  case_decide as Hk.
  - subst. by rewrite index_append_lookup_eq.
  - rewrite index_append_lookup_ne by done. by rewrite app_nil_r.
Qed.

(** ** Running computations *)

Lemma deref_Some {A} (heap : World → gmap ref A) r o w :
  heap w !! r = Some o → deref heap r w = (Return o, w).
Proof. unfold deref. by intros ->. Qed.

Lemma deref_None {A} (heap : World → gmap ref A) r w :
  heap w !! r = None → deref heap r w = (Raise InvalidReference, w).
Proof. unfold deref. by intros ->. Qed.

Lemma bind_Return {A B} (m : M A) (k : A → M B) w a w' :
  m w = (Return a, w') → bind m k w = k a w'.
Proof. unfold bind. by intros ->. Qed.

Lemma bind_Raise {A B} (m : M A) (k : A → M B) w e w' :
  m w = (Raise e, w') → bind m k w = (Raise e, w').
Proof. unfold bind. by intros ->. Qed.

(** ** [Annotation.add_attr] *)

Lemma add_attr_run w self attr s a :
  annotations w !! self = Some s →
  attributes w !! attr = Some a →
  Annotation.add_attr self attr w =
    if odict_mem (AttributeObj.uid a) (AnnotationObj._attrs_by_id s)
    then (Raise (duplicate_attribute (AttributeObj.uid a)), w)
    else (Return tt, set_annotations (<[self := attach attr a s]> (annotations w)) w).
Proof.
  intros Hs Ha. unfold Annotation.add_attr.
  rewrite (bind_Return _ _ _ _ _ (deref_Some attributes _ _ _ Ha)).
  rewrite (bind_Return _ _ _ _ _ (deref_Some annotations _ _ _ Hs)).
  destruct (odict_mem _ _); [done|].
  unfold bind, modify_annotation, bind, get_annotation, get_attribute, deref,
    put_annotation.
  simpl. rewrite Hs. simpl. rewrite Ha. simpl. rewrite lookup_insert_eq. simpl.
  by rewrite insert_insert_eq.
Qed.

Lemma add_attr_attributes w self attr :
  attributes (Annotation.add_attr self attr w).2 = attributes w.
Proof.
  destruct (attributes w !! attr) as [a|] eqn:Ha.
  - destruct (annotations w !! self) as [s|] eqn:Hs.
    + rewrite (add_attr_run _ _ _ _ _ Hs Ha). by destruct (odict_mem _ _).
    + unfold Annotation.add_attr.
      rewrite (bind_Return _ _ _ _ _ (deref_Some attributes _ _ _ Ha)).
      by rewrite (bind_Raise _ _ _ _ _ (deref_None annotations _ _ Hs)).
  - unfold Annotation.add_attr.
    by rewrite (bind_Raise _ _ _ _ _ (deref_None attributes _ _ Ha)).
Qed.

(** C4.  Attaching an attribute whose uid is already attached to the
    annotation fails; in particular, after a successful [add_attr], a second
    [add_attr] with the same uid fails.  A failed call leaves the whole heap,
    hence the annotation and the list returned by [get_attrs], as it was, and
    no call of [add_attr], failed or not, changes any attribute object. *)
Theorem add_attr_duplicate_uid w self attr s a :
  annotations w !! self = Some s →
  attributes w !! attr = Some a →
  (AttributeObj.uid a ∈ odict_keys (AnnotationObj._attrs_by_id s) →
     Annotation.add_attr self attr w
     = (Raise (duplicate_attribute (AttributeObj.uid a)), w))
  ∧ (∀ w1, Annotation.add_attr self attr w = (Return tt, w1) →
       ∀ attr' a', attributes w1 !! attr' = Some a' →
         AttributeObj.uid a' = AttributeObj.uid a →
         Annotation.add_attr self attr' w1
         = (Raise (duplicate_attribute (AttributeObj.uid a)), w1))
  ∧ (∀ e w', Annotation.add_attr self attr w = (Raise e, w') →
       w' = w ∧ Annotation.get_attrs self w' = Annotation.get_attrs self w)
  ∧ attributes (Annotation.add_attr self attr w).2 = attributes w.
Proof.
  intros Hs Ha. rewrite (add_attr_run _ _ _ _ _ Hs Ha).
  split_and!.
  - intros Hin%odict_mem_true. by rewrite Hin.
  - destruct (odict_mem _ _) eqn:Hm; [done|]. intros w1 [= <-] attr' a' Ha' Hu.
    apply odict_mem_false in Hm.
    erewrite add_attr_run; [|by apply lookup_insert_eq|exact Ha'].
    rewrite Hu. 
    assert (odict_mem (AttributeObj.uid a)
              (AnnotationObj._attrs_by_id (attach attr a s)) = true) as ->; [|done].
    apply odict_mem_true. simpl. rewrite odict_set_new by done.
    unfold odict_keys. rewrite fmap_app. set_solver.
  - destruct (odict_mem _ _); [|done]. by intros e w' [= _ <-].
  - by destruct (odict_mem _ _).
Qed.

(** ** [Annotation.__init__] *)

Lemma set_annotations_id w s self :
  annotations w !! self = Some s →
  set_annotations (<[self := s]> (annotations w)) w = w.
Proof. intros H. destruct w. unfold set_annotations. simpl in *. by rewrite insert_id. Qed.

Lemma attach_keys attr a s :
  AttributeObj.uid a ∉ odict_keys (AnnotationObj._attrs_by_id s) →
  AnnotationObj._attrs_by_id (attach attr a s)
  = AnnotationObj._attrs_by_id s ++ [(AttributeObj.uid a, attr)].
Proof. intros H. simpl. by rewrite odict_set_new. Qed.

Lemma add_attrs_run (l : list (ref * AttributeObj.t)) w self s :
  annotations w !! self = Some s →
  Forall (λ xa, attributes w !! xa.1 = Some xa.2) l →
  NoDup (odict_keys (AnnotationObj._attrs_by_id s) ++ (AttributeObj.uid ∘ snd <$> l)) →
  for_each (fst <$> l) (Annotation.add_attr self) w
  = (Return tt, set_annotations (<[self := attach_all l s]> (annotations w)) w)
  ∧ AnnotationObj._attrs_by_id (attach_all l s)
    = AnnotationObj._attrs_by_id s ++ ((λ xa, (AttributeObj.uid xa.2, xa.1)) <$> l).
Proof.
  revert w s. induction l as [|[x a] l IH]; intros w s Hs Hl Hnd.
  - simpl. rewrite app_nil_r. split; [|done]. unfold ret. by rewrite set_annotations_id.
  - apply Forall_cons in Hl as [Hx Hl]. simpl in Hx.
    assert (AttributeObj.uid a ∉ odict_keys (AnnotationObj._attrs_by_id s)) as Hnew.
    { apply NoDup_app in Hnd as (_ & Hd & _). intros Hin. apply (Hd _ Hin). simpl. left. }
    cbn [fmap list_fmap for_each fst].
    unfold bind at 1. rewrite (add_attr_run _ _ _ _ _ Hs Hx).
    apply odict_mem_false in Hnew as Hm. rewrite Hm.
    set (w1 := set_annotations _ w).
    change (attach_all ((x, a) :: l) s) with (attach_all l (attach x a s)).
    destruct (IH w1 (attach x a s)) as [E1 E2].
    + apply lookup_insert_eq.
    + done.
    + rewrite attach_keys by done. unfold odict_keys. rewrite fmap_app. simpl.
      rewrite <-(assoc_L (++)). exact Hnd.
    + rewrite E1, E2. split.
      * subst w1. unfold set_annotations. simpl. by rewrite insert_insert_eq.
      * rewrite attach_keys by done. simpl. by rewrite <-(assoc_L (++)).
Qed.

Lemma add_attrs_dup (l : list (ref * AttributeObj.t)) w self s :
  annotations w !! self = Some s →
  Forall (λ xa, attributes w !! xa.1 = Some xa.2) l →
  NoDup (odict_keys (AnnotationObj._attrs_by_id s)) →
  ¬ NoDup (odict_keys (AnnotationObj._attrs_by_id s) ++ (AttributeObj.uid ∘ snd <$> l)) →
  ∃ u w', u ∈ (AttributeObj.uid ∘ snd <$> l) ∧
    for_each (fst <$> l) (Annotation.add_attr self) w = (Raise (duplicate_attribute u), w').
Proof.
  revert w s. induction l as [|[x a] l IH]; intros w s Hs Hl Hnd Hdup.
  - simpl in Hdup. by rewrite app_nil_r in Hdup.
  - apply Forall_cons in Hl as [Hx Hl]. simpl in Hx.
    cbn [fmap list_fmap for_each fst].
    unfold bind at 1. rewrite (add_attr_run _ _ _ _ _ Hs Hx).
    destruct (odict_mem _ _) eqn:Hm.
    + exists (AttributeObj.uid a), w. split; [by left|done].
    + apply odict_mem_false in Hm.
      set (w1 := set_annotations _ w).
      destruct (IH w1 (attach x a s)) as (u & w' & Hu & ->).
      * apply lookup_insert_eq.
      * done.
      * rewrite attach_keys by done. unfold odict_keys. rewrite fmap_app. simpl.
        apply NoDup_app. split_and!; [done| |apply NoDup_singleton].
        intros y Hy ->%list_elem_of_singleton. done.
      * rewrite attach_keys by done. unfold odict_keys. rewrite fmap_app. simpl.
        rewrite <-(assoc_L (++)). exact Hdup.
      * exists u, w'. split; [by right|done].
Qed.

Lemma allocated_attributes w (attrs : list ref) :
  Forall (λ x, is_Some (attributes w !! x)) attrs →
  ∃ l : list (ref * AttributeObj.t),
    attrs = l.*1 ∧ Forall (λ xa, attributes w !! xa.1 = Some xa.2) l ∧
    attr_uid w <$> attrs = Some <$> (AttributeObj.uid ∘ snd <$> l).
Proof.
  induction 1 as [|x attrs [a Ha] _ (l & -> & Hl & Hu)].
  - by exists [].
  - exists ((x, a) :: l). split_and!; [done|by constructor|].
    rewrite !fmap_cons, Hu. unfold attr_uid at 1. simpl. by rewrite Ha.
Qed.

Lemma init_uid_run (uid : option string) w :
  ∃ u w1, match uid with None => Id.generate_id | Some u => ret u end w = (Return u, w1)
    ∧ attributes w1 = attributes w ∧ annotations w1 = annotations w
    ∧ stores w1 = stores w ∧ documents w1 = documents w.
Proof. destruct uid; simpl; eauto 10. Qed.

(** C10.  [Annotation.__init__] with an [attrs] list attaches the attributes
    with [add_attr], first to last: when two attributes of the list have the
    same uid the constructor raises the duplicate-attribute error, and when
    the uids are pairwise distinct it returns the new annotation, whose
    [get_attrs()] is the list itself, in its order. *)
Theorem annotation_init_attrs w label keys (attrs : list ref) uid metadata :
  Forall (λ x, is_Some (attributes w !! x)) attrs →
  (NoDup (attr_uid w <$> attrs) →
     ∃ self w', Annotation.__init__ label keys (Some attrs) uid metadata w
                = (Return self, w')
                ∧ Annotation.get_attrs self w' = (Return attrs, w'))
  ∧ (¬ NoDup (attr_uid w <$> attrs) →
     ∃ u w', Some u ∈ attr_uid w <$> attrs ∧
             Annotation.__init__ label keys (Some attrs) uid metadata w
             = (Raise (duplicate_attribute u), w')).
Proof.
  intros (l & Hattrs & Hl & Huids)%allocated_attributes.
  rewrite Huids. subst attrs. clear Huids.
  destruct (init_uid_run uid w) as (u & w1 & Hu & Hattr & _).
  set (s0 := AnnotationObj.mk u label (default ∅ keys) (default [] metadata) [] ∅).
  set (self := new_ref (annotations w1)).
  set (w2 := set_annotations (<[self := s0]> (annotations w1)) w1).
  assert (Annotation.__init__ label keys (Some l.*1) uid metadata w
          = (for_each l.*1 (Annotation.add_attr self) >> ret self) w2) as ->.
  { unfold Annotation.__init__. by rewrite (bind_Return _ _ _ _ _ Hu). }
  assert (annotations w2 !! self = Some s0) as Hs by apply lookup_insert_eq.
  assert (Forall (λ xa, attributes w2 !! xa.1 = Some xa.2) l) as Hl2.
  { subst w2. simpl. by rewrite Hattr. }
  split.
  - intros Hnd%NoDup_fmap_1.
    destruct (add_attrs_run l w2 self s0 Hs Hl2) as [E1 E2]; [exact Hnd|].
    eexists self, _. rewrite (bind_Return _ _ _ _ _ E1). split; [done|].
    unfold Annotation.get_attrs.
    erewrite bind_Return; [|apply deref_Some, lookup_insert_eq].
    unfold ret. rewrite E2. simpl. unfold odict_values.
    rewrite <-list_fmap_compose. do 2 f_equal.
  - intros Hnd.
    destruct (add_attrs_dup l w2 self s0 Hs Hl2) as (u' & w' & Hin & E).
    + simpl. constructor.
    + simpl. intros ?. apply Hnd. by apply (NoDup_fmap_2 Some).
    + exists u', w'. split; [by apply list_elem_of_fmap_2|].
      by rewrite (bind_Raise _ _ _ _ _ E).
Qed.

(** ** [Document.add_annotation] *)

Lemma modify_document_run w self d f :
  documents w !! self = Some d →
  modify_document self f w = (Return tt, set_documents (<[self := f d]> (documents w)) w).
Proof.
  intros Hd. unfold modify_document.
  by rewrite (bind_Return _ _ _ _ _ (deref_Some documents _ _ _ Hd)).
Qed.

Lemma set_documents_twice v v' w :
  set_documents v (set_documents v' w) = set_documents v w.
Proof. done. Qed.

Lemma key_loop_run (keys : list string) id w self d :
  documents w !! self = Some d →
  for_each keys
    (λ key, modify_document self
       (λ d, DocumentObj.set_annotation_ids_by_key
               (index_append key id (DocumentObj.annotation_ids_by_key d)) d)) w
  = (Return tt,
     set_documents
       (<[self := DocumentObj.set_annotation_ids_by_key
                    (index_append_all keys id (DocumentObj.annotation_ids_by_key d)) d]>
          (documents w)) w).
Proof.
  revert w d. induction keys as [|key keys IH]; intros w d Hd.
  - simpl. unfold ret. f_equal. destruct w, d; unfold set_documents; simpl in *.
    f_equal. by rewrite insert_id.
  - cbn [for_each]. erewrite bind_Return; [|by apply modify_document_run].
    erewrite IH; [|apply lookup_insert_eq].
    f_equal. unfold set_documents. simpl. by rewrite insert_insert_eq.
Qed.

Section add_annotation.
Context `{SetOrder} `{AnnotationClasses}.

Lemma annotation_id_run w self a :
  annotations w !! self = Some a →
  Annotation.id self w
  = if defines_id self then (Return (AnnotationObj.uid a), w) else (Raise missing_id, w).
Proof.
  intros Ha. unfold Annotation.id.
  rewrite (bind_Return _ _ _ _ _ (deref_Some annotations _ _ _ Ha)).
  by destruct (defines_id self).
Qed.

Lemma add_annotation_no_id w self annotation a :
  annotations w !! annotation = Some a →
  defines_id annotation = false →
  Document.add_annotation self annotation w = (Raise missing_id, w).
Proof.
  intros Ha Hid. unfold Document.add_annotation.
  erewrite bind_Raise; [done|]. by rewrite (annotation_id_run _ _ _ Ha), Hid.
Qed.

Lemma add_annotation_run w self annotation d a st :
  defines_id annotation = true →
  documents w !! self = Some d →
  annotations w !! annotation = Some a →
  stores w !! DocumentObj.store d = Some st →
  let id := AnnotationObj.uid a in
  Document.add_annotation self annotation w =
    if decide (id ∈ DocumentObj.annotation_ids d) then
      (Raise (duplicate_annotation id), w)
    else
      match st !! id with
      | Some r =>
          if decide (r = annotation) then
            (Return tt,
             set_documents (<[self := record_annotation a d]> (documents w)) w)
          else
            (Raise (DuplicateKey id),
             set_documents
               (<[self := DocumentObj.set_annotation_ids
                            ({[id]} ∪ DocumentObj.annotation_ids d) d]>
                  (documents w)) w)
      | None =>
          (Return tt,
           set_stores (<[DocumentObj.store d := <[id := annotation]> st]> (stores w))
             (set_documents (<[self := record_annotation a d]> (documents w)) w))
      end.
Proof.
  intros Hid Hd Ha Hst id. unfold Document.add_annotation.
  erewrite bind_Return; [|by rewrite (annotation_id_run _ _ _ Ha), Hid].
  rewrite (bind_Return _ _ _ _ _ (deref_Some documents _ _ _ Hd)).
  fold id. case_decide; [done|].
  erewrite bind_Return; [|by apply modify_document_run].
  set (d1 := DocumentObj.set_annotation_ids _ d).
  set (w1 := set_documents _ w).
  assert (documents w1 !! self = Some d1) as Hd1 by apply lookup_insert_eq.
  rewrite (bind_Return _ _ _ _ _ (deref_Some documents _ _ _ Hd1)).
  unfold Store.store_data_item.
  unfold bind at 1.
  assert (annotations w1 !! annotation = Some a) as Ha1 by done.
  rewrite (bind_Return _ _ _ _ _ (deref_Some annotations _ _ _ Ha1)).
  assert (stores w1 !! DocumentObj.store d1 = Some st) as Hst1 by done.
  rewrite (bind_Return _ _ _ _ _ (deref_Some stores _ _ _ Hst1)).
  fold id. destruct (st !! id) as [r|] eqn:Hr.
  - case_decide; [|done]. unfold ret.
    rewrite (bind_Return _ _ _ _ _ (deref_Some annotations _ _ _ Ha1)).
    erewrite bind_Return; [|by apply modify_document_run].
    erewrite bind_Return; [|by apply deref_Some].
    erewrite key_loop_run; [|apply lookup_insert_eq].
    f_equal. unfold set_documents, w1. simpl. by rewrite !insert_insert_eq.
  - unfold put_store.
    set (w2 := set_stores _ w1).
    assert (annotations w2 !! annotation = Some a) as Ha2 by done.
    assert (documents w2 !! self = Some d1) as Hd2 by done.
    rewrite (bind_Return _ _ _ _ _ (deref_Some annotations _ _ _ Ha2)).
    erewrite bind_Return; [|by apply modify_document_run].
    erewrite bind_Return; [|by apply deref_Some].
    erewrite key_loop_run; [|apply lookup_insert_eq].
    f_equal. unfold set_documents, set_stores, w2, w1. simpl.
    by rewrite !insert_insert_eq.
Qed.
End add_annotation.

(** ** Frames *)

Section preserves.
Context (R : relation World) `{!PreOrder R}.

Lemma preserves_ret {A} (a : A) : preserves R (ret a).
Proof. intros w. simpl. reflexivity. Qed.

Lemma preserves_raise {A} e : preserves R (@raise A e).
Proof. intros w. simpl. reflexivity. Qed.

Lemma preserves_deref {A} (heap : World → gmap ref A) r : preserves R (deref heap r).
Proof. intros w. unfold deref. destruct (heap w !! r); simpl; reflexivity. Qed.

Lemma preserves_annotation_id `{AnnotationClasses} self :
  preserves R (Annotation.id self).
Proof.
  intros w. unfold Annotation.id, bind, get_annotation, deref.
  destruct (annotations w !! self); [|reflexivity].
  destruct (defines_id self); reflexivity.
Qed.

Lemma preserves_bind {A B} (m : M A) (k : A → M B) :
  preserves R m → (∀ a, preserves R (k a)) → preserves R (bind m k).
Proof.
  intros Hm Hk w. unfold bind. specialize (Hm w).
  destruct (m w) as [[a|e] w']; simpl in *; [|done].
  etrans; [exact Hm|apply Hk].
Qed.

Lemma preserves_for_each {A} (l : list A) (body : A → M unit) :
  (∀ x, preserves R (body x)) → preserves R (for_each l body).
Proof.
  intros Hbody. induction l; simpl.
  - apply preserves_ret.
  - by apply preserves_bind.
Qed.

Lemma preserves_list_comp {A B} (l : list A) (f : A → M B) :
  (∀ x, preserves R (f x)) → preserves R (list_comp l f).
Proof.
  intros Hf. induction l; simpl.
  - apply preserves_ret.
  - apply preserves_bind; [done|]. intros y.
    apply preserves_bind; [done|]. intros ys. apply preserves_ret.
Qed.
End preserves.

Global Instance doc_frame_preorder : PreOrder doc_frame.
Proof.
  split.
  - intros w. split_and!; [done..|]. eauto.
  - intros w1 w2 w3 (Hs1 & Hd1 & Ha1) (Hs2 & Hd2 & Ha2).
    split_and!; [congruence..|].
    intros r a Hr. destruct (Ha1 _ _ Hr) as (a' & Hr' & ? & ?).
    destruct (Ha2 _ _ Hr') as (a'' & Hr'' & ? & ?).
    exists a''. split_and!; [done|congruence..].
Qed.

Lemma new_ref_fresh {A} (heap : gmap ref A) : heap !! new_ref heap = None.
Proof. apply not_elem_of_dom, is_fresh. Qed.

Lemma doc_frame_generate_id : preserves doc_frame Id.generate_id.
Proof. intros w. split_and!; [done..|]. eauto. Qed.

Lemma doc_frame_attribute_alloc o : preserves doc_frame (Attribute.alloc o).
Proof. intros w. split_and!; [done..|]. eauto. Qed.

Lemma doc_frame_annotation_alloc o : preserves doc_frame (Annotation.alloc o).
Proof.
  intros w. split_and!; [done..|]. intros r a Hr. exists a. split; [|done].
  simpl. rewrite lookup_insert_ne; [done|].
  intros <-. by rewrite new_ref_fresh in Hr.
Qed.

Lemma doc_frame_modify_annotation r f :
  (∀ a, AnnotationObj.uid (f a) = AnnotationObj.uid a ∧
        AnnotationObj.label (f a) = AnnotationObj.label a) →
  preserves doc_frame (modify_annotation r f).
Proof.
  intros Hf w. unfold modify_annotation, bind, get_annotation, deref.
  destruct (annotations w !! r) as [o|] eqn:Ho; simpl; [|reflexivity].
  split_and!; [done..|]. intros r' a Hr'. simpl.
  destruct (decide (r = r')) as [<-|].
  - rewrite lookup_insert_eq. exists (f o). assert (a = o) as -> by congruence.
    split; [done|]. apply Hf.
  - rewrite lookup_insert_ne by done. eauto.
Qed.

Lemma doc_frame_uid_choice (uid : option string) :
  preserves doc_frame match uid with None => Id.generate_id | Some u => ret u end.
Proof. destruct uid; [apply preserves_ret, _|apply doc_frame_generate_id]. Qed.

Lemma doc_frame_add_attr self attr : preserves doc_frame (Annotation.add_attr self attr).
Proof.
  unfold Annotation.add_attr.
  apply preserves_bind; [apply _|apply preserves_deref, _|]. intros a.
  apply preserves_bind; [apply _|apply preserves_deref, _|]. intros s.
  destruct (odict_mem _ _); [apply preserves_raise, _|].
  apply preserves_bind; [apply _|by apply doc_frame_modify_annotation|]. intros _.
  apply preserves_bind; [apply _|apply preserves_deref, _|]. intros a'.
  by apply doc_frame_modify_annotation.
Qed.

Lemma doc_frame_attribute_init label value uid metadata :
  preserves doc_frame (Attribute.__init__ label value uid metadata).
Proof.
  unfold Attribute.__init__.
  apply preserves_bind; [apply _|apply doc_frame_uid_choice|]. intros u.
  apply doc_frame_attribute_alloc.
Qed.

Lemma doc_frame_annotation_init label keys attrs uid metadata :
  preserves doc_frame (Annotation.__init__ label keys attrs uid metadata).
Proof.
  unfold Annotation.__init__.
  apply preserves_bind; [apply _|apply doc_frame_uid_choice|]. intros u.
  apply preserves_bind; [apply _|apply doc_frame_annotation_alloc|]. intros self.
  apply preserves_bind; [apply _| |intros _; apply preserves_ret, _].
  apply preserves_for_each; [apply _|]. intros x. apply doc_frame_add_attr.
Qed.

Lemma doc_frame_add_key self key : preserves doc_frame (Annotation.add_key self key).
Proof. by apply doc_frame_modify_annotation. Qed.

Lemma doc_frame_keep_keys self keys : preserves doc_frame (Annotation.keep_keys self keys).
Proof. by apply doc_frame_modify_annotation. Qed.

Lemma doc_frame_same w w' :
  stores w' = stores w → documents w' = documents w →
  annotations w' = annotations w → doc_frame w w'.
Proof. intros Hs Hd Ha. split_and!; [done..|]. rewrite Ha. eauto. Qed.

Lemma doc_frame_modify_pipeline r f : preserves doc_frame (modify_pipeline r f).
Proof.
  intros w. unfold modify_pipeline, bind, get_pipeline, deref.
  destruct (pipelines w !! r); by apply doc_frame_same.
Qed.

Lemma doc_frame_stored_items self ids : preserves doc_frame (Document.stored_items self ids).
Proof.
  apply preserves_list_comp; [apply _|]. intros id.
  apply preserves_bind; [apply _|apply preserves_deref, _|]. intros d.
  apply preserves_bind; [apply _|apply preserves_deref, _|]. intros st.
  apply preserves_ret, _.
Qed.

Lemma doc_frame_get_annotations_by_label self label :
  preserves doc_frame (Document.get_annotations_by_label self label).
Proof.
  apply preserves_bind; [apply _|apply preserves_deref, _|]. intros d.
  apply doc_frame_stored_items.
Qed.

Lemma preserves_for_fold (R : relation World) `{!PreOrder R} {A S}
    (l : list A) (body : A → S → M S) (s : S) :
  (∀ x s, preserves R (body x s)) → preserves R (DocPipeline.for_fold l body s).
Proof.
  intros Hbody. revert s. induction l as [|x l IH]; intros s; simpl.
  - by apply preserves_ret.
  - by apply preserves_bind.
Qed.

Lemma doc_frame_collect_label doc input_key label acc :
  preserves doc_frame (DocPipeline.collect_label doc input_key label acc).
Proof.
  unfold DocPipeline.collect_label. destruct (negb _).
  - apply preserves_bind; [apply _|apply doc_frame_get_annotations_by_label|].
    intros anns. apply preserves_ret, _.
  - destruct (odict_get _ _); [|apply preserves_raise, _].
    apply preserves_bind; [apply _|apply doc_frame_get_annotations_by_label|].
    intros anns. apply preserves_ret, _.
Qed.

Lemma doc_frame_run_on_doc self doc : preserves doc_frame (DocPipeline.run_on_doc self doc).
Proof.
  unfold DocPipeline.run_on_doc.
  apply preserves_bind; [apply _|apply preserves_deref, _|]. intros s.
  apply preserves_bind; [apply _| |].
  { apply preserves_for_fold; [apply _|]. intros item acc.
    apply preserves_for_fold; [apply _|]. intros label acc'.
    apply doc_frame_collect_label. }
  intros all_input_anns.
  apply preserves_bind; [apply _|apply preserves_deref, _|]. intros s'.
  apply preserves_bind; [apply _|apply doc_frame_modify_pipeline|]. intros _.
  apply preserves_bind; [apply _|apply preserves_deref, _|]. intros s''.
  apply doc_frame_modify_pipeline.
Qed.

Lemma doc_frame_run_on_collection self collection :
  preserves doc_frame (DocPipeline.run_on_collection self collection).
Proof.
  apply preserves_for_each; [apply _|]. intros doc.
  unfold DocPipeline.call_with_doc.
  destruct (DocPipeline.getattr _) as [[]|];
    first [apply preserves_raise, _|apply doc_frame_run_on_doc].
Qed.

Lemma doc_frame_doc_pipeline_init steps labels_by_input_key :
  preserves doc_frame (DocPipeline.__init__ steps labels_by_input_key).
Proof. intros w. by apply doc_frame_same. Qed.

Lemma doc_frame_exec_pipeline `{SetOrder} `{AnnotationClasses} c :
  match c with
  | NewDocPipeline _ _ | RunOnDoc _ _ | RunOnCollection _ _ => True
  | _ => False
  end →
  preserves doc_frame (exec c).
Proof.
  destruct c; try done; intros _; simpl.
  - apply preserves_bind; [apply _|apply doc_frame_doc_pipeline_init|].
    intros ?. apply preserves_ret, _.
  - apply doc_frame_run_on_doc.
  - apply doc_frame_run_on_collection.
Qed.

Lemma world_wf_doc_frame w w' : doc_frame w w' → world_wf w → world_wf w'.
Proof.
  intros (Hs & Hd & Ha) [Hst Hdoc]. split.
  - intros s st u r. rewrite Hs. intros Hs1 Hu.
    destruct (Hst _ _ _ _ Hs1 Hu) as (a & Hr & Hid).
    destruct (Ha _ _ Hr) as (a' & Hr' & Huid & _).
    exists a'. split; [done|]. congruence.
  - intros self d. rewrite Hd. intros Hself.
    destruct (Hdoc _ _ Hself) as (st & ? & ?). exists st. by rewrite Hs.
Qed.

(** ** Well-formedness is kept by every call *)

Lemma index_append_all_lookup keys id (m : gmap string (list string)) k :
  NoDup keys →
  index_append_all keys id m !! k
  = if decide (k ∈ keys) then Some (default [] (m !! k) ++ [id]) else m !! k.
Proof.
  revert m. induction keys as [|key keys IH]; intros m Hnd.
  - case_decide as Hk; [by apply elem_of_nil in Hk|done].
  - apply NoDup_cons in Hnd as [Hkey Hnd].
    change (index_append_all (key :: keys) id m)
      with (index_append_all keys id (index_append key id m)).
    rewrite IH by done. destruct (decide (k = key)) as [->|Hne].
    + rewrite (decide_False _ _ Hkey), decide_True by left.
      apply index_append_lookup_eq.
    + rewrite index_append_lookup_ne by done.
      destruct (decide (k ∈ keys)) as [Hin|Hnin].
      * rewrite decide_True; [done|by right].
      * rewrite decide_False; [done|]. by intros [?|?]%elem_of_cons.
Qed.

Lemma index_wf_mono ids ids' m : ids ⊆ ids' → index_wf ids m → index_wf ids' m.
Proof.
  intros Hsub Hm k l Hl. destruct (Hm _ _ Hl) as [? Hin]. split; [done|].
  intros u Hu. apply Hsub, Hin, Hu.
Qed.

Lemma index_wf_append ids m key id :
  id ∉ ids → index_wf ids m → index_wf ({[id]} ∪ ids) (index_append key id m).
Proof.
  intros Hid Hm k l. destruct (decide (key = k)) as [<-|Hne].
  - rewrite index_append_lookup_eq. intros [= <-].
    assert (NoDup (default [] (m !! key)) ∧ ∀ u, u ∈ default [] (m !! key) → u ∈ ids)
      as [Hnd Hin].
    { destruct (m !! key) as [l|] eqn:Hl; simpl.
      - by apply (Hm key).
      - split; [constructor|]. by intros ? ?%elem_of_nil. }
    split.
    + apply NoDup_app. split_and!; [done| |apply NoDup_singleton].
      intros u Hu ->%list_elem_of_singleton. by apply Hid, Hin.
    + intros u [Hu| ->%list_elem_of_singleton]%elem_of_app; [|set_solver].
      apply elem_of_union_r. by apply Hin.
  - rewrite index_append_lookup_ne by done. intros Hl.
    destruct (Hm _ _ Hl) as [? Hin]. split; [done|].
    intros u Hu. apply elem_of_union_r. by apply Hin.
Qed.

Lemma index_wf_append_all ids m keys id :
  NoDup keys → id ∉ ids → index_wf ids m →
  index_wf ({[id]} ∪ ids) (index_append_all keys id m).
Proof.
  intros Hnd Hid Hm k l. rewrite index_append_all_lookup by done.
  case_decide as Hk.
  - intros Hl. apply (index_wf_append ids m k id Hid Hm k).
    by rewrite index_append_lookup_eq.
  - intros Hl. destruct (Hm _ _ Hl) as [? Hin]. split; [done|].
    intros u Hu. apply elem_of_union_r. by apply Hin.
Qed.

Lemma set_iter_NoDup `{SetOrder} (s : gset string) : NoDup (set_iter s).
Proof. rewrite set_iter_perm. apply NoDup_elements. Qed.

Lemma set_iter_elem_of `{SetOrder} (s : gset string) x : x ∈ set_iter s ↔ x ∈ s.
Proof. rewrite set_iter_perm. apply elem_of_elements. Qed.

Lemma world_wf_empty : world_wf empty_world.
Proof.
  split.
  - intros s st u r Hs. done.
  - intros self d Hd. done.
Qed.

Lemma document_wf_store_grows w w' d :
  document_wf w d →
  (∀ st, stores w !! DocumentObj.store d = Some st →
     ∃ st', stores w' !! DocumentObj.store d = Some st' ∧
            ∀ u, is_Some (st !! u) → is_Some (st' !! u)) →
  document_wf w' d.
Proof.
  intros (st & Hst & Hids & Hl & Hk) Hgrow.
  destruct (Hgrow _ Hst) as (st' & Hst' & Hsub).
  exists st'. split_and!; [done| |done..]. intros u Hu. by apply Hsub, Hids.
Qed.

Lemma world_wf_DictStore w : world_wf w → world_wf (Store.DictStore w).2.
Proof.
  intros [Hst Hdoc]. split.
  - intros s st u r. simpl. destruct (decide (new_ref (stores w) = s)) as [<-|Hne].
    + rewrite lookup_insert_eq. intros [= <-]. by rewrite lookup_empty.
    + rewrite lookup_insert_ne by done. intros Hs Hu. by eapply Hst.
  - intros self d Hd. simpl in Hd. apply (document_wf_store_grows w); [by eapply Hdoc|].
    intros st Hs. exists st. split; [|done]. simpl.
    rewrite lookup_insert_ne; [done|]. intros Heq.
    by rewrite <-Heq, new_ref_fresh in Hs.
Qed.

Lemma world_wf_store_insert w s st u item a :
  world_wf w →
  stores w !! s = Some st →
  annotations w !! item = Some a →
  AnnotationObj.uid a = u →
  world_wf (set_stores (<[s := <[u := item]> st]> (stores w)) w).
Proof.
  intros [Hst Hdoc] Hs Ha Hid. split.
  - intros s' st' u' r. simpl. destruct (decide (s = s')) as [<-|Hne].
    + rewrite lookup_insert_eq. intros [= <-].
      destruct (decide (u = u')) as [<-|Hneu].
      * rewrite lookup_insert_eq. intros [= <-]. eauto.
      * rewrite lookup_insert_ne by done. intros Hu. by eapply Hst.
    + rewrite lookup_insert_ne by done. intros Hs' Hu. by eapply Hst.
  - intros self d Hd. simpl in Hd. apply (document_wf_store_grows w); [by eapply Hdoc|].
    intros st0 Hs0. simpl. destruct (decide (s = DocumentObj.store d)) as [Heq|Hne].
    + rewrite <-Heq in Hs0 |- *.
      rewrite lookup_insert_eq. assert (st0 = st) as -> by congruence.
      eexists. split; [done|]. intros u'. rewrite lookup_insert.
      case_decide; [by eauto|done].
    + rewrite lookup_insert_ne by done. eauto.
Qed.

Lemma store_data_item_run w self item a st :
  annotations w !! item = Some a →
  stores w !! self = Some st →
  Store.store_data_item self item w =
    match st !! AnnotationObj.uid a with
    | Some r => if decide (r = item) then (Return tt, w)
                else (Raise (DuplicateKey (AnnotationObj.uid a)), w)
    | None => (Return tt,
               set_stores (<[self := <[AnnotationObj.uid a := item]> st]> (stores w)) w)
    end.
Proof.
  intros Ha Hs. unfold Store.store_data_item.
  rewrite (bind_Return _ _ _ _ _ (deref_Some annotations _ _ _ Ha)).
  rewrite (bind_Return _ _ _ _ _ (deref_Some stores _ _ _ Hs)).
  destruct (st !! _); [by case_decide|done].
Qed.

Lemma world_wf_store_data_item w self item :
  world_wf w → world_wf (Store.store_data_item self item w).2.
Proof.
  intros Hwf. destruct (annotations w !! item) as [a|] eqn:Ha.
  - destruct (stores w !! self) as [st|] eqn:Hs.
    + rewrite (store_data_item_run _ _ _ _ _ Ha Hs).
      destruct (st !! _) eqn:Hu; [by case_decide|].
      simpl. by eapply world_wf_store_insert.
    + unfold Store.store_data_item.
      rewrite (bind_Return _ _ _ _ _ (deref_Some annotations _ _ _ Ha)).
      by rewrite (bind_Raise _ _ _ _ _ (deref_None stores _ _ Hs)).
  - unfold Store.store_data_item.
    by rewrite (bind_Raise _ _ _ _ _ (deref_None annotations _ _ Ha)).
Qed.

Lemma world_wf_set_document w self d :
  world_wf w → document_wf w d →
  world_wf (set_documents (<[self := d]> (documents w)) w).
Proof.
  intros [Hst Hdoc] Hd. split; [done|].
  intros self' d'. simpl. destruct (decide (self = self')) as [<-|Hne].
  - rewrite lookup_insert_eq. by intros [= <-].
  - rewrite lookup_insert_ne by done. apply Hdoc.
Qed.

Lemma document_wf_track w d st id :
  stores w !! DocumentObj.store d = Some st →
  is_Some (st !! id) →
  document_wf w d →
  document_wf w (DocumentObj.set_annotation_ids ({[id]} ∪ DocumentObj.annotation_ids d) d).
Proof.
  intros Hst Hid (st' & Hst' & Hids & Hl & Hk).
  assert (st' = st) as -> by congruence.
  exists st. split_and!; simpl.
  - done.
  - intros u [->%elem_of_singleton|Hu]%elem_of_union; [done|by apply Hids].
  - eapply index_wf_mono; [|done]. set_solver.
  - eapply index_wf_mono; [|done]. set_solver.
Qed.

Lemma document_wf_record `{SetOrder} w d a st :
  stores w !! DocumentObj.store d = Some st →
  is_Some (st !! AnnotationObj.uid a) →
  AnnotationObj.uid a ∉ DocumentObj.annotation_ids d →
  document_wf w d →
  document_wf w (record_annotation a d).
Proof.
  intros Hst Hid Hnew (st' & Hst' & Hids & Hl & Hk).
  assert (st' = st) as -> by congruence.
  exists st. split_and!; simpl.
  - done.
  - intros u [->%elem_of_singleton|Hu]%elem_of_union; [done|by apply Hids].
  - by apply index_wf_append.
  - apply index_wf_append_all; [apply set_iter_NoDup|done..].
Qed.

(** [add_annotation] on an object that has no [id], or with a reference
    outside the heap, raises before any write. *)
Lemma add_annotation_dangling `{SetOrder} `{AnnotationClasses} w self annotation :
  annotations w !! annotation = None ∨ defines_id annotation = false
  ∨ documents w !! self = None →
  ∃ e, Document.add_annotation self annotation w = (Raise e, w) ∧
       ∀ u, e ≠ DuplicateKey u.
Proof.
  destruct (annotations w !! annotation) as [a|] eqn:Ha; cycle 1.
  { intros _. exists InvalidReference. split; [|done].
    unfold Document.add_annotation, Annotation.id.
    erewrite bind_Raise; [done|].
    by rewrite (bind_Raise _ _ _ _ _ (deref_None annotations _ _ Ha)). }
  destruct (defines_id annotation) eqn:Hid; cycle 1.
  { intros _. exists missing_id. split; [|done]. by eapply add_annotation_no_id. }
  intros [?|[?|Hd]]; [done..|].
  exists InvalidReference. split; [|done]. unfold Document.add_annotation.
  erewrite bind_Return; [|by rewrite (annotation_id_run _ _ _ Ha), Hid].
  by rewrite (bind_Raise _ _ _ _ _ (deref_None documents _ _ Hd)).
Qed.

Lemma world_wf_add_annotation `{SetOrder} `{AnnotationClasses} w self annotation :
  world_wf w → world_wf (Document.add_annotation self annotation w).2.
Proof.
  intros Hwf.
  destruct (annotations w !! annotation) as [a|] eqn:Ha; cycle 1.
  { destruct (add_annotation_dangling w self annotation) as (e & -> & _); auto. }
  destruct (defines_id annotation) eqn:Hid; cycle 1.
  { destruct (add_annotation_dangling w self annotation) as (e & -> & _); auto. }
  destruct (documents w !! self) as [d|] eqn:Hd; cycle 1.
  { destruct (add_annotation_dangling w self annotation) as (e & -> & _); auto. }
  destruct (proj2 Hwf _ _ Hd) as (st & Hst & Hrest).
  assert (document_wf w d) as Hdwf by (by apply (proj2 Hwf self)).
  rewrite (add_annotation_run _ _ _ _ _ _ Hid Hd Ha Hst). simpl.
  case_decide as Hin; [done|].
  destruct (st !! AnnotationObj.uid a) as [r|] eqn:Hr.
  - case_decide; simpl.
    + apply world_wf_set_document; [done|]. by eapply document_wf_record.
    + apply world_wf_set_document; [done|]. by eapply document_wf_track.
  - simpl.
    set (w1 := set_stores (<[DocumentObj.store d := <[AnnotationObj.uid a := annotation]> st]>
                             (stores w)) w).
    change (world_wf (set_documents (<[self := record_annotation a d]> (documents w1)) w1)).
    assert (world_wf w1) as Hwf1 by (by eapply world_wf_store_insert).
    apply world_wf_set_document; [done|].
    eapply document_wf_record; [apply lookup_insert_eq|by rewrite lookup_insert_eq|done|].
    by apply (proj2 Hwf1 self).
Qed.

Lemma world_wf_new_document w doc_id s shared metadata :
  world_wf w → is_Some (stores w !! s) →
  world_wf (Document.alloc (DocumentObj.mk doc_id s shared ∅ ∅ ∅ metadata) w).2.
Proof.
  intros Hwf [st Hst]. apply world_wf_set_document; [done|].
  exists st. split_and!; simpl; [done|set_solver|done..].
Qed.

Global Instance world_wf_preorder : PreOrder (λ w w', world_wf w → world_wf w').
Proof. split; [by intros ?|]. intros w1 w2 w3 H12 H23 ?. auto. Qed.

Lemma world_wf_generate_id : preserves (λ w w', world_wf w → world_wf w') Id.generate_id.
Proof. intros w. by apply world_wf_doc_frame, doc_frame_generate_id. Qed.

Lemma world_wf_document_init w doc_id metadata store :
  world_wf w →
  match store with Some s => is_Some (stores w !! s) | None => True end →
  world_wf (Document.__init__ doc_id metadata store w).2.
Proof.
  intros Hwf Hstore. unfold Document.__init__.
  assert (∃ i w1, match doc_id with None => Id.generate_id | Some i => ret i end w
                  = (Return i, w1) ∧ world_wf w1 ∧ stores w1 = stores w)
    as (i & w1 & Hi & Hwf1 & Hs1).
  { destruct doc_id; simpl; [by eauto|].
    eexists _, _. split; [done|]. split; [|done]. by apply world_wf_generate_id. }
  rewrite (bind_Return _ _ _ _ _ Hi).
  destruct store as [s|]; simpl.
  - rewrite <-Hs1 in Hstore. by apply world_wf_new_document.
  - apply (world_wf_new_document (Store.DictStore w1).2).
    + by apply world_wf_DictStore.
    + simpl. by rewrite lookup_insert_eq.
Qed.

Lemma existing_store_run store w :
  (existing_store store w = (Return tt, w) ∧
   match store with Some s => is_Some (stores w !! s) | None => True end)
  ∨ ∃ e, existing_store store w = (Raise e, w).
Proof.
  destruct store as [s|]; simpl; [|by left].
  destruct (stores w !! s) as [st|] eqn:Hs.
  - left. split; [|by eauto].
    by rewrite (bind_Return _ _ _ _ _ (deref_Some stores _ _ _ Hs)).
  - right. exists InvalidReference.
    by rewrite (bind_Raise _ _ _ _ _ (deref_None stores _ _ Hs)).
Qed.

Lemma world_wf_exec `{SetOrder} `{AnnotationClasses} c w :
  world_wf w → world_wf (exec c w).2.
Proof.
  intros Hwf. destruct c; simpl.
  - revert Hwf. apply world_wf_doc_frame.
    apply (preserves_bind doc_frame); [apply doc_frame_attribute_init|].
    intros _. apply preserves_ret, _.
  - revert Hwf. apply world_wf_doc_frame.
    apply (preserves_bind doc_frame); [apply doc_frame_annotation_init|].
    intros _. apply preserves_ret, _.
  - unfold bind. by apply world_wf_DictStore.
  - destruct (existing_store_run store w) as [[He Hs]|[e He]].
    + rewrite (bind_Return _ _ _ _ _ He).
      pose proof (world_wf_document_init w doc_id metadata store Hwf Hs) as Hinit.
      unfold bind. by destruct (Document.__init__ _ _ _ w) as [[?|?] ?].
    + by rewrite (bind_Raise _ _ _ _ _ He).
  - revert Hwf. apply world_wf_doc_frame, doc_frame_add_attr.
  - revert Hwf. apply world_wf_doc_frame, doc_frame_add_key.
  - revert Hwf. apply world_wf_doc_frame, doc_frame_keep_keys.
  - by apply world_wf_store_data_item.
  - by apply world_wf_add_annotation.
  - revert Hwf. by apply world_wf_doc_frame, (doc_frame_exec_pipeline (NewDocPipeline _ _)).
  - revert Hwf. by apply world_wf_doc_frame, (doc_frame_exec_pipeline (RunOnDoc _ _)).
  - revert Hwf. by apply world_wf_doc_frame, (doc_frame_exec_pipeline (RunOnCollection _ _)).
Qed.

Lemma world_wf_run `{SetOrder} `{AnnotationClasses} cs w :
  world_wf w → world_wf (run cs w).
Proof.
  revert w. induction cs as [|c cs IH]; intros w Hwf; [done|].
  simpl. by apply IH, world_wf_exec.
Qed.

Lemma reachable_wf `{SetOrder} `{AnnotationClasses} w : reachable w → world_wf w.
Proof. intros [cs ->]. apply world_wf_run, world_wf_empty. Qed.

(** ** What the other calls leave alone *)

Global Instance stores_grow_preorder : PreOrder stores_grow.
Proof.
  split.
  - intros w s st Hs. by exists st.
  - intros w1 w2 w3 H12 H23 s st Hs.
    destruct (H12 _ _ Hs) as (st' & Hs' & ?).
    destruct (H23 _ _ Hs') as (st'' & Hs'' & ?).
    exists st''. split; [done|]. by etrans.
Qed.

Global Instance keeps_document_preorder self : PreOrder (keeps_document self).
Proof. split; [by intros w d|]. intros w1 w2 w3 H12 H23 d Hd. by apply H23, H12. Qed.

Lemma doc_frame_stores_grow w w' : doc_frame w w' → stores_grow w w'.
Proof. intros (Hs & _) s st. rewrite Hs. by exists st. Qed.

Lemma doc_frame_keeps_document self w w' : doc_frame w w' → keeps_document self w w'.
Proof. intros (_ & Hd & _) d. by rewrite Hd. Qed.

Lemma stores_grow_DictStore : preserves stores_grow Store.DictStore.
Proof.
  intros w s st Hs. exists st. split; [|done]. simpl.
  rewrite lookup_insert_ne; [done|]. intros Heq. by rewrite <-Heq, new_ref_fresh in Hs.
Qed.

Lemma stores_grow_insert w s st u r :
  stores w !! s = Some st → st !! u = None →
  stores_grow w (set_stores (<[s := <[u := r]> st]> (stores w)) w).
Proof.
  intros Hs Hu s' st' Hs'. simpl. destruct (decide (s = s')) as [Heq|Hne].
  - rewrite Heq in Hs |- *. rewrite lookup_insert_eq.
    assert (st' = st) as -> by congruence.
    eexists. split; [done|]. by apply insert_subseteq.
  - rewrite lookup_insert_ne by done. by exists st'.
Qed.

Lemma stores_grow_store_data_item self item :
  preserves stores_grow (Store.store_data_item self item).
Proof.
  intros w. destruct (annotations w !! item) as [a|] eqn:Ha.
  - destruct (stores w !! self) as [st|] eqn:Hs.
    + rewrite (store_data_item_run _ _ _ _ _ Ha Hs).
      destruct (st !! _) eqn:Hu; [case_decide; simpl; reflexivity|].
      by apply stores_grow_insert.
    + unfold Store.store_data_item.
      rewrite (bind_Return _ _ _ _ _ (deref_Some annotations _ _ _ Ha)).
      rewrite (bind_Raise _ _ _ _ _ (deref_None stores _ _ Hs)). simpl. reflexivity.
  - unfold Store.store_data_item.
    rewrite (bind_Raise _ _ _ _ _ (deref_None annotations _ _ Ha)). simpl. reflexivity.
Qed.

Lemma stores_grow_same w w' : stores w' = stores w → stores_grow w w'.
Proof. intros Hs s st. rewrite Hs. by exists st. Qed.

Lemma stores_grow_modify_document r f : preserves stores_grow (modify_document r f).
Proof.
  intros w. unfold modify_document, bind, get_document, deref.
  destruct (documents w !! r); by apply stores_grow_same.
Qed.

Lemma stores_grow_add_annotation `{SetOrder} `{AnnotationClasses} self annotation :
  preserves stores_grow (Document.add_annotation self annotation).
Proof.
  unfold Document.add_annotation.
  apply preserves_bind; [apply _|apply preserves_annotation_id, _|]. intros a.
  apply preserves_bind; [apply _|apply preserves_deref, _|]. intros d.
  case_decide; [apply preserves_raise, _|].
  apply preserves_bind; [apply _|apply stores_grow_modify_document|]. intros _.
  apply preserves_bind; [apply _|apply preserves_deref, _|]. intros d'.
  apply preserves_bind; [apply _|apply stores_grow_store_data_item|]. intros _.
  apply preserves_bind; [apply _|apply preserves_deref, _|]. intros a'.
  apply preserves_bind; [apply _|apply stores_grow_modify_document|]. intros _.
  apply preserves_bind; [apply _|apply preserves_deref, _|]. intros a''.
  apply preserves_for_each; [apply _|]. intros key. apply stores_grow_modify_document.
Qed.

Lemma stores_grow_generate_id : preserves stores_grow Id.generate_id.
Proof. intros w. apply doc_frame_stores_grow, doc_frame_generate_id. Qed.

Lemma stores_grow_document_alloc o : preserves stores_grow (Document.alloc o).
Proof. intros w. by apply stores_grow_same. Qed.

Lemma stores_grow_document_init doc_id metadata store :
  preserves stores_grow (Document.__init__ doc_id metadata store).
Proof.
  unfold Document.__init__.
  apply preserves_bind; [apply _| |].
  { destruct doc_id; [apply preserves_ret, _|apply stores_grow_generate_id]. }
  intros i. apply preserves_bind; [apply _| |intros ?; apply stores_grow_document_alloc].
  destruct store; [apply preserves_ret, _|].
  apply preserves_bind; [apply _|apply stores_grow_DictStore|].
  intros ?. apply preserves_ret, _.
Qed.

Lemma stores_grow_existing_store store : preserves stores_grow (existing_store store).
Proof.
  destruct store; simpl; [|apply preserves_ret, _].
  apply preserves_bind; [apply _|apply preserves_deref, _|].
  intros ?. apply preserves_ret, _.
Qed.

Lemma stores_grow_exec `{SetOrder} `{AnnotationClasses} c : preserves stores_grow (exec c).
Proof.
  destruct c; simpl.
  - intros w. apply doc_frame_stores_grow.
    apply (preserves_bind doc_frame); [apply doc_frame_attribute_init|].
    intros _. apply preserves_ret, _.
  - intros w. apply doc_frame_stores_grow.
    apply (preserves_bind doc_frame); [apply doc_frame_annotation_init|].
    intros _. apply preserves_ret, _.
  - apply preserves_bind; [apply _|apply stores_grow_DictStore|].
    intros ?. apply preserves_ret, _.
  - apply preserves_bind; [apply _|apply stores_grow_existing_store|]. intros _.
    apply preserves_bind; [apply _|apply stores_grow_document_init|].
    intros ?. apply preserves_ret, _.
  - intros w. apply doc_frame_stores_grow, doc_frame_add_attr.
  - intros w. apply doc_frame_stores_grow, doc_frame_add_key.
  - intros w. apply doc_frame_stores_grow, doc_frame_keep_keys.
  - apply stores_grow_store_data_item.
  - apply stores_grow_add_annotation.
  - intros w. by apply doc_frame_stores_grow, (doc_frame_exec_pipeline (NewDocPipeline _ _)).
  - intros w. by apply doc_frame_stores_grow, (doc_frame_exec_pipeline (RunOnDoc _ _)).
  - intros w. by apply doc_frame_stores_grow, (doc_frame_exec_pipeline (RunOnCollection _ _)).
Qed.

Lemma keeps_document_modify_document self r f :
  r ≠ self → preserves (keeps_document self) (modify_document r f).
Proof.
  intros Hne w d Hd. unfold modify_document, bind, get_document, deref.
  destruct (documents w !! r); simpl; [|done]. by rewrite lookup_insert_ne.
Qed.

Lemma keeps_document_stores self w w' :
  documents w' = documents w → keeps_document self w w'.
Proof. intros Hd d. by rewrite Hd. Qed.

Lemma keeps_document_store_data_item self s item :
  preserves (keeps_document self) (Store.store_data_item s item).
Proof.
  unfold Store.store_data_item.
  apply preserves_bind; [apply _|apply preserves_deref, _|]. intros a.
  apply preserves_bind; [apply _|apply preserves_deref, _|]. intros st.
  destruct (st !! _); [case_decide; [apply preserves_ret, _|apply preserves_raise, _]|].
  intros w. by apply keeps_document_stores.
Qed.

Lemma keeps_document_add_annotation `{SetOrder} `{AnnotationClasses} self self' annotation :
  self' ≠ self → preserves (keeps_document self) (Document.add_annotation self' annotation).
Proof.
  intros Hne. unfold Document.add_annotation.
  apply preserves_bind; [apply _|apply preserves_annotation_id, _|]. intros a.
  apply preserves_bind; [apply _|apply preserves_deref, _|]. intros d.
  case_decide; [apply preserves_raise, _|].
  apply preserves_bind; [apply _|by apply keeps_document_modify_document|]. intros _.
  apply preserves_bind; [apply _|apply preserves_deref, _|]. intros d'.
  apply preserves_bind; [apply _|apply keeps_document_store_data_item|]. intros _.
  apply preserves_bind; [apply _|apply preserves_deref, _|]. intros a'.
  apply preserves_bind; [apply _|by apply keeps_document_modify_document|]. intros _.
  apply preserves_bind; [apply _|apply preserves_deref, _|]. intros a''.
  apply preserves_for_each; [apply _|]. intros key.
  by apply keeps_document_modify_document.
Qed.

Lemma keeps_document_document_alloc self o :
  preserves (keeps_document self) (Document.alloc o).
Proof.
  intros w d Hd. simpl. rewrite lookup_insert_ne; [done|].
  intros Heq. by rewrite <-Heq, new_ref_fresh in Hd.
Qed.

Lemma keeps_document_document_init self doc_id metadata store :
  preserves (keeps_document self) (Document.__init__ doc_id metadata store).
Proof.
  unfold Document.__init__.
  apply preserves_bind; [apply _| |].
  { destruct doc_id; [apply preserves_ret, _|].
    intros w. by apply keeps_document_stores. }
  intros i. apply preserves_bind; [apply _| |intros ?; apply keeps_document_document_alloc].
  destruct store; [apply preserves_ret, _|].
  apply preserves_bind; [apply _| |intros ?; apply preserves_ret, _].
  intros w. by apply keeps_document_stores.
Qed.

Lemma keeps_document_exec `{SetOrder} `{AnnotationClasses} self c :
  (∀ annotation, c ≠ AddAnnotation self annotation) →
  preserves (keeps_document self) (exec c).
Proof.
  intros Hc. destruct c; simpl.
  - intros w. apply doc_frame_keeps_document.
    apply (preserves_bind doc_frame); [apply doc_frame_attribute_init|].
    intros _. apply preserves_ret, _.
  - intros w. apply doc_frame_keeps_document.
    apply (preserves_bind doc_frame); [apply doc_frame_annotation_init|].
    intros _. apply preserves_ret, _.
  - intros w. by apply keeps_document_stores.
  - apply preserves_bind; [apply _| |].
    { intros w. apply keeps_document_stores.
      destruct (existing_store_run store w) as [[-> _]|[e ->]]; done. }
    intros _.
    apply preserves_bind; [apply _|apply keeps_document_document_init|].
    intros ?. apply preserves_ret, _.
  - intros w. apply doc_frame_keeps_document, doc_frame_add_attr.
  - intros w. apply doc_frame_keeps_document, doc_frame_add_key.
  - intros w. apply doc_frame_keeps_document, doc_frame_keep_keys.
  - apply keeps_document_store_data_item.
  - apply keeps_document_add_annotation. intros ->. by apply (Hc annotation).
  - intros w. by apply doc_frame_keeps_document, (doc_frame_exec_pipeline (NewDocPipeline _ _)).
  - intros w. by apply doc_frame_keeps_document, (doc_frame_exec_pipeline (RunOnDoc _ _)).
  - intros w. by apply doc_frame_keeps_document, (doc_frame_exec_pipeline (RunOnCollection _ _)).
Qed.

(** ** The history of a document *)

Lemma extends_by_nil d st st' : st ⊆ st' → extends_by [] [] d st d st'.
Proof.
  intros Hsub. split_and!; try done.
  - simpl. set_solver.
  - intros label. simpl. by rewrite app_nil_r.
  - intros key. simpl. by rewrite app_nil_r.
  - by intros xa ?%elem_of_nil.
  - constructor.
  - by intros xa ?%elem_of_nil.
Qed.

Lemma extends_by_app adds1 refd1 adds2 refd2 d st d1 st1 d2 st2 :
  extends_by adds1 refd1 d st d1 st1 →
  extends_by adds2 refd2 d1 st1 d2 st2 →
  extends_by (adds1 ++ adds2) (refd1 ++ refd2) d st d2 st2.
Proof.
  intros (Hs1 & Hsub1 & Hids1 & Hl1 & Hk1 & Hst1 & Hnd1 & Hnew1)
         (Hs2 & Hsub2 & Hids2 & Hl2 & Hk2 & Hst2 & Hnd2 & Hnew2).
  split_and!.
  - congruence.
  - by etrans.
  - rewrite Hids2, Hids1, fmap_app, !list_to_set_app_L. set_solver.
  - intros label. by rewrite Hl2, Hl1, filter_app, fmap_app, (assoc_L (++)).
  - intros key. by rewrite Hk2, Hk1, filter_app, fmap_app, (assoc_L (++)).
  - intros xa [Hxa|Hxa]%elem_of_app; [|by apply Hst2].
    eapply lookup_weaken; [by apply Hst1|done].
  - rewrite fmap_app. apply NoDup_app. split_and!; [done| |done].
    intros u Hu1 Hu2. apply list_elem_of_fmap in Hu2 as (xa & -> & Hxa).
    apply (Hnew2 _ Hxa). rewrite Hids1.
    apply elem_of_union_l, elem_of_union_r, elem_of_list_to_set, Hu1.
  - intros xa [Hxa|Hxa]%elem_of_app; [by apply Hnew1|].
    intros Hin. apply (Hnew2 _ Hxa). rewrite Hids1. set_solver.
Qed.

Section history.
Context `{SetOrder} `{AnnotationClasses}.

Lemma extends_by_record d st a annotation st' :
  AnnotationObj.uid a ∉ DocumentObj.annotation_ids d →
  st ⊆ st' → st' !! AnnotationObj.uid a = Some annotation →
  extends_by [(annotation, a)] [] d st (record_annotation a d) st'.
Proof.
  intros Hnew Hsub Hst. split_and!.
  - done.
  - done.
  - simpl. set_solver.
  - intros label. simpl. rewrite index_append_lookup.
    f_equal. rewrite filter_cons, filter_nil. simpl.
    destruct (decide (AnnotationObj.label a = label)); by simplify_eq.
  - intros key. simpl. rewrite index_append_all_lookup by apply set_iter_NoDup.
    rewrite filter_cons, filter_nil. simpl.
    destruct (decide (key ∈ set_iter (AnnotationObj.keys a))) as [Hk|Hk];
      rewrite set_iter_elem_of in Hk.
    + by rewrite decide_True.
    + rewrite decide_False by done. simpl. by rewrite app_nil_r.
  - by intros xa ->%list_elem_of_singleton.
  - apply NoDup_singleton.
  - by intros xa ->%list_elem_of_singleton.
Qed.

Lemma extends_by_refused d st u :
  extends_by [] [u] d st
    (DocumentObj.set_annotation_ids ({[u]} ∪ DocumentObj.annotation_ids d) d) st.
Proof.
  split_and!; try done.
  - simpl. set_solver.
  - intros label. simpl. by rewrite app_nil_r.
  - intros key. simpl. by rewrite app_nil_r.
  - by intros xa ?%elem_of_nil.
  - constructor.
  - by intros xa ?%elem_of_nil.
Qed.

(** One call, seen from document [self]. *)
Lemma exec_document_step c w self d st :
  world_wf w →
  documents w !! self = Some d →
  stores w !! DocumentObj.store d = Some st →
  ∃ d' st',
    documents (exec c w).2 !! self = Some d' ∧
    stores (exec c w).2 !! DocumentObj.store d = Some st' ∧
    extends_by (added_by self c w) (refused_by self c w) d st d' st'.
Proof.
  intros Hwf Hd Hst.
  assert ((∃ annotation, c = AddAnnotation self annotation)
          ∨ (∀ annotation, c ≠ AddAnnotation self annotation))
    as [[annotation ->]|Hc].
  { destruct c; try (by right).
    destruct (decide (self0 = self)) as [->|Hne]; [by eauto|].
    right. by intros ? [= ?]. }
  - unfold added_by, refused_by. simpl.
    destruct (annotations w !! annotation) as [a|] eqn:Ha; cycle 1.
    { destruct (add_annotation_dangling w self annotation) as (e & -> & He); [auto|].
      simpl. exists d, st. split_and!; [done..|].
      destruct e; first [by apply extends_by_nil|by edestruct He]. }
    destruct (defines_id annotation) eqn:Hid; cycle 1.
    { destruct (add_annotation_dangling w self annotation) as (e & -> & He); [auto|].
      simpl. exists d, st. split_and!; [done..|].
      destruct e; first [by apply extends_by_nil|by edestruct He]. }
    rewrite (add_annotation_run _ _ _ _ _ _ Hid Hd Ha Hst). simpl.
    case_decide as Hin.
    { simpl. exists d, st. split_and!; [done..|]. by apply extends_by_nil. }
    destruct (st !! AnnotationObj.uid a) as [r|] eqn:Hr.
    + case_decide as Hr'; simpl.
      * rewrite lookup_insert_eq, decide_True by done.
        eexists _, st. split_and!; [done..|].
        subst r. by apply extends_by_record.
      * rewrite lookup_insert_eq, decide_True by done.
        eexists _, st. split_and!; [done..|]. apply extends_by_refused.
    + simpl. rewrite !lookup_insert_eq, decide_True by done.
      eexists _, _. split_and!; [done..|].
      apply extends_by_record; [done|by apply insert_subseteq|].
      by rewrite lookup_insert_eq.
  - assert (added_by self c w = [] ∧ refused_by self c w = []) as [-> ->].
    { unfold added_by, refused_by. destruct c; try done.
      destruct (decide (self0 = self)) as [->|Hne]; [by destruct (Hc annotation)|].
      split.
      - by destruct (exec _ w).1, (annotations w !! annotation).
      - destruct (exec _ w).1 as [|[]]; done. }
    destruct (stores_grow_exec c w _ _ Hst) as (st' & Hst' & Hsub).
    exists d, st'. split_and!; [|done|by apply extends_by_nil].
    by apply keeps_document_exec.
Qed.

(** A sequence of calls, seen from document [self]. *)
Lemma run_document cs w self d st :
  world_wf w →
  documents w !! self = Some d →
  stores w !! DocumentObj.store d = Some st →
  ∃ d' st',
    documents (run cs w) !! self = Some d' ∧
    stores (run cs w) !! DocumentObj.store d = Some st' ∧
    extends_by (added self cs w) (refused self cs w) d st d' st'.
Proof.
  revert w d st. induction cs as [|c cs IH]; intros w d st Hwf Hd Hst.
  - exists d, st. split_and!; [done..|]. by apply extends_by_nil.
  - destruct (exec_document_step c w self d st Hwf Hd Hst)
      as (d1 & st1 & Hd1 & Hst1 & Hext1).
    destruct (IH (exec c w).2 d1 st1) as (d2 & st2 & Hd2 & Hst2 & Hext2).
    + by apply world_wf_exec.
    + done.
    + destruct Hext1 as (-> & _). done.
    + exists d2, st2. simpl. split_and!; [done| |by eapply extends_by_app].
      destruct Hext1 as (<- & _). done.
Qed.
End history.

(** ** The lookups of a document *)

Lemma stored_items_run w self d st ids :
  documents w !! self = Some d →
  stores w !! DocumentObj.store d = Some st →
  Document.stored_items self ids w = (Return ((λ id, st !! id) <$> ids), w).
Proof.
  intros Hd Hst. unfold Document.stored_items.
  induction ids as [|id ids IH]; [done|]. cbn [list_comp].
  erewrite bind_Return; cycle 1.
  { rewrite (bind_Return _ _ _ _ _ (deref_Some documents _ _ _ Hd)).
    unfold Store.get_data_item.
    by rewrite (bind_Return _ _ _ _ _ (deref_Some stores _ _ _ Hst)). }
  by rewrite (bind_Return _ _ _ _ _ IH).
Qed.

Lemma get_annotations_by_label_run w self d st label :
  documents w !! self = Some d →
  stores w !! DocumentObj.store d = Some st →
  Document.get_annotations_by_label self label w
  = (Return ((λ id, st !! id)
               <$> default [] (DocumentObj.annotation_ids_by_label d !! label)), w).
Proof.
  intros Hd Hst. unfold Document.get_annotations_by_label.
  rewrite (bind_Return _ _ _ _ _ (deref_Some documents _ _ _ Hd)).
  by apply (stored_items_run _ _ d).
Qed.

Lemma get_annotations_by_key_run w self d st key :
  documents w !! self = Some d →
  stores w !! DocumentObj.store d = Some st →
  Document.get_annotations_by_key self key w
  = (Return ((λ id, st !! id)
               <$> default [] (DocumentObj.annotation_ids_by_key d !! key)), w).
Proof.
  intros Hd Hst. unfold Document.get_annotations_by_key.
  rewrite (bind_Return _ _ _ _ _ (deref_Some documents _ _ _ Hd)).
  by apply (stored_items_run _ _ d).
Qed.

Lemma get_annotations_run `{SetOrder} w self d st :
  documents w !! self = Some d →
  stores w !! DocumentObj.store d = Some st →
  Document.get_annotations self w
  = (Return ((λ id, st !! id) <$> set_iter (DocumentObj.annotation_ids d)), w).
Proof.
  intros Hd Hst. unfold Document.get_annotations.
  rewrite (bind_Return _ _ _ _ _ (deref_Some documents _ _ _ Hd)).
  by apply (stored_items_run _ _ d).
Qed.

(** C9.  [get_annotation_by_id(u)] answers [None], without an error, when
    [u] is not in the membership set of the document, whatever the store
    holds under [u]; when [u] is a member it answers what the store holds
    under [u], which in a reachable heap is an annotation whose identifier
    is [u]. *)
Theorem get_annotation_by_id_membership w self d uid :
  documents w !! self = Some d →
  (uid ∉ DocumentObj.annotation_ids d →
     Document.get_annotation_by_id self uid w = (Return None, w))
  ∧ (uid ∈ DocumentObj.annotation_ids d →
     ∀ st, stores w !! DocumentObj.store d = Some st →
       Document.get_annotation_by_id self uid w = (Return (st !! uid), w))
  ∧ (uid ∈ DocumentObj.annotation_ids d →
     world_wf w →
     ∃ r a, Document.get_annotation_by_id self uid w = (Return (Some r), w)
            ∧ annotations w !! r = Some a ∧ AnnotationObj.uid a = uid).
Proof.
  intros Hd.
  assert (uid ∈ DocumentObj.annotation_ids d →
          ∀ st, stores w !! DocumentObj.store d = Some st →
            Document.get_annotation_by_id self uid w = (Return (st !! uid), w)) as Hmem.
  { intros Hin st Hst. unfold Document.get_annotation_by_id.
    rewrite (bind_Return _ _ _ _ _ (deref_Some documents _ _ _ Hd)).
    rewrite decide_False by auto. unfold Store.get_data_item.
    by rewrite (bind_Return _ _ _ _ _ (deref_Some stores _ _ _ Hst)). }
  split_and!; [|done|].
  - intros Hnin. unfold Document.get_annotation_by_id.
    rewrite (bind_Return _ _ _ _ _ (deref_Some documents _ _ _ Hd)).
    by rewrite decide_True.
  - intros Hin [Hstores Hdocs].
    destruct (Hdocs _ _ Hd) as (st & Hst & Hids & _).
    destruct (Hids _ Hin) as [r Hr].
    destruct (Hstores _ _ _ _ Hst Hr) as (a & Ha & Hid).
    exists r, a. by rewrite (Hmem Hin st Hst), Hr.
Qed.

(** ** [Document.add_annotation] *)

Section add_annotation_properties.
Context `{SetOrder} `{AnnotationClasses}.

(** C1.  The code does not do what the claim says.  [add_annotation] starts
    by reading [annotation.id], whereas [Annotation.__init__] sets [uid] and
    nothing under src/ defines [id].  On an annotation object whose class
    defines no [id] the call raises [AttributeError] at this first
    statement, before the membership test: whatever the document and
    whether or not the uid is tracked, there is no duplicate-identity error
    and no success, and the heap is left as it was. *)
Theorem add_annotation_missing_id w self annotation a :
  annotations w !! annotation = Some a →
  defines_id annotation = false →
  Document.add_annotation self annotation w = (Raise missing_id, w)
  ∧ (∀ uid, missing_id ≠ duplicate_annotation uid)
  ∧ (∀ d, documents w !! self = Some d →
       AnnotationObj.uid a ∈ DocumentObj.annotation_ids d →
       Document.add_annotation self annotation w
       ≠ (Raise (duplicate_annotation (AnnotationObj.uid a)), w))
  ∧ (∀ w', Document.add_annotation self annotation w ≠ (Return tt, w')).
Proof.
  intros Ha Hid. rewrite (add_annotation_no_id _ _ _ _ Ha Hid).
  split_and!; [done..|]. by intros w'.
Qed.

(** What [add_annotation] does with an annotation whose class defines [id]:
    it fails with the duplicate-identity error, leaving the heap as it was,
    when the uid is tracked by the document.  Otherwise, when the store
    accepts the annotation (it holds nothing under the uid, or this very
    object), the call succeeds: the uid joins the membership set, the store
    holds the annotation under its uid, the uid is appended to the label
    bucket of the label and to the key bucket of every key, and the other
    buckets are as they were. *)
Lemma add_annotation_with_id w self annotation d a st :
  defines_id annotation = true →
  documents w !! self = Some d →
  annotations w !! annotation = Some a →
  stores w !! DocumentObj.store d = Some st →
  let id := AnnotationObj.uid a in
  (id ∈ DocumentObj.annotation_ids d →
     Document.add_annotation self annotation w
     = (Raise (duplicate_annotation id), w))
  ∧ (id ∉ DocumentObj.annotation_ids d →
     st !! id = None ∨ st !! id = Some annotation →
     ∃ w' d',
       Document.add_annotation self annotation w = (Return tt, w') ∧
       documents w' !! self = Some d' ∧
       DocumentObj.annotation_ids d' = {[id]} ∪ DocumentObj.annotation_ids d ∧
       stores w' !! DocumentObj.store d = Some (<[id := annotation]> st) ∧
       (∀ label,
          default [] (DocumentObj.annotation_ids_by_label d' !! label)
          = default [] (DocumentObj.annotation_ids_by_label d !! label)
            ++ (if decide (label = AnnotationObj.label a) then [id] else [])) ∧
       (∀ key,
          default [] (DocumentObj.annotation_ids_by_key d' !! key)
          = default [] (DocumentObj.annotation_ids_by_key d !! key)
            ++ (if decide (key ∈ AnnotationObj.keys a) then [id] else []))).
Proof.
  intros Hid Hd Ha Hst id.
  rewrite (add_annotation_run _ _ _ _ _ _ Hid Hd Ha Hst). simpl. fold id.
  change (AnnotationObj.uid a) with id.
  split.
  - intros Hin. by rewrite decide_True.
  - intros Hnin Hfree. rewrite decide_False by done.
    assert (∀ label,
      default [] (DocumentObj.annotation_ids_by_label (record_annotation a d) !! label)
      = default [] (DocumentObj.annotation_ids_by_label d !! label)
        ++ (if decide (label = AnnotationObj.label a) then [id] else [])) as Hl.
    { intros label. simpl. rewrite index_append_lookup. f_equal.
      destruct (decide (AnnotationObj.label a = label)), (decide (label = _));
        try done; congruence. }
    assert (∀ key,
      default [] (DocumentObj.annotation_ids_by_key (record_annotation a d) !! key)
      = default [] (DocumentObj.annotation_ids_by_key d !! key)
        ++ (if decide (key ∈ AnnotationObj.keys a) then [id] else [])) as Hk.
    { intros key. simpl. rewrite index_append_all_lookup by apply set_iter_NoDup.
      destruct (decide (key ∈ set_iter (AnnotationObj.keys a))) as [Hin|Hin];
        rewrite set_iter_elem_of in Hin.
      - by rewrite decide_True.
      - rewrite decide_False by done. by rewrite app_nil_r. }
    destruct Hfree as [Hnone|Hsame].
    + rewrite Hnone. eexists _, _. split; [done|]. simpl.
      rewrite !lookup_insert_eq. split_and!; done.
    + rewrite Hsame, decide_True by done. eexists _, _. split; [done|]. simpl.
      rewrite lookup_insert_eq, Hst, insert_id by done. split_and!; done.
Qed.
End add_annotation_properties.

(** ** Items of a store *)

Lemma lookup_items_weaken (st st' : gmap string ref) (l : list string) :
  st ⊆ st' →
  (∀ u, u ∈ l → is_Some (st !! u)) →
  (λ id, st' !! id) <$> l = (λ id, st !! id) <$> l.
Proof.
  intros Hsub Hl. apply Forall_fmap_ext_1, Forall_forall. intros u Hu.
  destruct (Hl u Hu) as [r Hr]. rewrite Hr.
  by apply (lookup_weaken st st').
Qed.

Lemma bucket_tracked ids (m : gmap string (list string)) k :
  index_wf ids m →
  NoDup (default [] (m !! k)) ∧ ∀ u, u ∈ default [] (m !! k) → u ∈ ids.
Proof.
  intros Hwf. destruct (m !! k) as [l|] eqn:Hk; simpl.
  - by apply (Hwf k).
  - split; [constructor|]. by intros u ?%elem_of_nil.
Qed.

Lemma get_annotation_by_id_run w self d st uid :
  documents w !! self = Some d →
  stores w !! DocumentObj.store d = Some st →
  Document.get_annotation_by_id self uid w
  = (Return (if decide (uid ∉ DocumentObj.annotation_ids d) then None else st !! uid), w).
Proof.
  intros Hd Hst. unfold Document.get_annotation_by_id.
  rewrite (bind_Return _ _ _ _ _ (deref_Some documents _ _ _ Hd)).
  case_decide; [done|]. unfold Store.get_data_item.
  by rewrite (bind_Return _ _ _ _ _ (deref_Some stores _ _ _ Hst)).
Qed.

(** The items a store holds under identifiers it has. *)
Lemma tracked_items w s st (l : list string) :
  stores_wf w →
  stores w !! s = Some st →
  NoDup l →
  (∀ u, u ∈ l → is_Some (st !! u)) →
  ∃ rs, (λ id, st !! id) <$> l = Some <$> rs ∧
        NoDup rs ∧ length rs = length l ∧
        ∀ r, r ∈ rs ↔ ∃ u, u ∈ l ∧ st !! u = Some r.
Proof.
  intros Hwf Hst. induction l as [|u l IH]; intros Hnd Hl.
  - exists []. split_and!; [done|constructor|done|].
    intros r. split; [by intros ?%elem_of_nil|].
    by intros (u & ?%elem_of_nil & _).
  - apply NoDup_cons in Hnd as [Hu Hnd].
    destruct IH as (rs & Hrs & Hnd' & Hlen & Hin); [done| |].
    { intros u' Hu'. apply Hl. by right. }
    destruct (Hl u) as [r Hr]; [by left|].
    exists (r :: rs). split_and!.
    + rewrite !fmap_cons. by rewrite Hr, Hrs.
    + apply NoDup_cons. split; [|done].
      intros (u' & Hu' & Hr')%Hin.
      destruct (Hwf _ _ _ _ Hst Hr) as (a & Ha & Hid).
      destruct (Hwf _ _ _ _ Hst Hr') as (a' & Ha' & Hid').
      assert (u' = u) as -> by congruence. done.
    + simpl. by rewrite Hlen.
    + intros r'. rewrite elem_of_cons, Hin. split.
      * intros [->|(u' & Hu' & Hr')].
        -- exists u. split; [by left|done].
        -- exists u'. split; [by right|done].
      * intros (u' & [->|Hu']%elem_of_cons & Hr').
        -- left. congruence.
        -- right. by exists u'.
Qed.

(** ** The order of the lists a document returns *)

Lemma document_init_fresh w doc_id metadata store self w0 :
  Document.__init__ doc_id metadata store w = (Return self, w0) →
  match store with Some s => is_Some (stores w !! s) | None => True end →
  ∃ d st,
    documents w0 !! self = Some d ∧
    stores w0 !! DocumentObj.store d = Some st ∧
    DocumentObj.annotation_ids d = ∅ ∧
    DocumentObj.annotation_ids_by_label d = ∅ ∧
    DocumentObj.annotation_ids_by_key d = ∅.
Proof.
  unfold Document.__init__. intros Hinit Hstore.
  assert (∃ i w1, match doc_id with None => Id.generate_id | Some i => ret i end w
                  = (Return i, w1) ∧ stores w1 = stores w)
    as (i & w1 & Hi & Hs1).
  { destruct doc_id; simpl; by eauto. }
  rewrite (bind_Return _ _ _ _ _ Hi) in Hinit.
  destruct store as [s|]; simpl in Hinit.
  - injection Hinit as <- <-. destruct Hstore as [st Hst].
    exists (DocumentObj.mk i s true ∅ ∅ ∅ (default [] metadata)), st.
    split_and!; try done.
    + apply lookup_insert_eq.
    + simpl. by rewrite Hs1.
  - injection Hinit as <- <-.
    exists (DocumentObj.mk i (new_ref (stores w1)) false ∅ ∅ ∅ (default [] metadata)), ∅.
    split_and!; try done; apply lookup_insert_eq.
Qed.

Lemma items_added (st : gmap string ref) (l : list (ref * AnnotationObj.t)) :
  (∀ xa, xa ∈ l → st !! AnnotationObj.uid xa.2 = Some xa.1) →
  (λ id, st !! id) <$> (AnnotationObj.uid ∘ snd <$> l) = Some ∘ fst <$> l.
Proof.
  intros Hl. rewrite <-list_fmap_compose. apply list_fmap_ext.
  intros i xa Hxa. simpl. apply Hl. by eapply list_elem_of_lookup_2.
Qed.

Lemma count_once {A} `{EqDecision A} (l : list A) (x : A) :
  NoDup l → x ∈ l → length (filter (λ y, y = x) l) = 1.
Proof.
  induction 1 as [|y l Hy Hnd IH]; [by intros ?%elem_of_nil|].
  rewrite filter_cons. intros [Heq|Hx]%elem_of_cons.
  - subst y. rewrite decide_True by done. simpl. f_equal.
    assert (filter (λ y, y = x) l = []) as ->; [|done].
    clear -Hy. induction l as [|z l IH]; [done|].
    apply not_elem_of_cons in Hy as [? ?].
    rewrite filter_cons, decide_False by done. auto.
  - rewrite decide_False; [by apply IH|]. by intros ->.
Qed.

Section order.
Context `{SetOrder} `{AnnotationClasses}.

(** A document seen from its construction on: its lists after the calls
    [cs], in terms of the annotations added in between. *)
Lemma document_history cs0 doc_id metadata store self w0 cs :
  Document.__init__ doc_id metadata store (run cs0 empty_world) = (Return self, w0) →
  match store with
  | Some s => is_Some (stores (run cs0 empty_world) !! s)
  | None => True
  end →
  let w := run cs w0 in
  let log := added self cs w0 in
  ∃ d st,
    documents w !! self = Some d ∧
    stores w !! DocumentObj.store d = Some st ∧
    world_wf w ∧
    DocumentObj.annotation_ids d
    = list_to_set (AnnotationObj.uid ∘ snd <$> log) ∪ list_to_set (refused self cs w0) ∧
    (∀ label,
       default [] (DocumentObj.annotation_ids_by_label d !! label)
       = AnnotationObj.uid ∘ snd
           <$> filter (λ xa, AnnotationObj.label xa.2 = label) log) ∧
    (∀ key,
       default [] (DocumentObj.annotation_ids_by_key d !! key)
       = AnnotationObj.uid ∘ snd
           <$> filter (λ xa, key ∈ AnnotationObj.keys xa.2) log) ∧
    NoDup (AnnotationObj.uid ∘ snd <$> log) ∧
    NoDup (Some ∘ fst <$> log) ∧
    (∀ xa, xa ∈ log → st !! AnnotationObj.uid xa.2 = Some xa.1).
Proof.
  intros Hinit Hstore w log.
  assert (world_wf w0) as Hwf0.
  { pose proof (world_wf_document_init (run cs0 empty_world) doc_id metadata store) as Hw.
    rewrite Hinit in Hw. apply Hw; [|done]. apply world_wf_run, world_wf_empty. }
  assert (world_wf w) as Hwf by (by apply world_wf_run).
  destruct (document_init_fresh _ _ _ _ _ _ Hinit Hstore)
    as (d0 & st0 & Hd0 & Hst0 & Hids0 & Hl0 & Hk0).
  destruct (run_document cs w0 self d0 st0 Hwf0 Hd0 Hst0)
    as (d & st & Hd & Hst & Hs & Hsub & Hids & Hl & Hk & Hitems & Hnd & _).
  fold w in Hd, Hst. fold log in Hids, Hl, Hk, Hitems, Hnd.
  rewrite <-Hs in Hst.
  exists d, st. split_and!; try done.
  - rewrite Hids, Hids0. by rewrite (left_id_L ∅ (∪)).
  - intros label. rewrite Hl, Hl0, lookup_empty. done.
  - intros key. rewrite Hk, Hk0, lookup_empty. done.
  - rewrite <-(items_added st log Hitems).
    apply NoDup_fmap_2_strong; [|done].
    intros u1 u2 (xa1 & -> & Hxa1)%list_elem_of_fmap (xa2 & -> & Hxa2)%list_elem_of_fmap.
    simpl. rewrite (Hitems _ Hxa1), (Hitems _ Hxa2). intros [= Heq].
    destruct (proj1 Hwf _ _ _ _ Hst (Hitems _ Hxa1)) as (a1 & Ha1 & Hu1).
    destruct (proj1 Hwf _ _ _ _ Hst (Hitems _ Hxa2)) as (a2 & Ha2 & Hu2).
    rewrite Heq in Ha1. congruence.
Qed.


(** C5.  Take a document from its construction on and an annotation
    [add_annotation] added to it at some point.  In every state the
    document is in afterwards, whatever calls have followed,
    [get_annotations_by_label] of the label of the annotation holds the
    annotation exactly once and, for every key the annotation had when it
    was added, [get_annotations_by_key] of that key holds it exactly
    once. *)
Theorem index_consistency cs0 doc_id metadata store self w0 cs annotation a :
  Document.__init__ doc_id metadata store (run cs0 empty_world) = (Return self, w0) →
  match store with
  | Some s => is_Some (stores (run cs0 empty_world) !! s)
  | None => True
  end →
  (annotation, a) ∈ added self cs w0 →
  let w := run cs w0 in
  (∃ l, Document.get_annotations_by_label self (AnnotationObj.label a) w
        = (Return l, w)
        ∧ length (filter (λ x, x = Some annotation) l) = 1)
  ∧ (∀ key, key ∈ AnnotationObj.keys a →
     ∃ l, Document.get_annotations_by_key self key w = (Return l, w)
          ∧ length (filter (λ x, x = Some annotation) l) = 1).
Proof.
  intros Hinit Hstore Hadded w.
  destruct (document_history _ _ _ _ _ _ cs Hinit Hstore)
    as (d & st & Hd & Hst & Hwf & Hids & Hl & Hk & Hnd & Hnd' & Hheld).
  fold w in Hd, Hst, Hwf.
  assert (∀ P `{!∀ xa, Decision (P xa)},
            (λ id, st !! id)
              <$> (AnnotationObj.uid ∘ snd <$> filter P (added self cs w0))
            = Some ∘ fst <$> filter P (added self cs w0)) as Hfilter.
  { intros P ?. apply items_added. intros xa [_ Hxa]%list_elem_of_filter. auto. }
  assert (∀ P `{!∀ xa, Decision (P xa)},
            P (annotation, a) →
            length (filter (λ x, x = Some annotation)
                      (Some ∘ fst <$> filter P (added self cs w0))) = 1) as Honce.
  { intros P ? HP. apply count_once.
    - eapply sublist_NoDup; [exact Hnd'|]. apply fmap_sublist, sublist_filter.
    - apply (list_elem_of_fmap_2 (Some ∘ fst) _ (annotation, a)).
      by apply list_elem_of_filter. }
  split.
  - eexists. rewrite (get_annotations_by_label_run _ _ _ _ _ Hd Hst).
    split; [done|]. rewrite Hl, Hfilter. by apply Honce.
  - intros key Hkey. eexists.
    rewrite (get_annotations_by_key_run _ _ _ _ _ Hd Hst).
    split; [done|]. rewrite Hk, Hfilter. by apply Honce.
Qed.
End order.

(** ** [Annotation.add_key], [Annotation.keep_keys] *)

Lemma modify_annotation_run w r o f :
  annotations w !! r = Some o →
  modify_annotation r f w
  = (Return tt, set_annotations (<[r := f o]> (annotations w)) w).
Proof.
  intros Ho. unfold modify_annotation.
  by rewrite (bind_Return _ _ _ _ _ (deref_Some annotations _ _ _ Ho)).
Qed.

(** What the lookups of a document answer depends on the documents and the
    stores only. *)
Lemma stored_items_eval w self ids :
  Document.stored_items self ids w
  = match ids, documents w !! self with
    | [], _ => (Return [], w)
    | _, None => (Raise InvalidReference, w)
    | _, Some d =>
        match stores w !! DocumentObj.store d with
        | None => (Raise InvalidReference, w)
        | Some st => (Return ((λ id, st !! id) <$> ids), w)
        end
    end.
Proof.
  destruct ids as [|id ids]; [done|].
  destruct (documents w !! self) as [d|] eqn:Hd.
  - destruct (stores w !! DocumentObj.store d) as [st|] eqn:Hst.
    + by apply (stored_items_run _ _ d).
    + unfold Document.stored_items. cbn [list_comp].
      erewrite bind_Raise; [done|].
      rewrite (bind_Return _ _ _ _ _ (deref_Some documents _ _ _ Hd)).
      unfold Store.get_data_item.
      by rewrite (bind_Raise _ _ _ _ _ (deref_None stores _ _ Hst)).
  - unfold Document.stored_items. cbn [list_comp].
    erewrite bind_Raise; [done|].
    by rewrite (bind_Raise _ _ _ _ _ (deref_None documents _ _ Hd)).
Qed.

Lemma stored_items_same w w' self ids :
  documents w' = documents w → stores w' = stores w →
  (Document.stored_items self ids w').1 = (Document.stored_items self ids w).1.
Proof.
  intros Hd Hs. rewrite !stored_items_eval, Hd.
  destruct ids; [done|]. destruct (documents w !! self) as [d|]; [|done].
  rewrite Hs. by destruct (stores w !! _).
Qed.

Lemma lookups_same `{SetOrder} w w' self :
  documents w' = documents w → stores w' = stores w →
  (Document.get_annotations self w').1 = (Document.get_annotations self w).1
  ∧ (∀ key, (Document.get_annotations_by_key self key w').1
            = (Document.get_annotations_by_key self key w).1)
  ∧ (∀ label, (Document.get_annotations_by_label self label w').1
              = (Document.get_annotations_by_label self label w).1)
  ∧ (∀ uid, (Document.get_annotation_by_id self uid w').1
            = (Document.get_annotation_by_id self uid w).1).
Proof.
  intros Hd Hs.
  unfold Document.get_annotations, Document.get_annotations_by_key,
    Document.get_annotations_by_label, Document.get_annotation_by_id,
    Store.get_data_item, bind, get_document, get_store, deref, ret.
  rewrite Hd. destruct (documents w !! self) as [d|]; [|done].
  split_and!; try intros ?; try apply stored_items_same; try done.
  case_decide; [done|]. rewrite Hs. by destruct (stores w !! _).
Qed.

(** C6.  [ann.add_key(k)] and [ann.keep_keys(ks)] return and change keys
    only: afterwards the keys of the annotation are its former keys with [k]
    added, respectively its former keys that are in [ks], and nothing else
    has changed.  In particular no document and no store changes, so the
    label index and the key index of every document are as they were, and
    [get_annotations_by_key], [get_annotations_by_label],
    [get_annotations] and [get_annotation_by_id] answer what they answered
    before the call: the annotation is not added to, removed from or moved
    between key buckets. *)
Theorem keys_change_leaves_documents `{SetOrder} w annotation a :
  annotations w !! annotation = Some a →
  let unchanged (w' : World) :=
    only_keys_change w w' ∧
    ∀ self,
      (∀ key, key_bucket w' self key = key_bucket w self key) ∧
      (∀ label, label_bucket w' self label = label_bucket w self label) ∧
      (∀ key, (Document.get_annotations_by_key self key w').1
              = (Document.get_annotations_by_key self key w).1) ∧
      (∀ label, (Document.get_annotations_by_label self label w').1
                = (Document.get_annotations_by_label self label w).1) ∧
      (Document.get_annotations self w').1 = (Document.get_annotations self w).1 ∧
      (∀ uid, (Document.get_annotation_by_id self uid w').1
              = (Document.get_annotation_by_id self uid w).1) in
  (∀ key, ∃ w' a',
     Annotation.add_key annotation key w = (Return tt, w') ∧
     annotations w' !! annotation = Some a' ∧
     AnnotationObj.keys a' = {[key]} ∪ AnnotationObj.keys a ∧
     unchanged w')
  ∧ (∀ ks, ∃ w' a',
       Annotation.keep_keys annotation ks w = (Return tt, w') ∧
       annotations w' !! annotation = Some a' ∧
       AnnotationObj.keys a' = AnnotationObj.keys a ∩ ks ∧
       unchanged w').
Proof.
  intros Ha unchanged.
  assert (∀ f : AnnotationObj.t → gset string,
            let w' := set_annotations
                        (<[annotation := AnnotationObj.set_keys (f a) a]> (annotations w))
                        w in
            annotations w' !! annotation = Some (AnnotationObj.set_keys (f a) a) ∧
            unchanged w') as Hframe.
  { intros f w'. split; [apply lookup_insert_eq|]. split.
    - split_and!; try done. intros r. simpl.
      destruct (decide (r = annotation)) as [->|Hne].
      + by rewrite lookup_insert_eq, Ha.
      + rewrite lookup_insert_ne by done. by destruct (annotations w !! r).
    - intros self.
      destruct (lookups_same w w' self) as (? & ? & ? & ?); [done..|].
      split_and!; done. }
  split.
  - intros key. eexists _, _. unfold Annotation.add_key.
    rewrite (modify_annotation_run _ _ a _ Ha). split; [done|].
    destruct (Hframe (λ s, {[key]} ∪ AnnotationObj.keys s)) as [Ha' Hun].
    split; [exact Ha'|]. split; [done|exact Hun].
  - intros ks. eexists _, _. unfold Annotation.keep_keys.
    rewrite (modify_annotation_run _ _ a _ Ha). split; [done|].
    destruct (Hframe (λ s, AnnotationObj.keys s ∩ ks)) as [Ha' Hun].
    split; [exact Ha'|]. split; [done|exact Hun].
Qed.

(** ** [Attribute.to_dict], [Attribute.from_dict] *)

(** C7.  For every attribute [x], [Attribute.from_dict(x.to_dict())] builds
    an attribute whose [to_dict()] is equal to [x.to_dict()]: the same uid,
    label, value and metadata. *)
Theorem attribute_round_trip w x o :
  attributes w !! x = Some o →
  ∃ dict y w',
    Attribute.to_dict x w = (Return dict, w) ∧
    Attribute.from_dict dict w = (Return y, w') ∧
    Attribute.to_dict y w' = (Return dict, w') ∧
    attributes w' !! y = Some o.
Proof.
  intros Hx.
  exists [("uid", PyStr (AttributeObj.uid o)); ("label", PyStr (AttributeObj.label o));
          ("value", AttributeObj.value o); ("metadata", PyDict (AttributeObj.metadata o))],
         (new_ref (attributes w)),
         (set_attributes (<[new_ref (attributes w) := o]> (attributes w)) w).
  split_and!.
  - unfold Attribute.to_dict.
    by rewrite (bind_Return _ _ _ _ _ (deref_Some attributes _ _ _ Hx)).
  - destruct o. reflexivity.
  - unfold Attribute.to_dict.
    erewrite bind_Return; [|apply deref_Some, lookup_insert_eq]. done.
  - apply lookup_insert_eq.
Qed.

(** ** [DocPipeline.run_on_collection] *)

Lemma run_on_collection_raises w self doc docs :
  DocPipeline.run_on_collection self (CollectionObj.mk (doc :: docs)) w
  = (Raise (AttributeError "'DocPipeline' object has no attribute 'run_on_document'"), w).
Proof. reflexivity. Qed.

Lemma run_on_collection_empty w self :
  DocPipeline.run_on_collection self (CollectionObj.mk []) w = (Return tt, w).
Proof. reflexivity. Qed.

(** ** [DocPipeline.run_on_doc] *)

Section odict_more.
Context {V : Type}.
Implicit Types (d : odict V) (k : string) (v : V).

Lemma odict_set_app_r k v v' d :
  k ∉ odict_keys d → odict_set k v' (d ++ [(k, v)]) = d ++ [(k, v')].
Proof.
  unfold odict_keys. induction d as [|[k0 v0] d IH]; simpl.
  - intros _. by rewrite decide_True.
  - rewrite not_elem_of_cons. intros [? ?]. rewrite decide_False by done.
    by rewrite IH.
Qed.
End odict_more.

Lemma collect_fold input_key (acc : odict (list (option ref))) lists :
  input_key ∉ odict_keys acc →
  foldl (collect_step input_key) acc lists
  = match lists with
    | [] => acc
    | _ => acc ++ [(input_key, concat lists)]
    end.
Proof.
  intros Hk.
  assert (∀ v ls, foldl (collect_step input_key) (acc ++ [(input_key, v)]) ls
                  = acc ++ [(input_key, v ++ concat ls)]) as Hrest.
  { intros v ls. revert v. induction ls as [|l ls IH]; intros v; simpl.
    - by rewrite app_nil_r.
    - unfold collect_step at 2. rewrite odict_get_app_r, odict_set_app_r by done.
      by rewrite IH, (assoc_L (++)). }
  destruct lists as [|l ls]; [done|]. simpl.
  unfold collect_step at 2. rewrite odict_get_None, odict_set_new by done.
  apply Hrest.
Qed.

Section run_on_doc.
Context (w : World) (doc : ref) (d : DocumentObj.t) (st : gmap string ref).
Hypothesis Hd : documents w !! doc = Some d.
Hypothesis Hst : stores w !! DocumentObj.store d = Some st.

Lemma get_annotations_by_label_labelled label :
  Document.get_annotations_by_label doc label w = (Return (labelled w doc label), w).
Proof.
  rewrite (get_annotations_by_label_run _ _ _ _ _ Hd Hst).
  unfold labelled, items_of, label_bucket. by rewrite Hd, Hst.
Qed.

Lemma collect_label_run input_key label acc :
  DocPipeline.collect_label doc input_key label acc w
  = (Return (collect_step input_key acc (labelled w doc label)), w).
Proof.
  unfold DocPipeline.collect_label, collect_step, odict_mem.
  destruct (odict_get input_key acc) as [old|] eqn:Hold.
  - rewrite bool_decide_eq_true_2 by eauto. simpl.
    by rewrite (bind_Return _ _ _ _ _ (get_annotations_by_label_labelled label)).
  - rewrite bool_decide_eq_false_2 by (by intros [? ?]). simpl.
    by rewrite (bind_Return _ _ _ _ _ (get_annotations_by_label_labelled label)).
Qed.

Lemma inner_loop_run input_key labels acc :
  DocPipeline.for_fold labels (DocPipeline.collect_label doc input_key) acc w
  = (Return (foldl (collect_step input_key) acc (labelled w doc <$> labels)), w).
Proof.
  revert acc. induction labels as [|label labels IH]; intros acc; [done|].
  cbn [DocPipeline.for_fold].
  rewrite (bind_Return _ _ _ _ _ (collect_label_run input_key label acc)).
  by rewrite IH.
Qed.

Lemma outer_loop_run (items : odict (list string)) acc :
  NoDup (odict_keys acc ++ odict_keys items) →
  DocPipeline.for_fold items
    (λ item acc, DocPipeline.for_fold item.2
                   (DocPipeline.collect_label doc item.1) acc) acc w
  = (Return (acc ++ ((λ item, (item.1, gathered w doc item.2))
                       <$> filter (λ item, item.2 ≠ []) items)), w).
Proof.
  revert acc. induction items as [|[k labels] items IH]; intros acc Hnd.
  - simpl. by rewrite app_nil_r.
  - cbn [DocPipeline.for_fold].
    erewrite bind_Return; [|apply inner_loop_run].
    assert (k ∉ odict_keys acc) as Hk.
    { apply NoDup_app in Hnd as (_ & Hdisj & _). intros Hin.
      apply (Hdisj _ Hin). left. }
    rewrite collect_fold by done. cbn [fst snd].
    destruct labels as [|label labels].
    + rewrite filter_cons, decide_False by (by intros ?).
      apply IH. revert Hnd. unfold odict_keys. rewrite fmap_cons.
      rewrite !NoDup_app, NoDup_cons. intros (? & Hdisj & ? & ?).
      split_and!; [done| |done]. intros x Hx Hx'. apply (Hdisj x Hx). by right.
    + rewrite fmap_cons. cbv iota. rewrite IH.
      * rewrite filter_cons, decide_True by done.
        by rewrite <-(assoc_L (++)).
      * revert Hnd. unfold odict_keys. rewrite !fmap_app, !fmap_cons.
        by rewrite <-(assoc_L (++)).
Qed.

Lemma gather_run (items : odict (list string)) :
  NoDup (odict_keys items) →
  ∃ all_input_anns,
    DocPipeline.for_fold items
      (λ item acc, DocPipeline.for_fold item.2
                     (DocPipeline.collect_label doc item.1) acc) [] w
    = (Return all_input_anns, w)
    ∧ odict_values all_input_anns = process_arguments w doc items.
Proof.
  intros Hnd. eexists. split; [by apply outer_loop_run|].
  clear Hnd. unfold odict_values, process_arguments. rewrite app_nil_l.
  induction items as [|[k labels] items IH]; [done|].
  rewrite fmap_cons, !filter_cons. cbn [fst snd].
  destruct (decide (labels ≠ [])); simpl; [f_equal|]; apply IH.
Qed.
End run_on_doc.

Lemma modify_pipeline_run w r p f :
  pipelines w !! r = Some p →
  modify_pipeline r f w = (Return tt, set_pipelines (<[r := f p]> (pipelines w)) w).
Proof.
  intros Hp. unfold modify_pipeline.
  by rewrite (bind_Return _ _ _ _ _ (deref_Some pipelines _ _ _ Hp)).
Qed.

Lemma run_on_doc_run w self doc s p d st :
  doc_pipelines w !! self = Some s →
  pipelines w !! DocPipelineObj._pipeline s = Some p →
  documents w !! doc = Some d →
  stores w !! DocumentObj.store d = Some st →
  NoDup (odict_keys (DocPipelineObj.labels_by_input_key s)) →
  DocPipeline.run_on_doc self doc w
  = (Return tt,
     set_pipelines
       (<[DocPipelineObj._pipeline s :=
            PipelineObj.mk (PipelineObj.steps p) (PipelineObj.input_keys p)
              (PipelineObj.output_keys p) (Some doc)
              (PipelineObj.invocations p
               ++ [(Some doc,
                    process_arguments w doc (DocPipelineObj.labels_by_input_key s))])]>
          (pipelines w)) w).
Proof.
  intros Hs Hp Hd Hst Hnd. unfold DocPipeline.run_on_doc.
  rewrite (bind_Return _ _ _ _ _ (deref_Some doc_pipelines _ _ _ Hs)).
  destruct (gather_run w doc d st Hd Hst _ Hnd) as (all & Hall & Hvalues).
  rewrite (bind_Return _ _ _ _ _ Hall).
  rewrite (bind_Return _ _ _ _ _ (deref_Some doc_pipelines _ _ _ Hs)).
  unfold Pipeline.set_doc, Pipeline.process.
  erewrite bind_Return; [|by apply modify_pipeline_run].
  erewrite bind_Return; [|by apply deref_Some].
  erewrite modify_pipeline_run; [|apply lookup_insert_eq].
  simpl. rewrite Hvalues. unfold set_pipelines. simpl. by rewrite insert_insert_eq.
Qed.

(** [DocPipeline.__init__] builds a pipeline whose declared input keys are
    the keys of the mapping, in their order, and whose declared output keys
    are empty; no document is bound to it yet. *)
Lemma doc_pipeline_init_run w steps labels_by_input_key :
  ∃ self p steps' w',
    DocPipeline.__init__ steps labels_by_input_key w = (Return self, w') ∧
    doc_pipelines w' !! self = Some (DocPipelineObj.mk p labels_by_input_key) ∧
    pipelines w' !! p
    = Some (PipelineObj.mk steps' (odict_keys labels_by_input_key) [] None []).
Proof.
  eexists _, _, _, _. unfold DocPipeline.__init__, bind. simpl.
  split; [reflexivity|]. split; apply lookup_insert_eq.
Qed.

(** When every input key has at least one label, [process] receives one
    list per declared input key, in the order of the keys: the annotations
    of the document for the labels of the key, label after label. *)
Lemma process_arguments_all w doc (labels_by_input_key : odict (list string)) :
  Forall (λ labels, labels ≠ []) labels_by_input_key.*2 →
  process_arguments w doc labels_by_input_key
  = gathered w doc <$> labels_by_input_key.*2.
Proof.
  unfold process_arguments. generalize (labels_by_input_key.*2). intros l.
  induction 1 as [|labels l Hne _ IH]; [done|].
  rewrite filter_cons, decide_True by done. by rewrite !fmap_cons, IH.
Qed.


(** ** The statements at work on the example heaps *)

Section examples.
Import Examples MoreExamples.
Local Existing Instance elements_order.
Local Existing Instance id_classes.

(** C1 at work.  With the classes under src/ alone, the first document of
    [src_world] tracks nothing and adding the annotation of uid "u" to it
    raises [AttributeError]; the heap stays as it was. *)
Lemma add_annotation_missing_id_witness :
  let a := AnnotationObj.mk "u" "disease" {["entities"]} [] [] ∅ in
  annotations src_world !! 1%positive = Some a
  ∧ @defines_id src_classes 1%positive = false
  ∧ DocumentObj.annotation_ids <$> documents src_world !! 1%positive = Some ∅
  ∧ @Document.add_annotation elements_order src_classes 1 1 src_world
    = (Raise missing_id, src_world).
Proof.
  intros a.
  assert (annotations src_world !! 1%positive = Some a) as Ha
    by (vm_compute; reflexivity).
  assert (@defines_id src_classes 1%positive = false) as Hid by reflexivity.
  do 2 (split; [assumption|]).
  split; [vm_compute; reflexivity|].
  exact (proj1 (@add_annotation_missing_id elements_order src_classes
                  src_world 1 1 a Ha Hid)).
Defined.



Lemma add_attr_duplicate_uid_witness :
  let s := AnnotationObj.mk "a1" "disease" {["entities"]} [] [] ∅ in
  let a := AttributeObj.mk "t1" "is_negated" (PyBool true) [] in
  let w1 := (Annotation.add_attr 1 1 attr_world).2 in
  annotations attr_world !! 1%positive = Some s
  ∧ attributes attr_world !! 1%positive = Some a
  ∧ Annotation.add_attr 1 1 attr_world = (Return tt, w1)
  ∧ Annotation.add_attr 1 1 w1 = (Raise (duplicate_attribute "t1"), w1)
  ∧ Annotation.add_attr 1 2 w1 = (Raise (duplicate_attribute "t1"), w1)
  ∧ attributes w1 = attributes attr_world.
Proof.
  intros s a w1.
  assert (annotations attr_world !! 1%positive = Some s) as Hs
    by (vm_compute; reflexivity).
  assert (attributes attr_world !! 1%positive = Some a) as Ha
    by (vm_compute; reflexivity).
  assert (Annotation.add_attr 1 1 attr_world = (Return tt, w1)) as Hadd
    by (vm_compute; reflexivity).
  destruct (add_attr_duplicate_uid attr_world 1 1 s a Hs Ha)
    as (_ & Hsecond & _ & Hattrs).
  do 3 (split; [assumption|]).
  split; [|split].
  - apply (Hsecond w1 Hadd 1%positive a); [vm_compute|]; reflexivity.
  - apply (Hsecond w1 Hadd 2%positive (AttributeObj.mk "t1" "is_negated" (PyBool false) []));
      [vm_compute|]; reflexivity.
  - exact Hattrs.
Defined.

Lemma index_consistency_witness :
  let a := AnnotationObj.mk "a" "sentence" {["sentences"]} [] [] ∅ in
  let w := run later_calls order_start in
  Document.__init__ (Some "doc") None None (run order_prefix empty_world)
  = (Return 1%positive, order_start)
  ∧ (1%positive, a) ∈ added 1 later_calls order_start
  ∧ AnnotationObj.keys <$> annotations w !! 1%positive = Some ∅
  ∧ (∃ l, Document.get_annotations_by_label 1 "sentence" w = (Return l, w)
          ∧ length (filter (λ x, x = Some 1%positive) l) = 1)
  ∧ (∃ l, Document.get_annotations_by_key 1 "sentences" w = (Return l, w)
          ∧ length (filter (λ x, x = Some 1%positive) l) = 1).
Proof.
  intros a w.
  assert (Document.__init__ (Some "doc") None None (run order_prefix empty_world)
          = (Return 1%positive, order_start)) as Hinit by (vm_compute; reflexivity).
  assert ((1%positive, a) ∈ added 1 later_calls order_start) as Hadded.
  { assert (added 1 later_calls order_start
            = [(1%positive, a);
               (2%positive, AnnotationObj.mk "c" "sentence" {["sentences"]} [] [] ∅)])
      as -> by (vm_compute; reflexivity).
    apply list_elem_of_here. }
  assert (AnnotationObj.keys <$> annotations w !! 1%positive = Some ∅) as Hkeys
    by (vm_compute; reflexivity).
  do 3 (split; [assumption|]).
  destruct (index_consistency order_prefix (Some "doc") None None 1%positive
              order_start later_calls 1%positive a Hinit I Hadded) as [Hlabel Hkey].
  split; [exact Hlabel|]. apply Hkey.
  exact (proj2 (elem_of_singleton "sentences" "sentences") eq_refl).
Defined.

Lemma keys_change_leaves_documents_witness :
  let a := AnnotationObj.mk "u" "disease" {["entities"]} [] [] ∅ in
  annotations shared_world !! 1%positive = Some a
  ∧ (∃ w' a',
       Annotation.add_key 1 "sentences" shared_world = (Return tt, w')
       ∧ annotations w' !! 1%positive = Some a'
       ∧ AnnotationObj.keys a' = {["sentences"]} ∪ {["entities"]}
       ∧ documents w' = documents shared_world
       ∧ key_bucket w' 1 "sentences" = []
       ∧ (Document.get_annotations_by_key 1 "sentences" w').1 = Return [])
  ∧ (∃ w' a',
       Annotation.keep_keys 1 {["sentences"]} shared_world = (Return tt, w')
       ∧ annotations w' !! 1%positive = Some a'
       ∧ AnnotationObj.keys a' = {["entities"]} ∩ {["sentences"]}
       ∧ documents w' = documents shared_world
       ∧ key_bucket w' 1 "entities" = ["u"]
       ∧ (Document.get_annotations_by_key 1 "entities" w').1
         = Return [Some 1%positive]).
Proof.
  intros a.
  assert (annotations shared_world !! 1%positive = Some a) as Ha
    by (vm_compute; reflexivity).
  destruct (keys_change_leaves_documents shared_world 1 a Ha) as (Hadd & Hkeep).
  split; [exact Ha|]. split.
  - destruct (Hadd "sentences")
      as (w' & a' & Hrun & Ha' & Hkeys & (Hdocs & _) & Hlookups).
    destruct (Hlookups 1%positive) as (Hbucket & _ & Hby_key & _).
    exists w', a'. do 4 (split; [assumption|]). split.
    + etrans; [apply Hbucket|]. vm_compute; reflexivity.
    + etrans; [apply Hby_key|]. vm_compute; reflexivity.
  - destruct (Hkeep {["sentences"]})
      as (w' & a' & Hrun & Ha' & Hkeys & (Hdocs & _) & Hlookups).
    destruct (Hlookups 1%positive) as (Hbucket & _ & Hby_key & _).
    exists w', a'. do 4 (split; [assumption|]). split.
    + etrans; [apply Hbucket|]. vm_compute; reflexivity.
    + etrans; [apply Hby_key|]. vm_compute; reflexivity.
Defined.

Lemma attribute_round_trip_witness :
  let o := AttributeObj.mk "t2" "is_family" (PyBool true) [("source", PyStr "rule")] in
  attributes attr_world !! 3%positive = Some o
  ∧ ∃ dict y w',
      Attribute.to_dict 3 attr_world = (Return dict, attr_world) ∧
      Attribute.from_dict dict attr_world = (Return y, w') ∧
      Attribute.to_dict y w' = (Return dict, w') ∧
      attributes w' !! y = Some o.
Proof.
  intros o.
  assert (attributes attr_world !! 3%positive = Some o) as Ho
    by (vm_compute; reflexivity).
  split; [exact Ho|]. exact (attribute_round_trip attr_world 3 o Ho).
Defined.

Lemma get_annotation_by_id_membership_witness :
  let d2 := DocumentObj.mk "doc2" 1 true ∅ ∅ ∅ [] in
  let d1 := DocumentObj.mk "doc1" 1 true {["u"]} {["disease" := ["u"]]}
              {["entities" := ["u"]]} [] in
  let st : gmap string ref := {["u" := 1%positive]} in
  documents shared_world !! 2%positive = Some d2
  ∧ documents shared_world !! 1%positive = Some d1
  ∧ stores shared_world !! 1%positive = Some st
  ∧ Document.get_annotation_by_id 2 "u" shared_world = (Return None, shared_world)
  ∧ Document.get_annotation_by_id 1 "u" shared_world
    = (Return (Some 1%positive), shared_world).
Proof.
  intros d2 d1 st.
  assert (documents shared_world !! 2%positive = Some d2) as Hd2
    by (vm_compute; reflexivity).
  assert (documents shared_world !! 1%positive = Some d1) as Hd1
    by (vm_compute; reflexivity).
  assert (stores shared_world !! 1%positive = Some st) as Hst
    by (vm_compute; reflexivity).
  do 3 (split; [assumption|]). split.
  - apply (proj1 (get_annotation_by_id_membership shared_world 2 d2 "u" Hd2)).
    apply not_elem_of_empty.
  - destruct (get_annotation_by_id_membership shared_world 1 d1 "u" Hd1)
      as (_ & Hmem & _).
    apply (Hmem (proj2 (elem_of_singleton "u" "u") eq_refl) st Hst).
Defined.

Lemma annotation_init_attrs_witness :
  Forall (λ x, is_Some (attributes attr_world !! x)) [1%positive; 2%positive; 3%positive]
  ∧ (∃ self w',
       Annotation.__init__ "disease" None (Some [3%positive; 1%positive]) None None
         attr_world = (Return self, w')
       ∧ Annotation.get_attrs self w' = (Return [3%positive; 1%positive], w'))
  ∧ (∃ u w',
       Annotation.__init__ "disease" None (Some [1%positive; 3%positive; 2%positive])
         None None attr_world = (Raise (duplicate_attribute u), w')).
Proof.
  assert (∀ x, x ∈ [1%positive; 2%positive; 3%positive] →
               is_Some (attributes attr_world !! x)) as Hall.
  { intros x Hx. repeat (apply elem_of_cons in Hx as [->|Hx]);
      [vm_compute; eexists; reflexivity..|by apply elem_of_nil in Hx]. }
  assert (∀ l : list ref,
            (∀ x, x ∈ l → x ∈ [1%positive; 2%positive; 3%positive]) →
            Forall (λ x, is_Some (attributes attr_world !! x)) l) as Hsub.
  { intros l Hl. apply Forall_forall. intros x Hx. apply Hall, Hl, Hx. }
  split; [apply Hsub; intros x Hx; exact Hx|]. split.
  - apply (annotation_init_attrs attr_world "disease" None [3%positive; 1%positive]
             None None).
    + apply Hsub. intros x Hx.
      repeat (apply elem_of_cons in Hx as [->|Hx]);
        [repeat constructor..|by apply elem_of_nil in Hx].
    + apply (bool_decide_unpack _). vm_compute. exact I.
  - destruct (annotation_init_attrs attr_world "disease" None
                [1%positive; 3%positive; 2%positive] None None) as [_ Hdup].
    + apply Hsub. intros x Hx.
      repeat (apply elem_of_cons in Hx as [->|Hx]);
        [repeat constructor..|by apply elem_of_nil in Hx].
    + destruct Hdup as (u & w' & _ & Hraise).
      * apply (bool_decide_unpack _). vm_compute. exact I.
      * exists u, w'. exact Hraise.
Defined.

(** C2.  [run_on_collection] does not invoke [run_on_doc]: on every
    collection that is not empty, whatever the heap and the pipeline, it
    raises [AttributeError] at the first document, because it calls
    [self.run_on_document], a name a [DocPipeline] does not have, and it
    leaves the heap as it was.  So it is on the collection of one document
    of [pipeline_world], where the pipeline is never invoked. *)
Theorem run_on_collection_fails :
  (∀ w self doc docs,
     DocPipeline.run_on_collection self (CollectionObj.mk (doc :: docs)) w
     = (Raise (AttributeError "'DocPipeline' object has no attribute 'run_on_document'"),
        w))
  ∧ DocPipeline.run_on_collection 1 (CollectionObj.mk [1%positive]) pipeline_world
    = (Raise (AttributeError "'DocPipeline' object has no attribute 'run_on_document'"),
       pipeline_world)
  ∧ PipelineObj.invocations <$> pipelines pipeline_world !! 1%positive = Some [].
Proof.
  split; [exact run_on_collection_raises|].
  split; [apply run_on_collection_raises|]. vm_compute; reflexivity.
Qed.

(** C8.  [run_on_doc] with the mapping [{"a": [], "b": ["sentence"]}]: the
    pipeline declares the input keys "a" and "b", and [process] receives a
    single positional argument, the list gathered for "b". *)
Lemma run_on_doc_drops_input_key :
  PipelineObj.input_keys <$> pipelines pipeline_world !! 1%positive = Some ["a"; "b"]
  ∧ (DocPipeline.run_on_doc 1 1 pipeline_world).1 = Return tt
  ∧ PipelineObj.invocations
      <$> pipelines (DocPipeline.run_on_doc 1 1 pipeline_world).2 !! 1%positive
    = Some [(Some 1%positive, [[Some 1%positive]])].
Proof. repeat split; vm_compute; reflexivity. Qed.
End examples.

(** ** Calls that leave annotations and attributes alone *)

Global Instance entities_same_preorder : PreOrder entities_same.
Proof.
  split; [by intros w|].
  intros w1 w2 w3 [? ?] [? ?]. split; congruence.
Qed.

(** Going through a computation whose steps all keep a preorder [R]. *)
Ltac frame_steps leaf :=
  repeat first
    [ leaf
    | apply preserves_ret; [apply _]
    | apply preserves_raise; [apply _]
    | apply preserves_deref; [apply _]
    | apply preserves_annotation_id; [apply _]
    | apply preserves_bind; [apply _| |intros ?]
    | apply preserves_for_each; [apply _|intros ?]
    | apply preserves_list_comp; [apply _|intros ?]
    | apply preserves_for_fold; [apply _|intros ? ?]
    | match goal with
      | |- preserves _ (match ?x with _ => _ end) => destruct x
      end ].

Ltac same_leaf :=
  idtac;
  match goal with
  | |- preserves entities_same _ => intros ?; split; reflexivity
  end.

Lemma entities_same_store_data_item self item :
  preserves entities_same (Store.store_data_item self item).
Proof. unfold Store.store_data_item. frame_steps same_leaf. Qed.

Lemma entities_same_add_annotation `{SetOrder} `{AnnotationClasses} self annotation :
  preserves entities_same (Document.add_annotation self annotation).
Proof.
  unfold Document.add_annotation, modify_document.
  frame_steps ltac:(idtac; first [apply entities_same_store_data_item|same_leaf]).
Qed.

Lemma entities_same_document_init doc_id metadata store :
  preserves entities_same (Document.__init__ doc_id metadata store).
Proof. unfold Document.__init__. frame_steps same_leaf. Qed.

Lemma entities_same_run_on_doc self doc :
  preserves entities_same (DocPipeline.run_on_doc self doc).
Proof.
  unfold DocPipeline.run_on_doc, DocPipeline.collect_label,
    Document.get_annotations_by_label, Document.stored_items, Store.get_data_item,
    Pipeline.set_doc, Pipeline.process, modify_pipeline.
  frame_steps same_leaf.
Qed.

Lemma entities_same_run_on_collection self collection :
  preserves entities_same (DocPipeline.run_on_collection self collection).
Proof.
  unfold DocPipeline.run_on_collection, DocPipeline.call_with_doc.
  frame_steps ltac:(idtac; first [apply entities_same_run_on_doc|same_leaf]).
Qed.

Lemma entities_same_exec `{SetOrder} `{AnnotationClasses} c :
  other_call c → preserves entities_same (exec c).
Proof.
  destruct c; try done; intros _; simpl; unfold existing_store;
    frame_steps ltac:(idtac; first
      [ apply entities_same_document_init
      | apply entities_same_store_data_item
      | apply entities_same_add_annotation
      | apply entities_same_run_on_doc
      | apply entities_same_run_on_collection
      | same_leaf ]).
Qed.

(** ** The two indices of an annotation agree *)

Lemma filter_ext_in {A} (P Q : A → Prop) `{!∀ x, Decision (P x)}
    `{!∀ x, Decision (Q x)} (l : list A) :
  (∀ x, x ∈ l → P x ↔ Q x) → filter P l = filter Q l.
Proof.
  induction l as [|x l IH]; intros HPQ; [done|].
  rewrite !filter_cons.
  assert (filter P l = filter Q l) as -> by (apply IH; intros y Hy; apply HPQ; by right).
  pose proof (HPQ x (list_elem_of_here _ _)) as [HPQx HQPx].
  destruct (decide (P x)) as [HP|HP], (decide (Q x)) as [HQ|HQ]; try done.
  - destruct HQ. by apply HPQx.
  - destruct HP. by apply HQPx.
Qed.

Global Instance keeps_annotations_wf_preorder : PreOrder keeps_annotations_wf.
Proof.
  split; [intros w; by unfold keeps_annotations_wf|].
  intros w1 w2 w3. unfold keeps_annotations_wf. auto.
Qed.

Lemma annotation_wf_kept w w' s :
  attributes_kept w w' → annotation_wf w s → annotation_wf w' s.
Proof.
  intros Hkept (Hnd & Huid & Hlabel).
  assert (∀ ur, ur ∈ AnnotationObj._attrs_by_id s →
            attributes w' !! ur.2 = attributes w !! ur.2) as Hsame.
  { intros ur Hur. specialize (Huid ur Hur). unfold attr_uid in Huid.
    destruct (attributes w !! ur.2) as [a|] eqn:Ha; [|done]. by apply Hkept. }
  split_and!; [done| |].
  - intros ur Hur. unfold attr_uid. rewrite (Hsame ur Hur). by apply Huid.
  - intros label. rewrite Hlabel. f_equal. apply filter_ext_in.
    intros ur Hur. unfold attr_label. by rewrite (Hsame ur Hur).
Qed.

Lemma annotations_wf_entities_same w w' :
  entities_same w w' → keeps_annotations_wf w w'.
Proof.
  intros [Ha Hx] Hwf r s. rewrite Ha. intros Hr.
  apply (annotation_wf_kept w); [|by eapply Hwf]. intros r' a. by rewrite Hx.
Qed.

Lemma annotation_wf_attach w s attr a :
  annotation_wf w s →
  attributes w !! attr = Some a →
  AttributeObj.uid a ∉ odict_keys (AnnotationObj._attrs_by_id s) →
  annotation_wf w (attach attr a s).
Proof.
  intros (Hnd & Huid & Hlabel) Ha Hnew.
  assert (AnnotationObj._attrs_by_id (attach attr a s)
          = AnnotationObj._attrs_by_id s ++ [(AttributeObj.uid a, attr)]) as Hattrs
    by (by apply attach_keys).
  split_and!.
  - rewrite Hattrs. unfold odict_keys. rewrite fmap_app. apply NoDup_app.
    split_and!; [done| |apply NoDup_singleton].
    intros u Hu ->%list_elem_of_singleton. done.
  - rewrite Hattrs. intros ur [Hur| ->%list_elem_of_singleton]%elem_of_app.
    + by apply Huid.
    + unfold attr_uid. simpl. by rewrite Ha.
  - intros label. rewrite Hattrs, filter_app, fmap_app. simpl.
    rewrite index_append_lookup, Hlabel. f_equal.
    assert (attr_label w attr = Some (AttributeObj.label a)) as Hlab
      by (unfold attr_label; by rewrite Ha).
    rewrite filter_cons, filter_nil. cbn [snd].
    destruct (decide (AttributeObj.label a = label)) as [<-|Hne].
    + by rewrite decide_True.
    + rewrite decide_False; [done|]. rewrite Hlab. by intros [= ?].
Qed.

Lemma annotations_wf_insert w r s :
  annotations_wf w → annotation_wf w s →
  annotations_wf (set_annotations (<[r := s]> (annotations w)) w).
Proof.
  intros Hwf Hs r' s'. simpl. destruct (decide (r = r')) as [<-|Hne].
  - rewrite lookup_insert_eq. intros [= <-]. done.
  - rewrite lookup_insert_ne by done. apply Hwf.
Qed.

Lemma annotations_wf_add_attr self attr :
  preserves keeps_annotations_wf (Annotation.add_attr self attr).
Proof.
  intros w Hwf.
  destruct (attributes w !! attr) as [a|] eqn:Ha; cycle 1.
  { unfold Annotation.add_attr.
    by rewrite (bind_Raise _ _ _ _ _ (deref_None attributes _ _ Ha)). }
  destruct (annotations w !! self) as [s|] eqn:Hs; cycle 1.
  { unfold Annotation.add_attr.
    rewrite (bind_Return _ _ _ _ _ (deref_Some attributes _ _ _ Ha)).
    by rewrite (bind_Raise _ _ _ _ _ (deref_None annotations _ _ Hs)). }
  rewrite (add_attr_run _ _ _ _ _ Hs Ha).
  destruct (odict_mem _ _) eqn:Hm; [done|]. apply odict_mem_false in Hm.
  apply annotations_wf_insert; [done|]. apply annotation_wf_attach; [|done..].
  by apply (Hwf self).
Qed.

Lemma annotations_wf_modify_keys self (f : AnnotationObj.t → gset string) :
  preserves keeps_annotations_wf
    (modify_annotation self (λ s, AnnotationObj.set_keys (f s) s)).
Proof.
  intros w Hwf. unfold modify_annotation, bind, get_annotation, deref.
  destruct (annotations w !! self) as [s|] eqn:Hs; [|exact Hwf].
  apply annotations_wf_insert; [done|].
  destruct (Hwf self s Hs) as (? & ? & ?). by split_and!.
Qed.

Lemma annotations_wf_attribute_init label value uid metadata :
  preserves keeps_annotations_wf (Attribute.__init__ label value uid metadata).
Proof.
  unfold Attribute.__init__. apply preserves_bind; [apply _| |intros u].
  - intros w. apply annotations_wf_entities_same. by destruct uid.
  - intros w Hwf r s Hr. apply (annotation_wf_kept w); [|by eapply Hwf].
    intros r' a Hr'. simpl. rewrite lookup_insert_ne; [done|].
    intros Heq. by rewrite <-Heq, new_ref_fresh in Hr'.
Qed.

Lemma annotations_wf_annotation_init label keys attrs uid metadata :
  preserves keeps_annotations_wf (Annotation.__init__ label keys attrs uid metadata).
Proof.
  unfold Annotation.__init__. apply preserves_bind; [apply _| |intros u].
  { intros w. apply annotations_wf_entities_same. by destruct uid. }
  apply preserves_bind; [apply _| |intros self].
  { intros w Hwf. apply annotations_wf_insert; [done|].
    split_and!; simpl; [constructor|by intros ur ?%elem_of_nil|done]. }
  apply preserves_bind; [apply _| |intros _; apply preserves_ret, _].
  apply preserves_for_each; [apply _|]. intros attr. apply annotations_wf_add_attr.
Qed.

Lemma annotations_wf_exec `{SetOrder} `{AnnotationClasses} c :
  preserves keeps_annotations_wf (exec c).
Proof.
  assert (other_call c ∨ ¬ other_call c) as [Hc|Hc]
    by (destruct c; simpl; tauto).
  { intros w. by apply annotations_wf_entities_same, entities_same_exec. }
  destruct c; try (by destruct Hc); simpl.
  - apply preserves_bind; [apply _|apply annotations_wf_attribute_init|].
    intros ?. apply preserves_ret, _.
  - apply preserves_bind; [apply _|apply annotations_wf_annotation_init|].
    intros ?. apply preserves_ret, _.
  - apply annotations_wf_add_attr.
  - apply (annotations_wf_modify_keys self (λ s, {[key]} ∪ AnnotationObj.keys s)).
  - apply (annotations_wf_modify_keys self (λ s, AnnotationObj.keys s ∩ keys)).
Qed.

Lemma annotations_wf_run `{SetOrder} `{AnnotationClasses} cs w :
  annotations_wf w → annotations_wf (run cs w).
Proof.
  revert w. induction cs as [|c cs IH]; intros w Hwf; [done|].
  simpl. by apply IH, annotations_wf_exec.
Qed.

Lemma reachable_annotations_wf `{SetOrder} `{AnnotationClasses} w :
  reachable w → annotations_wf w.
Proof. intros [cs ->]. apply annotations_wf_run. by intros r s Hr. Qed.

(** ** [Annotation.get_attrs], [Annotation.get_attrs_by_label] *)

Lemma get_attrs_run w self s :
  annotations w !! self = Some s →
  Annotation.get_attrs self w = (Return (odict_values (AnnotationObj._attrs_by_id s)), w).
Proof.
  intros Hs. unfold Annotation.get_attrs.
  by rewrite (bind_Return _ _ _ _ _ (deref_Some annotations _ _ _ Hs)).
Qed.

(** X1.  A successful [add_attr(attr)] puts [attr] at the end of the list
    [get_attrs()] returns and changes nothing else: the other fields of the
    annotation, the other annotations, the attributes, the documents and the
    stores are as they were. *)
Theorem add_attr_appends w self attr s a :
  annotations w !! self = Some s →
  attributes w !! attr = Some a →
  AttributeObj.uid a ∉ odict_keys (AnnotationObj._attrs_by_id s) →
  ∃ w' s',
    Annotation.add_attr self attr w = (Return tt, w') ∧
    annotations w' !! self = Some s' ∧
    Annotation.get_attrs self w'
    = (Return (odict_values (AnnotationObj._attrs_by_id s) ++ [attr]), w') ∧
    AnnotationObj.uid s' = AnnotationObj.uid s ∧
    AnnotationObj.label s' = AnnotationObj.label s ∧
    AnnotationObj.keys s' = AnnotationObj.keys s ∧
    AnnotationObj.metadata s' = AnnotationObj.metadata s ∧
    (∀ other, other ≠ self → annotations w' !! other = annotations w !! other) ∧
    attributes w' = attributes w ∧
    documents w' = documents w ∧
    stores w' = stores w.
Proof.
  intros Hs Ha Hnew. rewrite (add_attr_run _ _ _ _ _ Hs Ha).
  apply odict_mem_false in Hnew as Hm. rewrite Hm.
  eexists _, (attach attr a s). split; [done|].
  assert (annotations
            (set_annotations (<[self := attach attr a s]> (annotations w)) w) !! self
          = Some (attach attr a s)) as Hs' by apply lookup_insert_eq.
  split; [done|]. split.
  - rewrite (get_attrs_run _ _ _ Hs'), attach_keys by done.
    unfold odict_values. by rewrite fmap_app.
  - split_and!; try done. intros other Hne. simpl. by rewrite lookup_insert_ne.
Qed.

Lemma odict_get_elem {V} (d : odict V) k v :
  NoDup (odict_keys d) → (k, v) ∈ d → odict_get k d = Some v.
Proof.
  unfold odict_keys. induction d as [|[k' v'] d IH]; simpl.
  - by intros _ ?%elem_of_nil.
  - intros [Hk' Hnd]%NoDup_cons [[= -> ->]|Hin]%elem_of_cons.
    + by rewrite decide_True.
    + rewrite decide_False; [by apply IH|].
      intros ->. apply Hk'. apply list_elem_of_fmap. by exists (k', v).
Qed.

Lemma filter_fmap {A B} (f : A → B) (P : B → Prop) `{!∀ y, Decision (P y)}
    (l : list A) :
  filter P (f <$> l) = f <$> filter (λ x, P (f x)) l.
Proof.
  induction l as [|x l IH]; [done|].
  rewrite fmap_cons, !filter_cons, IH. by destruct (decide (P (f x))).
Qed.

Lemma attrs_lookup_run w self s (l : list (string * ref)) :
  annotations w !! self = Some s →
  NoDup (odict_keys (AnnotationObj._attrs_by_id s)) →
  (∀ ur, ur ∈ l → ur ∈ AnnotationObj._attrs_by_id s) →
  list_comp l.*1
    (λ uid, let! s := get_annotation self in
            match odict_get uid (AnnotationObj._attrs_by_id s) with
            | Some a => ret a
            | None => raise (KeyError uid)
            end) w
  = (Return l.*2, w).
Proof.
  intros Hs Hnd. induction l as [|[u r] l IH]; intros Hl; [done|].
  rewrite fmap_cons. cbn [list_comp fst].
  erewrite bind_Return; cycle 1.
  { rewrite (bind_Return _ _ _ _ _ (deref_Some annotations _ _ _ Hs)).
    rewrite (odict_get_elem _ u r); [done..|]. apply Hl. left. }
  rewrite (bind_Return _ _ _ _ _ (IH (λ ur Hur, Hl ur (list_elem_of_further _ _ _ Hur)))).
  done.
Qed.

(** X2.  In every reachable heap the label index of an annotation agrees
    with its uid index: [get_attrs_by_label(label)] never raises and returns
    the attributes of [get_attrs()] whose label is [label], in the order of
    [get_attrs()]. *)
Theorem get_attrs_by_label_consistent `{SetOrder} `{AnnotationClasses} w self s label :
  reachable w →
  annotations w !! self = Some s →
  ∃ attrs,
    Annotation.get_attrs self w = (Return attrs, w) ∧
    Annotation.get_attrs_by_label self label w
    = (Return (filter (λ attr, attr_label w attr = Some label) attrs), w).
Proof.
  intros Hwf%reachable_annotations_wf Hs.
  destruct (Hwf self s Hs) as (Hnd & _ & Hlabel).
  eexists. split; [by apply get_attrs_run|].
  unfold Annotation.get_attrs_by_label.
  rewrite (bind_Return _ _ _ _ _ (deref_Some annotations _ _ _ Hs)).
  rewrite Hlabel. rewrite (attrs_lookup_run w self s _ Hs Hnd).
  - unfold odict_values. by rewrite filter_fmap.
  - by intros ur [_ ?]%list_elem_of_filter.
Qed.

(** ** [Attribute.from_dict] on a dictionary that lacks an entry *)

(** X3.  [Attribute.from_dict] reads the entries "uid", "label", "value" and
    "metadata" in this order: on a dictionary that lacks one of them it
    raises [KeyError] for the first that is missing, and no attribute is
    created. *)
Theorem attribute_from_dict_missing_key w (d : odict PyValue) key rest :
  filter (λ k, k ∉ odict_keys d) ["uid"; "label"; "value"; "metadata"] = key :: rest →
  Attribute.from_dict d w = (Raise (KeyError key), w).
Proof.
  assert (∀ k, k ∈ odict_keys d → ∃ v, odict_get k d = Some v) as Hin.
  { intros k Hk%odict_mem_true. unfold odict_mem in Hk.
    by apply bool_decide_eq_true in Hk as [v ?]; exists v. }
  unfold Attribute.from_dict, Attribute.subscript.
  rewrite !filter_cons, filter_nil.
  destruct (decide ("uid" ∉ odict_keys d)) as [Hk|Hk].
  { intros [= <- _]. by rewrite (odict_get_None _ _ Hk). }
  apply dec_stable, Hin in Hk as [v1 ->].
  destruct (decide ("label" ∉ odict_keys d)) as [Hk|Hk].
  { intros [= <- _]. by rewrite (odict_get_None _ _ Hk). }
  apply dec_stable, Hin in Hk as [v2 ->].
  destruct (decide ("value" ∉ odict_keys d)) as [Hk|Hk].
  { intros [= <- _]. by rewrite (odict_get_None _ _ Hk). }
  apply dec_stable, Hin in Hk as [v3 ->].
  destruct (decide ("metadata" ∉ odict_keys d)) as [Hk|Hk]; [|done].
  intros [= <- _]. by rewrite (odict_get_None _ _ Hk).
Qed.

(** ** [to_dict] of annotations, documents and collections *)

Lemma list_comp_Forall2 {A B} (l : list A) (f : A → M B) w :
  (∀ x, x ∈ l → ∃ y, f x w = (Return y, w)) →
  ∃ ys, list_comp l f w = (Return ys, w) ∧
        Forall2 (λ x y, f x w = (Return y, w)) l ys.
Proof.
  induction l as [|x l IH]; intros Hl.
  - exists []. split; [done|constructor].
  - destruct (Hl x) as [y Hy]; [by left|].
    destruct IH as (ys & Hys & Hall); [intros x' Hx'; apply Hl; by right|].
    exists (y :: ys). split; [|by constructor]. cbn [list_comp].
    rewrite (bind_Return _ _ _ _ _ Hy). by rewrite (bind_Return _ _ _ _ _ Hys).
Qed.

Section to_dict.
Context `{SetOrder} `{AnnotationClasses} (class_name : ref → string).

Lemma annotation_to_dict_run w self s :
  annotations_wf w →
  annotations w !! self = Some s →
  ∃ dicts,
    Forall2 (λ attr dict, Attribute.to_dict attr w = (Return dict, w))
      (odict_values (AnnotationObj._attrs_by_id s)) dicts ∧
    Annotation.to_dict class_name self w
    = (Return [("uid", PyStr (AnnotationObj.uid s));
               ("keys", PyList (PyStr <$> set_iter (AnnotationObj.keys s)));
               ("label", PyStr (AnnotationObj.label s));
               ("attrs", PyList (PyDict <$> dicts));
               ("metadata", PyDict (AnnotationObj.metadata s));
               ("class_name", PyStr (class_name self))], w).
Proof.
  intros Hwf Hs.
  destruct (Hwf self s Hs) as (_ & Huid & _).
  destruct (list_comp_Forall2 (odict_values (AnnotationObj._attrs_by_id s))
              Attribute.to_dict w) as (dicts & Hdicts & Hall).
  { intros attr (ur & -> & Hur)%list_elem_of_fmap.
    specialize (Huid ur Hur). unfold attr_uid in Huid.
    destruct (attributes w !! ur.2) as [a|] eqn:Ha; [|done].
    eexists. unfold Attribute.to_dict.
    by rewrite (bind_Return _ _ _ _ _ (deref_Some attributes _ _ _ Ha)). }
  exists dicts. split; [done|].
  unfold Annotation.to_dict.
  rewrite (bind_Return _ _ _ _ _ (deref_Some annotations _ _ _ Hs)).
  rewrite (bind_Return _ _ _ _ _ Hdicts).
  by rewrite (bind_Return _ _ _ _ _ (deref_Some annotations _ _ _ Hs)).
Qed.

Lemma document_to_dict_run w self d st :
  world_wf w → annotations_wf w →
  documents w !! self = Some d →
  stores w !! DocumentObj.store d = Some st →
  (∀ u, u ∈ DocumentObj.annotation_ids d → is_Some (st !! u)) →
  ∃ items dicts,
    (λ id, st !! id) <$> set_iter (DocumentObj.annotation_ids d) = Some <$> items ∧
    Forall2 (λ item dict, Annotation.to_dict class_name item w = (Return dict, w))
      items dicts ∧
    Document.to_dict class_name self w
    = (Return [("id", PyStr (DocumentObj.id d));
               ("annotations", PyList (PyDict <$> dicts));
               ("metadata", PyDict (DocumentObj.metadata d))], w).
Proof.
  intros [Hstores Hdocs] Hanns Hd Hst Hids.
  assert (∀ id, id ∈ set_iter (DocumentObj.annotation_ids d) →
            ∃ r, st !! id = Some r ∧ is_Some (annotations w !! r)) as Hitem.
  { intros id Hid%set_iter_elem_of. destruct (Hids _ Hid) as [r Hr].
    destruct (Hstores _ _ _ _ Hst Hr) as (a & Ha & _). eauto. }
  assert (∀ id r, st !! id = Some r →
            Document.item_to_dict class_name self id w
            = Annotation.to_dict class_name r w) as Hrun.
  { intros id r Hr. unfold Document.item_to_dict.
    rewrite (bind_Return _ _ _ _ _ (deref_Some documents _ _ _ Hd)).
    erewrite bind_Return; cycle 1.
    { unfold Store.get_data_item.
      by rewrite (bind_Return _ _ _ _ _ (deref_Some stores _ _ _ Hst)). }
    by rewrite Hr. }
  assert (∃ items dicts,
            (λ id, st !! id) <$> set_iter (DocumentObj.annotation_ids d)
            = Some <$> items ∧
            Forall2 (λ item dict,
                       Annotation.to_dict class_name item w = (Return dict, w))
              items dicts ∧
            list_comp (set_iter (DocumentObj.annotation_ids d))
              (Document.item_to_dict class_name self) w = (Return dicts, w))
    as (items & dicts & Hitems & Hall & Hcomp).
  { induction (set_iter (DocumentObj.annotation_ids d)) as [|id ids IH].
    - exists [], []. split_and!; [done|constructor|done].
    - destruct (Hitem id) as (r & Hr & [a Ha]); [by left|].
      destruct IH as (items & dicts & Hitems & Hall & Hcomp).
      { intros id' Hid'. apply Hitem. by right. }
      destruct (annotation_to_dict_run w r a Hanns Ha) as (attr_dicts & _ & Hdict).
      eexists (r :: items), (_ :: dicts). split_and!.
      + rewrite !fmap_cons. by rewrite Hr, Hitems.
      + constructor; [exact Hdict|done].
      + cbn [list_comp]. rewrite (bind_Return _ _ _ _ _ (eq_trans (Hrun id r Hr) Hdict)).
        by rewrite (bind_Return _ _ _ _ _ Hcomp). }
  exists items, dicts. split_and!; [done..|].
  unfold Document.to_dict.
  rewrite (bind_Return _ _ _ _ _ (deref_Some documents _ _ _ Hd)).
  rewrite (bind_Return _ _ _ _ _ Hcomp).
  by rewrite (bind_Return _ _ _ _ _ (deref_Some documents _ _ _ Hd)).
Qed.

(** X4.  In every reachable heap [Annotation.to_dict()] returns, without
    changing the heap: its "attrs" entry holds the [to_dict()] of the
    attributes of [get_attrs()], in that order, its "keys" entry lists every
    key of the annotation once, and the other entries are the fields of the
    annotation and the name of its class. *)
Theorem annotation_to_dict_reachable w self s :
  reachable w →
  annotations w !! self = Some s →
  ∃ attrs dicts,
    Annotation.get_attrs self w = (Return attrs, w) ∧
    Forall2 (λ attr dict, Attribute.to_dict attr w = (Return dict, w)) attrs dicts ∧
    Annotation.to_dict class_name self w
    = (Return [("uid", PyStr (AnnotationObj.uid s));
               ("keys", PyList (PyStr <$> set_iter (AnnotationObj.keys s)));
               ("label", PyStr (AnnotationObj.label s));
               ("attrs", PyList (PyDict <$> dicts));
               ("metadata", PyDict (AnnotationObj.metadata s));
               ("class_name", PyStr (class_name self))], w) ∧
    NoDup (set_iter (AnnotationObj.keys s)) ∧
    (∀ key, key ∈ set_iter (AnnotationObj.keys s) ↔ key ∈ AnnotationObj.keys s).
Proof.
  intros Hwf%reachable_annotations_wf Hs.
  destruct (annotation_to_dict_run w self s Hwf Hs) as (dicts & Hall & Hrun).
  exists (odict_values (AnnotationObj._attrs_by_id s)), dicts.
  split; [by apply get_attrs_run|]. split; [done|]. split; [done|].
  split; [apply set_iter_NoDup|apply set_iter_elem_of].
Qed.

(** X6.  In every reachable heap [Collection.to_dict()] returns, without
    changing the heap, a dictionary whose "documents" entry holds the
    [to_dict()] of the documents of the collection, in the order of the
    collection. *)
Theorem collection_to_dict_reachable w (docs : list ref) :
  reachable w →
  Forall (λ doc, is_Some (documents w !! doc)) docs →
  ∃ dicts,
    Forall2 (λ doc dict, Document.to_dict class_name doc w = (Return dict, w))
      docs dicts ∧
    Collection.to_dict class_name (Collection.__init__ docs) w
    = (Return [("documents", PyList (PyDict <$> dicts))], w).
Proof.
  intros Hreach Hdocs. pose proof (reachable_wf _ Hreach) as Hwf.
  destruct (list_comp_Forall2 docs (Document.to_dict class_name) w)
    as (dicts & Hcomp & Hall).
  { intros doc Hdoc. rewrite Forall_forall in Hdocs.
    destruct (Hdocs doc Hdoc) as [d Hd].
    destruct (proj2 Hwf _ _ Hd) as (st & Hst & Hids & _).
    destruct (document_to_dict_run w doc d st Hwf
                (reachable_annotations_wf _ Hreach) Hd Hst Hids)
      as (? & ? & _ & _ & ->).
    eauto. }
  exists dicts. split; [done|]. unfold Collection.to_dict. simpl.
  by rewrite (bind_Return _ _ _ _ _ Hcomp).
Qed.
End to_dict.

(** ** [Document.__init__] *)

Lemma document_init_run w doc_id metadata store :
  ∃ i w1,
    documents w1 = documents w ∧ annotations w1 = annotations w ∧
    attributes w1 = attributes w ∧
    (∀ j, doc_id = Some j → i = j) ∧
    let self := new_ref (documents w) in
    match store with
    | Some s =>
        stores w1 = stores w ∧
        Document.__init__ doc_id metadata (Some s) w
        = (Return self,
           set_documents
             (<[self := DocumentObj.mk i s true ∅ ∅ ∅ (default [] metadata)]>
                (documents w)) w1)
    | None =>
        stores w1 = <[new_ref (stores w) := ∅]> (stores w) ∧
        Document.__init__ doc_id metadata None w
        = (Return self,
           set_documents
             (<[self := DocumentObj.mk i (new_ref (stores w)) false ∅ ∅ ∅
                          (default [] metadata)]>
                (documents w)) w1)
    end.
Proof.
  unfold Document.__init__.
  destruct doc_id as [i|], store as [s|]; simpl.
  - exists i, w. split_and!; try done. by intros j [= ->].
  - exists i, (Store.DictStore w).2. split_and!; try done. by intros j [= ->].
  - exists ("id-" +:+ pretty (generated_ids w)), (Id.generate_id w).2.
    split_and!; done.
  - exists ("id-" +:+ pretty (generated_ids w)),
      (Store.DictStore (Id.generate_id w).2).2.
    split_and!; done.
Qed.

(** X9.  [Document(doc_id, metadata, store)] returns a document no
    reference of the heap denoted before, which tracks nothing: its three
    lookups answer the empty list.  The other documents, the annotations and
    the attributes are left as they are.  Given a store, the document uses it
    and is flagged as sharing its store, and no store changes; given none, it
    gets a new empty store, which no document of a reachable heap uses, and
    is flagged as not sharing. *)
Theorem document_init_store `{SetOrder} `{AnnotationClasses} w doc_id metadata store :
  reachable w →
  match store with Some s => is_Some (stores w !! s) | None => True end →
  ∃ self w' d,
    Document.__init__ doc_id metadata store w = (Return self, w') ∧
    documents w !! self = None ∧
    documents w' !! self = Some d ∧
    (∀ other, other ≠ self → documents w' !! other = documents w !! other) ∧
    annotations w' = annotations w ∧ attributes w' = attributes w ∧
    DocumentObj.metadata d = default [] metadata ∧
    (∀ i, doc_id = Some i → DocumentObj.id d = i) ∧
    Document.get_annotations self w' = (Return [], w') ∧
    (∀ label, Document.get_annotations_by_label self label w' = (Return [], w')) ∧
    (∀ key, Document.get_annotations_by_key self key w' = (Return [], w')) ∧
    (∀ uid, Document.get_annotation_by_id self uid w' = (Return None, w')) ∧
    match store with
    | Some s =>
        DocumentObj.store d = s ∧ DocumentObj.has_shared_store d = true ∧
        stores w' = stores w
    | None =>
        DocumentObj.has_shared_store d = false ∧
        stores w !! DocumentObj.store d = None ∧
        stores w' = <[DocumentObj.store d := ∅]> (stores w) ∧
        ∀ other d', documents w !! other = Some d' →
                    DocumentObj.store d' ≠ DocumentObj.store d
    end.
Proof.
  intros Hreach Hstore.
  destruct (document_init_run w doc_id metadata store)
    as (i & w1 & Hdocs & Hanns & Hattrs & Hi & Hrun). cbn zeta in Hrun.
  set (self := new_ref (documents w)) in *.
  assert (∃ d w', Document.__init__ doc_id metadata store w = (Return self, w') ∧
            documents w' = <[self := d]> (documents w) ∧
            annotations w' = annotations w ∧ attributes w' = attributes w ∧
            DocumentObj.annotation_ids d = ∅ ∧
            DocumentObj.annotation_ids_by_label d = ∅ ∧
            DocumentObj.annotation_ids_by_key d = ∅ ∧
            DocumentObj.metadata d = default [] metadata ∧
            (∀ i, doc_id = Some i → DocumentObj.id d = i) ∧
            is_Some (stores w' !! DocumentObj.store d) ∧
            match store with
            | Some s =>
                DocumentObj.store d = s ∧ DocumentObj.has_shared_store d = true ∧
                stores w' = stores w
            | None =>
                DocumentObj.has_shared_store d = false ∧
                DocumentObj.store d = new_ref (stores w) ∧
                stores w' = <[DocumentObj.store d := ∅]> (stores w)
            end)
    as (d & w' & Hinit & Hdocs' & Hanns' & Hattrs' & Hids & Hl & Hk & Hm & Hid
        & [st Hst] & Hcase).
  { destruct store as [s|]; destruct Hrun as [Hs Hrun];
      eexists _, _; (split; [exact Hrun|]); simpl;
      split_and!; try done.
    - by rewrite Hs.
    - rewrite Hs. rewrite lookup_insert_eq. by eauto. }
  exists self, w', d.
  assert (documents w' !! self = Some d) as Hd'.
  { rewrite Hdocs'. apply lookup_insert_eq. }
  split_and!; try done.
  - apply new_ref_fresh.
  - intros other Hne. rewrite Hdocs'. by apply lookup_insert_ne.
  - rewrite (get_annotations_run w' self d st) by done.
    rewrite Hids. assert (set_iter (∅ : gset string) = []) as ->; [|done].
    apply Permutation_nil_r. rewrite set_iter_perm. by rewrite elements_empty.
  - intros label. rewrite (get_annotations_by_label_run w' self d st) by done.
    by rewrite Hl.
  - intros key. rewrite (get_annotations_by_key_run w' self d st) by done.
    by rewrite Hk.
  - intros uid. unfold Document.get_annotation_by_id.
    rewrite (bind_Return _ _ _ _ _ (deref_Some documents _ _ _ Hd')).
    rewrite decide_True; [done|]. rewrite Hids. set_solver.
  - destruct store as [s|]; [done|].
    destruct Hcase as (Hsh & Hnew & Hs'). split_and!; try done.
    + rewrite Hnew. apply new_ref_fresh.
    + intros other d0 Hd0 Heq.
      destruct (reachable_wf w Hreach) as [_ Hwf].
      destruct (Hwf _ _ Hd0) as (st0 & Hst0 & _).
      rewrite Heq, Hnew in Hst0. by rewrite new_ref_fresh in Hst0.
Qed.

Section lookups.
Context `{SetOrder} `{AnnotationClasses}.

(** X10.  In every reachable heap the store of a document holds an item
    under every uid the document tracks, so no lookup answers [None] in a
    list: [get_annotations()] has one entry for each tracked uid, no entry
    twice, and an item is in it exactly when [get_annotation_by_id] answers
    it for a tracked uid; [get_annotations_by_key] and
    [get_annotations_by_label] list items of [get_annotations()], each at
    most once. *)
Theorem get_annotations_sound w self d :
  reachable w →
  documents w !! self = Some d →
  ∃ l,
    Document.get_annotations self w = (Return (Some <$> l), w) ∧
    NoDup l ∧
    length l = size (DocumentObj.annotation_ids d) ∧
    (∀ r, r ∈ l ↔
       ∃ uid, uid ∈ DocumentObj.annotation_ids d ∧
              Document.get_annotation_by_id self uid w = (Return (Some r), w)) ∧
    (∀ key, ∃ l',
       Document.get_annotations_by_key self key w = (Return (Some <$> l'), w) ∧
       NoDup l' ∧ l' ⊆ l) ∧
    (∀ label, ∃ l',
       Document.get_annotations_by_label self label w = (Return (Some <$> l'), w) ∧
       NoDup l' ∧ l' ⊆ l).
Proof.
  intros Hreach Hd. destruct (reachable_wf _ Hreach) as [Hstores Hdocs].
  destruct (Hdocs _ _ Hd) as (st & Hst & Hids & Hlabel & Hkey).
  destruct (tracked_items w _ st (set_iter (DocumentObj.annotation_ids d))
              Hstores Hst) as (l & Hl & Hnd & Hlen & Hin).
  { apply set_iter_NoDup. }
  { intros u Hu%set_iter_elem_of. by apply Hids. }
  assert (∀ (m : gmap string (list string)) k,
            index_wf (DocumentObj.annotation_ids d) m →
            ∃ l', (λ id, st !! id) <$> default [] (m !! k) = Some <$> l' ∧
                  NoDup l' ∧ l' ⊆ l) as Hbucket.
  { intros m k [Hnd' Hsub]%(bucket_tracked _ _ k).
    destruct (tracked_items w _ st (default [] (m !! k)) Hstores Hst Hnd')
      as (l' & Hl' & Hnd'' & _ & Hin').
    { intros u Hu. by apply Hids, Hsub. }
    exists l'. split_and!; [done..|].
    intros r (u & Hu & Hr)%Hin'. apply Hin. exists u. split; [|done].
    by apply set_iter_elem_of, Hsub. }
  exists l. split_and!.
  - by rewrite (get_annotations_run _ _ _ _ Hd Hst), Hl.
  - done.
  - rewrite Hlen. by rewrite set_iter_perm.
  - intros r. rewrite Hin. split.
    + intros (u & Hu%set_iter_elem_of & Hr). exists u. split; [done|].
      rewrite (get_annotation_by_id_run _ _ _ _ _ Hd Hst).
      rewrite decide_False by (by intros Hn). by rewrite Hr.
    + intros (u & Hu & Hget). exists u.
      split; [by apply set_iter_elem_of|].
      rewrite (get_annotation_by_id_run _ _ _ _ _ Hd Hst) in Hget.
      rewrite decide_False in Hget by (by intros Hn). congruence.
  - intros key. destruct (Hbucket _ key Hkey) as (l' & Hl' & ? & ?).
    exists l'. split_and!; [|done..].
    by rewrite (get_annotations_by_key_run _ _ _ _ _ Hd Hst), Hl'.
  - intros label. destruct (Hbucket _ label Hlabel) as (l' & Hl' & ? & ?).
    exists l'. split_and!; [|done..].
    by rewrite (get_annotations_by_label_run _ _ _ _ _ Hd Hst), Hl'.
Qed.

(** X11.  A call that is neither [add_annotation] on the document itself
    nor a pipeline run leaves the document as it is, whatever else it does
    (adding to another document that shares the store, storing an item
    directly, attaching an attribute, changing the keys of an annotation,
    constructing an object): the state of the document and the answers of
    its four lookups are the same before and after, whether the call
    returns or raises. *)
Theorem other_calls_keep_lookups c w self d :
  reachable w →
  documents w !! self = Some d →
  (∀ annotation, c ≠ AddAnnotation self annotation) →
  (∀ pipeline doc, c ≠ RunOnDoc pipeline doc) →
  let w' := (exec c w).2 in
  documents w' !! self = Some d ∧
  (Document.get_annotations self w').1 = (Document.get_annotations self w).1 ∧
  (∀ label, (Document.get_annotations_by_label self label w').1
            = (Document.get_annotations_by_label self label w).1) ∧
  (∀ key, (Document.get_annotations_by_key self key w').1
          = (Document.get_annotations_by_key self key w).1) ∧
  (∀ uid, (Document.get_annotation_by_id self uid w').1
          = (Document.get_annotation_by_id self uid w).1).
Proof.
  intros Hreach Hd Hc _ w'. destruct (reachable_wf _ Hreach) as [Hstores Hdocs].
  destruct (Hdocs _ _ Hd) as (st & Hst & Hids & Hlabel & Hkey).
  pose proof (keeps_document_exec self c Hc w d Hd) as Hd'. fold w' in Hd'.
  destruct (stores_grow_exec c w _ _ Hst) as (st' & Hst' & Hsub). fold w' in Hst'.
  split; [done|]. split_and!.
  - rewrite (get_annotations_run _ _ _ _ Hd Hst),
      (get_annotations_run _ _ _ _ Hd' Hst'). simpl. f_equal.
    apply lookup_items_weaken; [done|].
    intros u Hu%set_iter_elem_of. by apply Hids.
  - intros label.
    rewrite (get_annotations_by_label_run _ _ _ _ _ Hd Hst),
      (get_annotations_by_label_run _ _ _ _ _ Hd' Hst'). simpl. f_equal.
    apply lookup_items_weaken; [done|].
    intros u Hu. by apply Hids, (bucket_tracked _ _ label Hlabel).
  - intros key.
    rewrite (get_annotations_by_key_run _ _ _ _ _ Hd Hst),
      (get_annotations_by_key_run _ _ _ _ _ Hd' Hst'). simpl. f_equal.
    apply lookup_items_weaken; [done|].
    intros u Hu. by apply Hids, (bucket_tracked _ _ key Hkey).
  - intros uid.
    rewrite (get_annotation_by_id_run _ _ _ _ _ Hd Hst),
      (get_annotation_by_id_run _ _ _ _ _ Hd' Hst'). simpl. f_equal.
    case_decide as Hu; [done|].
    destruct (Hids _ Hu) as [r Hr]. rewrite Hr.
    by apply (lookup_weaken st st').
Qed.

End lookups.

(** ** Labels of the annotations in a label bucket *)

Global Instance documents_same_preorder : PreOrder documents_same.
Proof.
  split; [by intros w|].
  intros w1 w2 w3 H12 H23. unfold documents_same in *. congruence.
Qed.

Global Instance annotations_kept_preorder : PreOrder annotations_kept.
Proof.
  split.
  - intros w r a Ha. by exists a.
  - intros w1 w2 w3 H12 H23 r a Ha.
    destruct (H12 _ _ Ha) as (a' & Ha' & Hu & Hl).
    destruct (H23 _ _ Ha') as (a'' & Ha'' & Hu' & Hl').
    exists a''. split_and!; [done|congruence..].
Qed.

Section labels.
Context `{SetOrder} `{AnnotationClasses}.

Lemma annotations_kept_exec c : preserves annotations_kept (exec c).
Proof.
  assert (other_call c ∨ ¬ other_call c) as [Hc|Hc]
    by (destruct c; simpl; tauto).
  { intros w r a Ha. destruct (entities_same_exec c Hc w) as [Heq _].
    exists a. by rewrite Heq. }
  assert (preserves doc_frame (exec c)) as Hframe.
  { destruct c; try (by destruct Hc); simpl.
    - apply (preserves_bind doc_frame); [apply doc_frame_attribute_init|].
      intros _. apply preserves_ret, _.
    - apply (preserves_bind doc_frame); [apply doc_frame_annotation_init|].
      intros _. apply preserves_ret, _.
    - apply doc_frame_add_attr.
    - apply doc_frame_add_key.
    - apply doc_frame_keep_keys. }
  intros w. by destruct (Hframe w) as (_ & _ & ?).
Qed.

Lemma added_by_allocated self c w xa :
  xa ∈ added_by self c w → annotations w !! xa.1 = Some xa.2.
Proof.
  unfold added_by. destruct c; try by intros ?%elem_of_nil.
  destruct (exec _ w).1 as [?|?]; [|by intros ?%elem_of_nil].
  destruct (annotations w !! annotation) as [a'|] eqn:Ha;
    [|by intros ?%elem_of_nil].
  case_decide; [|by intros ?%elem_of_nil].
  by intros ->%list_elem_of_singleton.
Qed.

(** A document that appears during a call has empty indices. *)
Lemma new_document_empty c w self d :
  world_wf w →
  documents w !! self = None →
  documents (exec c w).2 !! self = Some d →
  DocumentObj.annotation_ids d = ∅ ∧
  DocumentObj.annotation_ids_by_label d = ∅ ∧
  DocumentObj.annotation_ids_by_key d = ∅.
Proof.
  intros Hwf Hnone.
  assert (∀ w', documents_same w w' → documents w' !! self = Some d → False)
    as Hsame.
  { intros w' ->. congruence. }
  assert (∀ w', doc_frame w w' → documents w' !! self = Some d → False)
    as Hframe.
  { intros w' (_ & Heq & _). by apply Hsame. }
  destruct c; simpl.
  - intros Hd. exfalso. revert Hd. apply Hframe.
    apply (preserves_bind doc_frame); [apply doc_frame_attribute_init|].
    intros _. apply preserves_ret, _.
  - intros Hd. exfalso. revert Hd. apply Hframe.
    apply (preserves_bind doc_frame); [apply doc_frame_annotation_init|].
    intros _. apply preserves_ret, _.
  - intros Hd. exfalso. by apply (Hsame (Store.DictStore w).2).
  - destruct (existing_store_run store w) as [[He Hs]|[e He]].
    + rewrite (bind_Return _ _ _ _ _ He).
      destruct (document_init_run w doc_id metadata store)
        as (i & w1 & Hdocs & _ & _ & _ & Hrun). cbn zeta in Hrun.
      assert (∃ d0 w2, Document.__init__ doc_id metadata store w
                = (Return (new_ref (documents w)), w2) ∧
                documents w2 = <[new_ref (documents w) := d0]> (documents w) ∧
                DocumentObj.annotation_ids d0 = ∅ ∧
                DocumentObj.annotation_ids_by_label d0 = ∅ ∧
                DocumentObj.annotation_ids_by_key d0 = ∅)
        as (d0 & w2 & Hinit & Hdocs2 & Hempty).
      { destruct store; destruct Hrun as [_ Hrun];
          eexists _, _; (split; [exact Hrun|]); done. }
      rewrite (bind_Return _ _ _ _ _ Hinit). simpl. rewrite Hdocs2.
      destruct (decide (self = new_ref (documents w))) as [->|Hne].
      * rewrite lookup_insert_eq. by intros [= <-].
      * rewrite lookup_insert_ne by done. congruence.
    + rewrite (bind_Raise _ _ _ _ _ He). simpl. congruence.
  - intros Hd. exfalso. revert Hd. apply Hframe, doc_frame_add_attr.
  - intros Hd. exfalso. revert Hd. apply Hframe, doc_frame_add_key.
  - intros Hd. exfalso. revert Hd. apply Hframe, doc_frame_keep_keys.
  - intros Hd. exfalso. revert Hd. apply Hsame.
    unfold Store.store_data_item, put_store.
    frame_steps ltac:(idtac; intros ?; reflexivity).
  - rename self0 into doc.
    destruct (annotations w !! annotation) as [a|] eqn:Ha; cycle 1.
    { destruct (add_annotation_dangling w doc annotation) as (e & -> & _); [auto|].
      simpl. congruence. }
    destruct (defines_id annotation) eqn:Hid; cycle 1.
    { destruct (add_annotation_dangling w doc annotation) as (e & -> & _); [auto|].
      simpl. congruence. }
    destruct (documents w !! doc) as [d0|] eqn:Hd0; cycle 1.
    { destruct (add_annotation_dangling w doc annotation) as (e & -> & _); [auto|].
      simpl. congruence. }
    destruct (proj2 Hwf _ _ Hd0) as (st & Hst & _).
    assert (self ≠ doc) as Hne by congruence.
    rewrite (add_annotation_run w doc annotation d0 a st) by done. cbn zeta.
    repeat case_match; simpl; rewrite ?lookup_insert_ne by done; congruence.
  - intros Hd. exfalso. revert Hd.
    apply Hframe.
    apply (doc_frame_exec_pipeline (NewDocPipeline steps labels_by_input_key) I).
  - intros Hd. exfalso. revert Hd.
    apply Hframe. apply (doc_frame_exec_pipeline (RunOnDoc self0 doc) I).
  - intros Hd. exfalso. revert Hd.
    apply Hframe.
    apply (doc_frame_exec_pipeline (RunOnCollection self0 collection) I).
Qed.

Lemma labels_wf_exec c w :
  world_wf w → labels_wf w → labels_wf (exec c w).2.
Proof.
  intros Hwf Hlab self d' st' label u Hd' Hst' Hu.
  destruct (documents w !! self) as [d|] eqn:Hd; cycle 1.
  { destruct (new_document_empty c w self d' Hwf Hd Hd') as (_ & Hempty & _).
    rewrite Hempty in Hu.
    by apply elem_of_nil in Hu. }
  destruct (proj2 Hwf _ _ Hd) as (st & Hst & _).
  destruct (exec_document_step c w self d st Hwf Hd Hst)
    as (d1 & st1 & Hd1 & Hst1 & Hstore & Hsub & _ & Hbucket & _ & Hheld & _).
  assert (d1 = d') as -> by congruence.
  rewrite <-Hstore in Hst1. assert (st1 = st') as -> by congruence.
  rewrite Hbucket in Hu. apply elem_of_app in Hu as [Hu|Hu].
  - destruct (Hlab _ _ _ _ _ Hd Hst Hu) as (r & a & Hr & Ha & Hl).
    destruct (annotations_kept_exec c w _ _ Ha) as (a' & Ha' & _ & Hl').
    exists r, a'. split_and!; [|done|congruence].
    by apply (lookup_weaken st st').
  - apply list_elem_of_fmap in Hu as (xa & -> & [Hl Hxa]%list_elem_of_filter).
    pose proof (added_by_allocated _ _ _ _ Hxa) as Ha.
    destruct (annotations_kept_exec c w _ _ Ha) as (a' & Ha' & _ & Hl').
    exists xa.1, a'. split_and!; [|done|congruence].
    by apply Hheld.
Qed.

Lemma reachable_labels_wf w : reachable w → labels_wf w.
Proof.
  intros [cs ->].
  assert (∀ w, world_wf w → labels_wf w → labels_wf (run cs w)) as Hrun.
  { induction cs as [|c cs IH]; intros w Hwf Hlab; [done|].
    simpl. apply IH; [by apply world_wf_exec|by apply labels_wf_exec]. }
  apply Hrun; [apply world_wf_empty|].
  intros self d st label u Hd. done.
Qed.

(** X12.  In every reachable heap [get_annotations_by_label(label)] answers
    annotations that carry the label [label] now, each of them tracked by
    the document: adding is the only way into a label bucket, and no call
    changes the label or the uid of an annotation. *)
Theorem get_annotations_by_label_labels w self d label :
  reachable w →
  documents w !! self = Some d →
  ∃ l,
    Document.get_annotations_by_label self label w = (Return (Some <$> l), w) ∧
    ∀ r, r ∈ l →
      ∃ a, annotations w !! r = Some a ∧
           AnnotationObj.label a = label ∧
           AnnotationObj.uid a ∈ DocumentObj.annotation_ids d.
Proof.
  intros Hreach Hd. destruct (reachable_wf _ Hreach) as [Hstores Hdocs].
  destruct (Hdocs _ _ Hd) as (st & Hst & Hids & Hlabel & _).
  destruct (bucket_tracked _ _ label Hlabel) as [Hnd Hsub].
  destruct (tracked_items w _ st _ Hstores Hst Hnd) as (l & Hl & _ & _ & Hin).
  { intros u Hu. by apply Hids, Hsub. }
  exists l. split.
  - by rewrite (get_annotations_by_label_run _ _ _ _ _ Hd Hst), Hl.
  - intros r (u & Hu & Hr)%Hin.
    destruct (reachable_labels_wf w Hreach _ _ _ _ _ Hd Hst Hu)
      as (r' & a & Hr' & Ha & Hla).
    assert (r' = r) as -> by congruence.
    exists a. split_and!; [done..|].
    destruct (Hstores _ _ _ _ Hst Hr) as (a' & Ha' & Hid).
    assert (a' = a) as -> by congruence.
    rewrite Hid. by apply Hsub.
Qed.

End labels.

(** ** [Attribute.from_dict] followed by [Attribute.to_dict] *)

(** X14.  On a dictionary that has a string under "uid" and under "label",
    a dictionary under "metadata" and anything under "value",
    [Attribute.from_dict] returns a new attribute, leaving the objects of
    the heap as they are; [to_dict()] of the new attribute gives these four
    entries back, in the order uid, label, value, metadata, whatever the
    order of the dictionary and whatever else it holds. *)
Theorem attribute_from_dict_to_dict w (d : odict PyValue) uid label value metadata :
  odict_get "uid" d = Some (PyStr uid) →
  odict_get "label" d = Some (PyStr label) →
  odict_get "value" d = Some value →
  odict_get "metadata" d = Some (PyDict metadata) →
  ∃ x w',
    Attribute.from_dict d w = (Return x, w') ∧
    attributes w !! x = None ∧
    (∀ y o, attributes w !! y = Some o → attributes w' !! y = Some o) ∧
    annotations w' = annotations w ∧ documents w' = documents w ∧
    stores w' = stores w ∧
    Attribute.to_dict x w'
    = (Return [("uid", PyStr uid); ("label", PyStr label);
               ("value", value); ("metadata", PyDict metadata)], w').
Proof.
  intros Hu Hl Hv Hm. unfold Attribute.from_dict, Attribute.subscript.
  rewrite Hu, Hl, Hv, Hm.
  exists (new_ref (attributes w)). eexists.
  split; [unfold Attribute.__init__, bind; simpl; reflexivity|].
  split; [apply new_ref_fresh|]. split_and!; try done.
  - intros y o Hy. simpl. rewrite lookup_insert_ne; [done|].
    intros <-. by rewrite new_ref_fresh in Hy.
  - unfold Attribute.to_dict.
    erewrite bind_Return; [|apply deref_Some, lookup_insert_eq]. done.
Qed.

(** ** Documents over time *)

Section over_time.
Context `{SetOrder} `{AnnotationClasses}.

(** X16.  A document never loses or replaces an annotation: whatever calls
    follow, [get_annotation_by_id] keeps answering an annotation it
    answered, and the lists of [get_annotations_by_label] and
    [get_annotations_by_key] keep what they held as a prefix, in the same
    order. *)
Theorem lookups_only_grow cs w self d :
  reachable w →
  documents w !! self = Some d →
  let w' := run cs w in
  (∀ uid r,
     Document.get_annotation_by_id self uid w = (Return (Some r), w) →
     Document.get_annotation_by_id self uid w' = (Return (Some r), w')) ∧
  (∀ label, ∃ l l',
     Document.get_annotations_by_label self label w = (Return l, w) ∧
     Document.get_annotations_by_label self label w' = (Return (l ++ l'), w')) ∧
  (∀ key, ∃ l l',
     Document.get_annotations_by_key self key w = (Return l, w) ∧
     Document.get_annotations_by_key self key w' = (Return (l ++ l'), w')).
Proof.
  intros Hreach Hd w'. pose proof (reachable_wf _ Hreach) as Hwf.
  destruct (proj2 Hwf _ _ Hd) as (st & Hst & Hids & Hlabel & Hkey).
  destruct (run_document cs w self d st Hwf Hd Hst)
    as (d' & st' & Hd' & Hst' & Hstore & Hsub & Hids' & Hlabel' & Hkey' & _).
  fold w' in Hd', Hst'. rewrite <-Hstore in Hst'.
  split_and!.
  - intros uid r.
    rewrite (get_annotation_by_id_run _ _ _ _ _ Hd Hst).
    rewrite (get_annotation_by_id_run _ _ _ _ _ Hd' Hst').
    case_decide as Hu; [done|]. intros [= Hr].
    rewrite decide_False; cycle 1.
    { intros Hn. apply Hn. rewrite Hids'. set_solver. }
    by rewrite (lookup_weaken st st' _ _ Hr Hsub).
  - intros label. eexists _, _.
    split; [by apply (get_annotations_by_label_run _ _ d st)|].
    rewrite (get_annotations_by_label_run _ _ _ _ _ Hd' Hst').
    rewrite Hlabel', fmap_app.
    rewrite (lookup_items_weaken st st'); [done..|].
    intros u Hu. by apply Hids, (bucket_tracked _ _ label Hlabel).
  - intros key. eexists _, _.
    split; [by apply (get_annotations_by_key_run _ _ d st)|].
    rewrite (get_annotations_by_key_run _ _ _ _ _ Hd' Hst').
    rewrite Hkey', fmap_app.
    rewrite (lookup_items_weaken st st'); [done..|].
    intros u Hu. by apply Hids, (bucket_tracked _ _ key Hkey).
Qed.

End over_time.

(** ** Documents when no annotation class defines [id] *)

Section without_id.
Context `{SetOrder}.
Local Existing Instance src_classes.

Lemma set_iter_empty : set_iter ∅ = [].
Proof. apply Permutation_nil_r. by rewrite set_iter_perm, elements_empty. Qed.

Lemma tracks_nothing_exec c w :
  world_wf w →
  (∀ self d, documents w !! self = Some d → tracks_nothing d) →
  ∀ self d, documents (exec c w).2 !! self = Some d → tracks_nothing d.
Proof.
  intros Hwf Hinv self d' Hd'.
  destruct (documents w !! self) as [d|] eqn:Hd; cycle 1.
  { exact (new_document_empty c w self d' Hwf Hd Hd'). }
  assert ((exec c w).2 = w ∨ ∀ annotation, c ≠ AddAnnotation self annotation)
    as [Heq|Hc].
  { destruct c; try (by right). left. simpl.
    destruct (add_annotation_dangling w self0 annotation) as (e & -> & _); auto. }
  - rewrite Heq in Hd'. by apply (Hinv self).
  - pose proof (keeps_document_exec self c Hc w d Hd) as Hkept.
    assert (d' = d) as -> by congruence. by apply (Hinv self).
Qed.

Lemma tracks_nothing_run cs w :
  world_wf w →
  (∀ self d, documents w !! self = Some d → tracks_nothing d) →
  ∀ self d, documents (run cs w) !! self = Some d → tracks_nothing d.
Proof.
  revert w. induction cs as [|c cs IH]; intros w Hwf Hinv; [done|].
  simpl. apply IH; [by apply world_wf_exec|by apply tracks_nothing_exec].
Qed.

(** X17.  When no annotation object is of a class that defines [id], as
    with the classes under src/ alone, no document ever tracks an
    annotation: in every heap the API calls can reach, the membership set
    and the two indices of every document are empty,
    [get_annotations()], [get_annotations_by_label] and
    [get_annotations_by_key] return the empty list and
    [get_annotation_by_id] answers [None]. *)
Theorem documents_track_nothing w self d :
  @reachable _ src_classes w →
  documents w !! self = Some d →
  tracks_nothing d ∧
  Document.get_annotations self w = (Return [], w) ∧
  (∀ label, Document.get_annotations_by_label self label w = (Return [], w)) ∧
  (∀ key, Document.get_annotations_by_key self key w = (Return [], w)) ∧
  (∀ uid, Document.get_annotation_by_id self uid w = (Return None, w)).
Proof.
  intros Hreach Hd. pose proof (reachable_wf _ Hreach) as Hwf.
  destruct Hreach as [cs ->].
  assert (tracks_nothing d) as Hnone.
  { apply (tracks_nothing_run cs empty_world world_wf_empty) with self; [|done].
    intros r d0 Hd0. done. }
  destruct (proj2 Hwf _ _ Hd) as (st & Hst & _).
  destruct Hnone as (Hids & Hlabel & Hkey).
  split; [done|]. split_and!.
  - rewrite (get_annotations_run _ _ _ _ Hd Hst), Hids, set_iter_empty. done.
  - intros label.
    rewrite (get_annotations_by_label_run _ _ _ _ _ Hd Hst), Hlabel. done.
  - intros key.
    rewrite (get_annotations_by_key_run _ _ _ _ _ Hd Hst), Hkey. done.
  - intros uid.
    rewrite (get_annotation_by_id_run _ _ _ _ _ Hd Hst), Hids.
    by rewrite decide_True by set_solver.
Qed.

End without_id.

(** ** The further statements at work on the example heaps *)

Section more_examples.
Import Examples MoreExamples.
Local Existing Instance elements_order.
Local Existing Instance id_classes.

Lemma add_attr_appends_witness :
  let s := AnnotationObj.mk "a1" "disease" {["entities"]} [] [] ∅ in
  let a := AttributeObj.mk "t1" "is_negated" (PyBool true) [] in
  annotations attr_world !! 1%positive = Some s
  ∧ attributes attr_world !! 1%positive = Some a
  ∧ ("t1" ∉ odict_keys (AnnotationObj._attrs_by_id s))
  ∧ ∃ w', Annotation.add_attr 1 1 attr_world = (Return tt, w')
          ∧ Annotation.get_attrs 1 w' = (Return [1%positive], w').
Proof.
  intros s a.
  assert (annotations attr_world !! 1%positive = Some s) as Hs
    by (vm_compute; reflexivity).
  assert (attributes attr_world !! 1%positive = Some a) as Ha
    by (vm_compute; reflexivity).
  assert ("t1" ∉ odict_keys (AnnotationObj._attrs_by_id s)) as Hnew
    by apply not_elem_of_nil.
  do 3 (split; [assumption|]).
  destruct (add_attr_appends attr_world 1 1 s a Hs Ha Hnew)
    as (w' & s' & Hadd & _ & Hget & _).
  exists w'. split; assumption.
Defined.

Lemma get_attrs_by_label_consistent_witness :
  let s := AnnotationObj.mk "a1" "disease" {["entities"]} []
             [("t1", 1%positive); ("t2", 3%positive)]
             {["is_negated" := ["t1"]; "is_family" := ["t2"]]} in
  reachable attached_world
  ∧ annotations attached_world !! 1%positive = Some s
  ∧ ∃ attrs,
      Annotation.get_attrs 1 attached_world = (Return attrs, attached_world)
      ∧ Annotation.get_attrs_by_label 1 "is_family" attached_world
        = (Return (filter (λ attr, attr_label attached_world attr = Some "is_family")
                     attrs), attached_world).
Proof.
  intros s.
  assert (reachable attached_world) as Hreach
    by (exists attached_calls; reflexivity).
  assert (annotations attached_world !! 1%positive = Some s) as Hs
    by (vm_compute; reflexivity).
  do 2 (split; [assumption|]).
  exact (get_attrs_by_label_consistent attached_world 1 s "is_family" Hreach Hs).
Defined.

Lemma attribute_from_dict_missing_key_witness :
  let d : odict PyValue := [("uid", PyStr "t1"); ("value", PyNone)] in
  filter (λ k, k ∉ odict_keys d) ["uid"; "label"; "value"; "metadata"]
  = ["label"; "metadata"]
  ∧ Attribute.from_dict d empty_world = (Raise (KeyError "label"), empty_world).
Proof.
  intros d.
  assert (filter (λ k, k ∉ odict_keys d) ["uid"; "label"; "value"; "metadata"]
          = ["label"; "metadata"]) as Hmissing by (vm_compute; reflexivity).
  split; [assumption|].
  exact (attribute_from_dict_missing_key empty_world d "label" ["metadata"] Hmissing).
Defined.

Lemma annotation_to_dict_reachable_witness :
  let s := AnnotationObj.mk "a1" "disease" {["entities"]} []
             [("t1", 1%positive); ("t2", 3%positive)]
             {["is_negated" := ["t1"]; "is_family" := ["t2"]]} in
  reachable attached_world
  ∧ annotations attached_world !! 1%positive = Some s
  ∧ ∃ dicts,
      Annotation.to_dict (λ _, "Entity") 1 attached_world
      = (Return [("uid", PyStr "a1");
                 ("keys", PyList (PyStr <$> set_iter (AnnotationObj.keys s)));
                 ("label", PyStr "disease");
                 ("attrs", PyList (PyDict <$> dicts));
                 ("metadata", PyDict []);
                 ("class_name", PyStr "Entity")], attached_world).
Proof.
  intros s.
  assert (reachable attached_world) as Hreach
    by (exists attached_calls; reflexivity).
  assert (annotations attached_world !! 1%positive = Some s) as Hs
    by (vm_compute; reflexivity).
  do 2 (split; [assumption|]).
  destruct (annotation_to_dict_reachable (λ _, "Entity") attached_world 1 s Hreach Hs)
    as (attrs & dicts & _ & _ & Hdict & _).
  exists dicts. exact Hdict.
Defined.

Lemma collection_to_dict_reachable_witness :
  reachable shared_world
  ∧ Forall (λ doc, is_Some (documents shared_world !! doc)) [2%positive; 1%positive]
  ∧ ∃ dicts,
      Collection.to_dict (λ _, "Entity")
        (Collection.__init__ [2%positive; 1%positive]) shared_world
      = (Return [("documents", PyList (PyDict <$> dicts))], shared_world).
Proof.
  assert (reachable shared_world) as Hreach by (exists shared_calls; reflexivity).
  assert (Forall (λ doc, is_Some (documents shared_world !! doc))
            [2%positive; 1%positive]) as Hdocs.
  { repeat constructor; vm_compute; eexists; reflexivity. }
  do 2 (split; [assumption|]).
  destruct (collection_to_dict_reachable (λ _, "Entity") shared_world
              [2%positive; 1%positive] Hreach Hdocs) as (dicts & _ & Hdict).
  exists dicts. exact Hdict.
Defined.

Lemma document_init_store_witness :
  reachable shared_world
  ∧ ∃ self w' d,
      Document.__init__ (Some "doc3") None None shared_world = (Return self, w')
      ∧ documents shared_world !! self = None
      ∧ documents w' !! self = Some d
      ∧ DocumentObj.has_shared_store d = false
      ∧ stores shared_world !! DocumentObj.store d = None
      ∧ Document.get_annotations self w' = (Return [], w').
Proof.
  assert (reachable shared_world) as Hreach by (exists shared_calls; reflexivity).
  split; [assumption|].
  destruct (document_init_store shared_world (Some "doc3") None None Hreach I)
    as (self & w' & d & Hinit & Hfresh & Hd & _ & _ & _ & _ & _ & Hget & _ & _ & _
        & Hshared & Hstore & _).
  exists self, w', d. repeat split; assumption.
Defined.

Lemma get_annotations_sound_witness :
  let d := DocumentObj.mk "doc1" 1 true {["u"]} {["disease" := ["u"]]}
             {["entities" := ["u"]]} [] in
  reachable shared_world
  ∧ documents shared_world !! 1%positive = Some d
  ∧ ∃ l,
      Document.get_annotations 1 shared_world = (Return (Some <$> l), shared_world)
      ∧ NoDup l
      ∧ length l = size (DocumentObj.annotation_ids d).
Proof.
  intros d.
  assert (reachable shared_world) as Hreach by (exists shared_calls; reflexivity).
  assert (documents shared_world !! 1%positive = Some d) as Hd
    by (vm_compute; reflexivity).
  do 2 (split; [assumption|]).
  destruct (get_annotations_sound shared_world 1 d Hreach Hd)
    as (l & Hget & Hnd & Hlen & _).
  exists l. repeat split; assumption.
Defined.

Lemma other_calls_keep_lookups_witness :
  let d := DocumentObj.mk "doc1" 1 true {["u"]} {["disease" := ["u"]]}
             {["entities" := ["u"]]} [] in
  let c := AddAnnotation 2 3 in
  reachable shared_world
  ∧ documents shared_world !! 1%positive = Some d
  ∧ (∀ annotation, c ≠ AddAnnotation 1 annotation)
  ∧ (∀ pipeline doc, c ≠ RunOnDoc pipeline doc)
  ∧ documents (exec c shared_world).2 !! 1%positive = Some d
  ∧ (Document.get_annotations 1 (exec c shared_world).2).1
    = (Document.get_annotations 1 shared_world).1.
Proof.
  intros d c.
  assert (reachable shared_world) as Hreach by (exists shared_calls; reflexivity).
  assert (documents shared_world !! 1%positive = Some d) as Hd
    by (vm_compute; reflexivity).
  assert (∀ annotation, c ≠ AddAnnotation 1 annotation) as Hc
    by (intros annotation; discriminate).
  assert (∀ pipeline doc, c ≠ RunOnDoc pipeline doc) as Hp
    by (intros pipeline doc; discriminate).
  do 4 (split; [assumption|]).
  destruct (other_calls_keep_lookups c shared_world 1 d Hreach Hd Hc Hp)
    as (Hkept & Hget & _).
  split; assumption.
Defined.

Lemma get_annotations_by_label_labels_witness :
  let d := DocumentObj.mk "doc1" 1 true {["u"]} {["disease" := ["u"]]}
             {["entities" := ["u"]]} [] in
  reachable shared_world
  ∧ documents shared_world !! 1%positive = Some d
  ∧ ∃ l,
      Document.get_annotations_by_label 1 "disease" shared_world
      = (Return (Some <$> l), shared_world)
      ∧ ∀ r, r ∈ l →
          ∃ a, annotations shared_world !! r = Some a
               ∧ AnnotationObj.label a = "disease"
               ∧ AnnotationObj.uid a ∈ DocumentObj.annotation_ids d.
Proof.
  intros d.
  assert (reachable shared_world) as Hreach by (exists shared_calls; reflexivity).
  assert (documents shared_world !! 1%positive = Some d) as Hd
    by (vm_compute; reflexivity).
  do 2 (split; [assumption|]).
  exact (get_annotations_by_label_labels shared_world 1 d "disease" Hreach Hd).
Defined.

Lemma attribute_from_dict_to_dict_witness :
  odict_get "uid" shuffled_dict = Some (PyStr "t1")
  ∧ odict_get "label" shuffled_dict = Some (PyStr "is_negated")
  ∧ odict_get "value" shuffled_dict = Some (PyBool true)
  ∧ odict_get "metadata" shuffled_dict = Some (PyDict [("source", PyStr "rule")])
  ∧ ∃ x w',
      Attribute.from_dict shuffled_dict empty_world = (Return x, w')
      ∧ Attribute.to_dict x w'
        = (Return [("uid", PyStr "t1"); ("label", PyStr "is_negated");
                   ("value", PyBool true);
                   ("metadata", PyDict [("source", PyStr "rule")])], w').
Proof.
  assert (odict_get "uid" shuffled_dict = Some (PyStr "t1")) as Hu
    by (vm_compute; reflexivity).
  assert (odict_get "label" shuffled_dict = Some (PyStr "is_negated")) as Hl
    by (vm_compute; reflexivity).
  assert (odict_get "value" shuffled_dict = Some (PyBool true)) as Hv
    by (vm_compute; reflexivity).
  assert (odict_get "metadata" shuffled_dict
          = Some (PyDict [("source", PyStr "rule")])) as Hm
    by (vm_compute; reflexivity).
  do 4 (split; [assumption|]).
  destruct (attribute_from_dict_to_dict empty_world shuffled_dict _ _ _ _ Hu Hl Hv Hm)
    as (x & w' & Hfrom & _ & _ & _ & _ & _ & Hto).
  exists x, w'. split; assumption.
Defined.

Lemma lookups_only_grow_witness :
  let d := DocumentObj.mk "doc1" 1 true {["u"]} {["disease" := ["u"]]}
             {["entities" := ["u"]]} [] in
  let w' := run [AddAnnotation 1 3; AddAnnotation 2 2] shared_world in
  reachable shared_world
  ∧ documents shared_world !! 1%positive = Some d
  ∧ Document.get_annotation_by_id 1 "u" shared_world
    = (Return (Some 1%positive), shared_world)
  ∧ Document.get_annotation_by_id 1 "u" w' = (Return (Some 1%positive), w').
Proof.
  intros d w'.
  assert (reachable shared_world) as Hreach by (exists shared_calls; reflexivity).
  assert (documents shared_world !! 1%positive = Some d) as Hd
    by (vm_compute; reflexivity).
  assert (Document.get_annotation_by_id 1 "u" shared_world
          = (Return (Some 1%positive), shared_world)) as Hget
    by (vm_compute; reflexivity).
  do 3 (split; [assumption|]).
  destruct (lookups_only_grow [AddAnnotation 1 3; AddAnnotation 2 2]
              shared_world 1 d Hreach Hd) as (Hkeep & _).
  exact (Hkeep "u" 1%positive Hget).
Defined.

Lemma documents_track_nothing_witness :
  let d := DocumentObj.mk "doc1" 1 true ∅ ∅ ∅ [] in
  @reachable elements_order src_classes src_world
  ∧ documents src_world !! 1%positive = Some d
  ∧ Document.get_annotations 1 src_world = (Return [], src_world)
  ∧ Document.get_annotations_by_label 1 "disease" src_world = (Return [], src_world)
  ∧ Document.get_annotation_by_id 1 "u" src_world = (Return None, src_world).
Proof.
  intros d.
  assert (@reachable elements_order src_classes src_world) as Hreach
    by (exists shared_calls; reflexivity).
  assert (documents src_world !! 1%positive = Some d) as Hd
    by (vm_compute; reflexivity).
  do 2 (split; [assumption|]).
  destruct (documents_track_nothing src_world 1 d Hreach Hd)
    as (_ & Hall & Hlabel & _ & Hid).
  split; [exact Hall|]. split; [exact (Hlabel "disease")|exact (Hid "u")].
Defined.

End more_examples.
